(** * The EKS deployer's provisioning and teardown sagas (eks/eks.go)

    A shallow embedding of [Tester.Up], [Tester.down], [Tester.Down] and
    [Tester.IsUp].  Every call that leaves eks.go (the cloud steps, the add-on
    testers, [catchInterrupt], [cfg.Sync], ...) is answered by a collaborator
    environment that the development is parametric in; the orchestration
    itself (ordering, guards, early returns, deferred functions, error
    aggregation) is transcribed from the source.  Logging and printing are
    left out, apart from the two entry banners. *)

From Stdlib Require Import List String ZArith Bool Lia DecimalString.
Import ListNotations.

Set Implicit Arguments.

(** ** Data model *)

(** One constructor per [AddOn...] section of the configuration, i.e. per
    [IsEnabledAddOn...] predicate and per [...Tester] field of [Tester]. *)
Inductive AddOn : Type :=
| NodeGroups | ManagedNodeGroups
| Conformance | CSIEBS | AppMesh | KubernetesDashboard | PrometheusGrafana
| NLBHelloWorld | ALB2048 | JobsPi | JobsEcho | CronJobs
| CSRsLocal | CSRsRemote | ConfigMapsLocal | ConfigMapsRemote
| SecretsLocal | SecretsRemote
| Fargate | IRSA | IRSAFargate | Wordpress | JupyterHub | Kubeflow
| HollowNodesLocal | HollowNodesRemote
| ClusterLoaderLocal | ClusterLoaderRemote
| StresserLocal | StresserRemote.

Definition AddOn_eq_dec (a b : AddOn) : {a = b} + {a <> b}.
Proof. decide equality. Defined.

Definition AddOn_eqb (a b : AddOn) : bool :=
  if AddOn_eq_dec a b then true else false.

(** A Go [error] is represented by its message ([err.Error()]). *)
Definition error := string.

(** [time.Duration]: signed 64-bit nanoseconds. *)
Definition Duration := Z.
Definition Second : Duration := 1000000000%Z.
Definition Minute : Duration := (60 * Second)%Z.

Definition wrap64 (z : Z) : Z :=
  ((z + 2 ^ 63) mod 2 ^ 64 - 2 ^ 63)%Z.

(** The functions whose bodies live outside eks.go. *)
Inductive Op : Type :=
| createS3 | createEncryption | createKeyPair | createClusterRole
| createVPC | createCluster
| checkHealth | uploadToS3 | Sync | EvaluateCommandRefs
| runCommand (cmd : string) (timeout : Duration)
| WriteFile (path content : string)
| InstallNvidiaDriver | CreateNvidiaSMI
| Create (a : AddOn) | Delete (a : AddOn)
| FetchLogs (a : AddOn) | AggregateResults (a : AddOn)
| deleteKeyPair | deleteCluster | deleteEncryption | deleteClusterRole
| deleteVPC | deleteS3.

(** A call is made either directly or through [catchInterrupt], which
    receives the function value and races it against the stop channel. *)
Inductive Call : Type :=
| direct (o : Op)
| catchInterrupt (o : Op).

(** What an invocation leaves behind, in order. *)
Inductive Event : Type :=
| Ev (c : Call) (r : option error)   (* a call and what it returned *)
| Slept (d : Duration)               (* time.Sleep(d) *)
| Waited (d : Duration)              (* the select on stop channel, signal and timer *)
| Banner (s : string).               (* "UP START" / "DOWN START" *)

Record ClusterStatus : Type := { Up_ : bool }.

(** [eksconfig.Config], restricted to what eks.go reads.  [S] is the type of
    the [Status] field: a [ClusterStatus] once [New] has filled it in, an
    optional one where the pointer may still be nil. *)
Record ConfigOf (S : Type) : Type := {
  Status : S;
  Enabled : AddOn -> bool;            (* IsEnabledAddOn...() *)
  Created : AddOn -> bool;            (* AddOn....Created *)
  FetchLogsFlag : AddOn -> bool;      (* AddOn(Managed)NodeGroups.FetchLogs *)
  ASGsAMITypes : list string;         (* AMIType of AddOnNodeGroups.ASGs *)
  MNGsAMITypes : list string;         (* AMIType of AddOnManagedNodeGroups.MNGs *)
  OnFailureDelete : bool;
  OnFailureDeleteWaitSeconds : Z;
  VPCCreate : bool;                   (* Parameters.VPCCreate *)
  CommandAfterCreateCluster : string;
  CommandAfterCreateClusterTimeout : Duration;
  CommandAfterCreateClusterOutputPath : string;
  CommandAfterCreateAddOns : string;
  CommandAfterCreateAddOnsTimeout : Duration;
  CommandAfterCreateAddOnsOutputPath : string
}.

(** The [Tester] struct.  [tester a] and [gpuTester] say whether the
    corresponding interface field is non-nil; [ext] is everything the
    collaborators own (cloud resources, files, channels). *)
Record TesterOf (C W : Type) : Type := {
  cfg : C;
  tester : AddOn -> bool;
  gpuTester : bool;
  ext : W
}.

Abbreviation Config := (ConfigOf ClusterStatus).
Abbreviation Tester W := (TesterOf Config W).

(** ** The saga monad: state, emitted events, and Go panics *)

Inductive Outcome (A : Type) : Type :=
| Ret (a : A)
| Panic.
Arguments Panic {A}.

Record Result (T A : Type) : Type := mkResult {
  outcome : Outcome A;
  final : T;
  events : list Event
}.

(** The messages of the [errors.New] under the nil checks of [Up], as written
    there (lines 1039-1616; the FetchLogs blocks repeat those of the two
    node-group blocks). *)
Definition nilTesterError (a : AddOn) : error :=
  match a with
  | NodeGroups =>
      "ts.ngTester == nil when AddOnNodeGroups.Enable == true"
  | ManagedNodeGroups =>
      "ts.mngTester == nil when AddOnManagedNodeGroups.Enable == true"
  | Conformance =>
      "ts.conformanceTester == nil when AddOnConformance.Enable == true"
  | CSIEBS =>
      "ts.csiEBSTester == nil when AddOnCSIEBS.Enable == true"
  | AppMesh =>
      "ts.appMeshTester == nil when AddOnAppMesh.Enable == true"
  | KubernetesDashboard =>
      "ts.kubernetesDashboardTester == nil when AddOnKubernetesDashboard.Enable == true"
  | PrometheusGrafana =>
      "ts.prometheusGrafanaTester == nil when AddOnKubernetesDashboard.Enable == true"
  | NLBHelloWorld =>
      "ts.nlbHelloWorldTester == nil when AddOnNLBHelloWorld.Enable == true"
  | ALB2048 =>
      "ts.alb2048Tester == nil when AddOnALB2048.Enable == true"
  | JobsPi =>
      "ts.jobsPiTester == nil when AddOnJobsPi.Enable == true"
  | JobsEcho =>
      "ts.jobsEchoTester == nil when AddOnJobsEcho.Enable == true"
  | CronJobs =>
      "ts.cronJobsTester == nil when AddOnCronJobs.Enable == true"
  | CSRsLocal =>
      "ts.csrsLocalTester == nil when AddOnCSRsLocal.Enable == true"
  | CSRsRemote =>
      "ts.csrsRemoteTester == nil when AddOnCSRsRemote.Enable == true"
  | ConfigMapsLocal =>
      "ts.configMapsLocalTester == nil when AddOnConfigMapsLocal.Enable == true"
  | ConfigMapsRemote =>
      "ts.configMapsRemoteTester == nil when AddOnConfigMapsRemote.Enable == true"
  | SecretsLocal =>
      "ts.secretsLocalTester == nil when AddOnSecretsLocal.Enable == true"
  | SecretsRemote =>
      "ts.secretsRemoteTester == nil when AddOnSecretsRemote.Enable == true"
  | Fargate =>
      "ts.fargateTester == nil when AddOnFargate.Enable == true"
  | IRSA =>
      "ts.irsaTester == nil when AddOnIRSA.Enable == true"
  | IRSAFargate =>
      "ts.irsaFargateTester == nil when AddOnIRSAFargate.Enable == true"
  | Wordpress =>
      "ts.wordPressTester == nil when AddOnWordpress.Enable == true"
  | JupyterHub =>
      "ts.jupyterHubTester == nil when AddOnJupyterHub.Enable == true"
  | Kubeflow =>
      "ts.kubeflowTester == nil when AddOnKubeflow.Enable == true"
  | HollowNodesLocal =>
      "ts.hollowNodesLocalTester == nil when AddOnHollowNodesLocal.Enable == true"
  | HollowNodesRemote =>
      "ts.hollowNodesRemoteTester == nil when AddOnHollowNodesRemote.Enable == true"
  | ClusterLoaderLocal =>
      "ts.clusterLoaderLocalTester == nil when AddOnClusterLoader.Enable == true"
  | ClusterLoaderRemote =>
      "ts.clusterLoaderRemoteTester == nil when AddOnClusterLoader.Enable == true"
  | StresserLocal =>
      "ts.stresserLocalTester == nil when AddOnStresserLocal.Enable == true"
  | StresserRemote =>
      "ts.stresserRemoteTester == nil when AddOnStresserRemote.Enable == true"
  end%string.

Section Saga.

Variable W : Type.

(** The collaborators. *)
Record Env : Type := {
  (* the effect and returned error of a call *)
  run : Call -> Tester W -> option error * Tester W;
  (* the bytes returned by the last [runCommand] *)
  commandOutput : Tester W -> string;
  (* the %q verb of fmt *)
  quote : string -> string;
  (* ec2config.AMITypeAL2X8664GPU and aws_eks.AMITypesAl2X8664Gpu *)
  AMITypeAL2X8664GPU : string;
  AMITypesAl2X8664Gpu : string
}.

Variable env : Env.

Definition M (A : Type) : Type := Tester W -> Result (Tester W) A.

Definition ret {A} (a : A) : M A := fun t => mkResult (Ret a) t [].

Definition panic {A} : M A := fun t => mkResult Panic t [].

Definition bind {A B} (m : M A) (f : A -> M B) : M B :=
  fun t =>
    match m t with
    | mkResult (Ret a) t1 e1 =>
        match f a t1 with
        | mkResult o t2 e2 => mkResult o t2 (e1 ++ e2)
        end
    | mkResult Panic t1 e1 => mkResult Panic t1 e1
    end.

Definition gets {A} (f : Tester W -> A) : M A :=
  fun t => mkResult (Ret (f t)) t [].

Definition call (c : Call) : M (option error) :=
  fun t => let rt := run env c t in
           mkResult (Ret (fst rt)) (snd rt) [Ev c (fst rt)].

Definition sleep (d : Duration) : M unit :=
  fun t => mkResult (Ret tt) t [Slept d].

Definition waitInterruptible (d : Duration) : M unit :=
  fun t => mkResult (Ret tt) t [Waited d].

Definition banner (s : string) : M unit :=
  fun t => mkResult (Ret tt) t [Banner s].

(** [defer body d]: [d] runs when [body] is left, by return or by panic, and
    sees the named result; the result of [body] stands unless [d] panics. *)
Definition defer {A} (body : M A) (d : Outcome A -> M unit) : M A :=
  fun t =>
    match body t with
    | mkResult o t1 e1 =>
        match d o t1 with
        | mkResult (Ret _) t2 e2 => mkResult o t2 (e1 ++ e2)
        | mkResult Panic t2 e2 => mkResult Panic t2 (e1 ++ e2)
        end
    end.

Notation "x <- m ;; k" := (bind m (fun x => k))
  (at level 61, m at next level, right associativity).
Notation "m ;; k" := (bind m (fun _ => k))
  (at level 61, right associativity).
Notation "m >>= f" := (bind m f) (at level 50, left associativity).

(** ** Teardown: [down] *)

(** [errs = append(errs, err.Error())] when [err != nil]. *)
Definition appendErr (errs : list string) (r : option error) : list string :=
  match r with
  | Some e => errs ++ [e]
  | None => errs
  end.

(** strings.Join *)
Fixpoint Join (elems : list string) (sep : string) : string :=
  match elems with
  | [] => EmptyString
  | e :: rest =>
      match rest with
      | [] => e
      | _ => (e ++ sep ++ Join rest sep)%string
      end
  end.

(** The unconditional blocks: [if err := ts.deleteX(); err != nil { append }]. *)
Definition deleteInfra (o : Op) (errs : list string) : M (list string) :=
  r <- call (direct o) ;;
  ret (appendErr errs r).

(** The add-on blocks:
    [if IsEnabledAddOnG() && AddOnG.Created { if err := calleeTester.Delete(); err != nil { append } else { sleep } }].
    The guard names add-on [g], the receiver of [Delete] is the tester of
    [callee]; calling a method of a nil interface panics.  [wait] is the
    sleep of the else branch, where the block has one. *)
Definition deleteAddOn (g callee : AddOn) (wait : option Duration)
    (errs : list string) : M (list string) :=
  c <- gets (@cfg _ _) ;;
  if Enabled c g && Created c g then
    h <- gets (fun t => tester t callee) ;;
    if h then
      r <- call (direct (Delete callee)) ;;
      match r with
      | Some e => ret (errs ++ [e])
      | None =>
          match wait with
          | Some d => sleep d ;; ret errs
          | None => ret errs
          end
      end
    else panic
  else ret errs.

(** Lines 2143-2149: the wait for the cloud load balancers to go away. *)
Definition waitLoadBalancers (errs : list string) : M (list string) :=
  c <- gets (@cfg _ _) ;;
  if (Enabled c NodeGroups || Enabled c ManagedNodeGroups)
     && ((Enabled c ALB2048 && Created c ALB2048)
         || (Enabled c NLBHelloWorld && Created c NLBHelloWorld))
  then sleep (2 * Minute)%Z ;; ret errs
  else ret errs.

(** Lines 2153-2177: [if IsEnabledAddOnX() && ts.xTester != nil { Delete; sleep 10s }]. *)
Definition deleteNodeGroup (a : AddOn) (errs : list string) : M (list string) :=
  c <- gets (@cfg _ _) ;;
  h <- gets (fun t => tester t a) ;;
  if Enabled c a && h then
    r <- call (direct (Delete a)) ;;
    sleep (10 * Second)%Z ;;
    ret (appendErr errs r)
  else ret errs.

(** Lines 2200-2204. *)
Definition waitVPC (errs : list string) : M (list string) :=
  c <- gets (@cfg _ _) ;;
  if VPCCreate c then sleep (30 * Second)%Z ;; ret errs
  else ret errs.

(** Lines 1846-2218, block by block in source order. *)
Definition down_sweep : M (list string) :=
  ret []
  >>= deleteInfra deleteKeyPair
  >>= deleteAddOn StresserRemote StresserRemote (Some (20 * Second)%Z)
  >>= deleteAddOn StresserLocal StresserLocal (Some (20 * Second)%Z)
  >>= deleteAddOn ClusterLoaderRemote ClusterLoaderRemote (Some (20 * Second)%Z)
  (* line 1895: guarded by ClusterLoaderLocal, calls clusterLoaderRemoteTester *)
  >>= deleteAddOn ClusterLoaderLocal ClusterLoaderRemote (Some (20 * Second)%Z)
  >>= deleteAddOn HollowNodesRemote HollowNodesRemote None
  >>= deleteAddOn HollowNodesLocal HollowNodesLocal None
  >>= deleteAddOn Kubeflow Kubeflow None
  >>= deleteAddOn JupyterHub JupyterHub (Some (20 * Second)%Z)
  >>= deleteAddOn Wordpress Wordpress (Some (20 * Second)%Z)
  >>= deleteAddOn IRSAFargate IRSAFargate None
  >>= deleteAddOn IRSA IRSA None
  >>= deleteAddOn Fargate Fargate None
  >>= deleteAddOn SecretsLocal SecretsLocal None
  >>= deleteAddOn SecretsRemote SecretsRemote None
  >>= deleteAddOn ConfigMapsLocal ConfigMapsLocal None
  >>= deleteAddOn CSRsRemote CSRsRemote None
  >>= deleteAddOn CronJobs CronJobs None
  >>= deleteAddOn JobsEcho JobsEcho None
  >>= deleteAddOn JobsPi JobsPi None
  >>= deleteAddOn ALB2048 ALB2048 (Some Minute)
  >>= deleteAddOn NLBHelloWorld NLBHelloWorld (Some Minute)
  >>= deleteAddOn PrometheusGrafana PrometheusGrafana (Some (20 * Second)%Z)
  >>= deleteAddOn KubernetesDashboard KubernetesDashboard None
  >>= deleteAddOn AppMesh AppMesh None
  >>= deleteAddOn CSIEBS CSIEBS (Some (20 * Second)%Z)
  >>= deleteAddOn Conformance Conformance (Some (20 * Second)%Z)
  >>= waitLoadBalancers
  >>= deleteNodeGroup ManagedNodeGroups
  >>= deleteNodeGroup NodeGroups
  >>= deleteInfra deleteCluster
  >>= deleteInfra deleteEncryption
  >>= deleteInfra deleteClusterRole
  >>= waitVPC
  >>= deleteInfra deleteVPC
  >>= deleteInfra deleteS3.

(** Lines 2220-2223. *)
Definition down_finish (errs : list string) : M (option error) :=
  if (0 <? List.length errs)%nat then ret (Some (Join errs ", "))
  else call (direct Sync).

(** Lines 1846-2224: everything after [var errs []string]. *)
Definition down_body : M (option error) :=
  down_sweep >>= down_finish.

(** The deferred function of [down]: [ts.cfg.Sync()], result dropped. *)
Definition down_deferred (_ : Outcome (option error)) : M unit :=
  call (direct Sync) ;; ret tt.

Definition down : M (option error) :=
  banner "DOWN START" ;;
  call (direct uploadToS3) ;;
  defer down_body down_deferred.

(** [Down] takes [downMu] around [down]; with one thread of control the lock
    is always free. *)
Definition Down : M (option error) := down.

(** The blocks of [down_sweep] once more, as data, so that the guard and the
    receiver of every block can be computed with. *)
Inductive DownStep : Type :=
| StepInfra (o : Op)
| StepAddOn (g callee : AddOn) (wait : option Duration)
| StepLoadBalancers
| StepNodeGroup (a : AddOn)
| StepVPC.

Definition down_steps : list DownStep :=
  [ StepInfra deleteKeyPair
  ; StepAddOn StresserRemote StresserRemote (Some (20 * Second)%Z)
  ; StepAddOn StresserLocal StresserLocal (Some (20 * Second)%Z)
  ; StepAddOn ClusterLoaderRemote ClusterLoaderRemote (Some (20 * Second)%Z)
  ; StepAddOn ClusterLoaderLocal ClusterLoaderRemote (Some (20 * Second)%Z)
  ; StepAddOn HollowNodesRemote HollowNodesRemote None
  ; StepAddOn HollowNodesLocal HollowNodesLocal None
  ; StepAddOn Kubeflow Kubeflow None
  ; StepAddOn JupyterHub JupyterHub (Some (20 * Second)%Z)
  ; StepAddOn Wordpress Wordpress (Some (20 * Second)%Z)
  ; StepAddOn IRSAFargate IRSAFargate None
  ; StepAddOn IRSA IRSA None
  ; StepAddOn Fargate Fargate None
  ; StepAddOn SecretsLocal SecretsLocal None
  ; StepAddOn SecretsRemote SecretsRemote None
  ; StepAddOn ConfigMapsLocal ConfigMapsLocal None
  ; StepAddOn CSRsRemote CSRsRemote None
  ; StepAddOn CronJobs CronJobs None
  ; StepAddOn JobsEcho JobsEcho None
  ; StepAddOn JobsPi JobsPi None
  ; StepAddOn ALB2048 ALB2048 (Some Minute)
  ; StepAddOn NLBHelloWorld NLBHelloWorld (Some Minute)
  ; StepAddOn PrometheusGrafana PrometheusGrafana (Some (20 * Second)%Z)
  ; StepAddOn KubernetesDashboard KubernetesDashboard None
  ; StepAddOn AppMesh AppMesh None
  ; StepAddOn CSIEBS CSIEBS (Some (20 * Second)%Z)
  ; StepAddOn Conformance Conformance (Some (20 * Second)%Z)
  ; StepLoadBalancers
  ; StepNodeGroup ManagedNodeGroups
  ; StepNodeGroup NodeGroups
  ; StepInfra deleteCluster
  ; StepInfra deleteEncryption
  ; StepInfra deleteClusterRole
  ; StepVPC
  ; StepInfra deleteVPC
  ; StepInfra deleteS3 ].

Definition downStep (s : DownStep) : list string -> M (list string) :=
  match s with
  | StepInfra o => deleteInfra o
  | StepAddOn g callee wait => deleteAddOn g callee wait
  | StepLoadBalancers => waitLoadBalancers
  | StepNodeGroup a => deleteNodeGroup a
  | StepVPC => waitVPC
  end.

Definition runSteps (l : list DownStep) (errs : list string) : M (list string) :=
  fold_left (fun m s => m >>= downStep s) l (ret errs).

(** ** Provisioning: [Up] *)

(** [if err := m; err != nil { return err }] followed by [k]. *)
Definition orReturn (m k : M (option error)) : M (option error) :=
  r <- m ;;
  match r with
  | Some e => ret (Some e)
  | None => k
  end.

Notation "m >>! k" := (orReturn m k) (at level 50, left associativity).

(** A step handed to [catchInterrupt]. *)
Definition gated (o : Op) : M (option error) := call (catchInterrupt o).

(** Lines 1000-1014. *)
Definition settleAndCheckHealth : M (option error) :=
  sleep (30 * Second)%Z ;; gated checkHealth.

Definition nl : string := String (Ascii.ascii_of_nat 10) EmptyString.

(** Lines 1016-1035 and 1777-1795: the operator's command hooks.  The three
    arguments select the hook's fields of the configuration. *)
Definition commandHook (cmd : Config -> string) (timeout : Config -> Duration)
    (path : Config -> string) : M (option error) :=
  c <- gets (@cfg _ _) ;;
  if String.eqb (cmd c) "" then ret None
  else
    call (direct EvaluateCommandRefs) >>!
    (c <- gets (@cfg _ _) ;;
     rerr <- call (direct (runCommand (cmd c) (timeout c))) ;;
     out <- gets (commandOutput env) ;;
     c <- gets (@cfg _ _) ;;
     let content :=
       match rerr with
       | Some e =>
           (cmd c ++ nl ++ nl ++ "# output" ++ nl ++ out
              ++ nl ++ nl ++ "# error" ++ nl ++ e)%string
       | None => (cmd c ++ nl ++ nl ++ "# output" ++ nl ++ out)%string
       end in
     werr <- call (direct (WriteFile (path c) content)) ;;
     match werr with
     | Some e =>
         c <- gets (@cfg _ _) ;;
         ret (Some ("failed to write file " ++ quote env (path c)
                      ++ " (" ++ e ++ ")")%string)
     | None => ret None
     end).

(** The create blocks:
    [if IsEnabledAddOnA() { if ts.aTester == nil { return errors.New(...) }; catchInterrupt(ts.aTester.Create) }]. *)
Definition createAddOn (a : AddOn) : M (option error) :=
  c <- gets (@cfg _ _) ;;
  if Enabled c a then
    h <- gets (fun t => tester t a) ;;
    if negb h then ret (Some (nilTesterError a))
    else gated (Create a)
  else ret None.

(** Lines 1121-1151: the conformance block uploads artifacts before it looks
    at the error of [Create]. *)
Definition createConformance : M (option error) :=
  c <- gets (@cfg _ _) ;;
  if Enabled c Conformance then
    h <- gets (fun t => tester t Conformance) ;;
    if negb h then ret (Some (nilTesterError Conformance))
    else
      err <- gated (Create Conformance) ;;
      call (direct uploadToS3) ;;
      ret err
  else ret None.

(** Lines 1072-1092. *)
Definition needGPU (c : Config) : bool :=
  let found1 :=
    Enabled c NodeGroups
    && existsb (String.eqb (AMITypeAL2X8664GPU env)) (ASGsAMITypes c) in
  if negb found1 && Enabled c ManagedNodeGroups
  then existsb (String.eqb (AMITypesAl2X8664Gpu env)) (MNGsAMITypes c)
  else found1.

(** [ts.gpuTester.F] is evaluated without a nil check. *)
Definition gpuStep (o : Op) : M (option error) :=
  h <- gets (@gpuTester _ _) ;;
  if h then gated o else panic.

(** Lines 1093-1119. *)
Definition gpuBootstrap : M (option error) :=
  c <- gets (@cfg _ _) ;;
  if needGPU c then gpuStep InstallNvidiaDriver >>! gpuStep CreateNvidiaSMI
  else ret None.

(** Lines 1241-1244: a failed upload is only logged. *)
Definition uploadArtifacts : M (option error) :=
  call (direct uploadToS3) ;; ret None.

Definition refreshed (c : Config) (a : AddOn) : bool :=
  Enabled c a && Created c a && FetchLogsFlag c a.

(** Lines 1631-1675. *)
Definition fetchNodeGroupLogs (a : AddOn) : M (option error) :=
  c <- gets (@cfg _ _) ;;
  if refreshed c a then
    h <- gets (fun t => tester t a) ;;
    if negb h then ret (Some (nilTesterError a))
    else sleep (15 * Second)%Z ;; gated (FetchLogs a)
  else ret None.

(** [if IsEnabledAddOnA() { catchInterrupt(ts.aTester.AggregateResults) }] *)
Definition aggregate (a : AddOn) : M (option error) :=
  c <- gets (@cfg _ _) ;;
  if Enabled c a then
    h <- gets (fun t => tester t a) ;;
    if h then gated (AggregateResults a) else panic
  else ret None.

(** Lines 1677-1763. *)
Definition aggregateResults : M (option error) :=
  c <- gets (@cfg _ _) ;;
  if refreshed c NodeGroups || refreshed c ManagedNodeGroups then
    ret None
    >>! aggregate CSRsRemote
    >>! aggregate SecretsRemote
    >>! aggregate IRSA
    >>! aggregate ConfigMapsRemote
    >>! aggregate ClusterLoaderRemote
    >>! aggregate StresserRemote
  else ret None.

(** The body of [Up], lines 928-1797, block by block in source order. *)
Definition Up_blocks : list (M (option error)) :=
  [ gated createS3
  ; gated createEncryption
  ; gated createKeyPair
  ; gated createClusterRole
  ; gated createVPC
  ; gated createCluster
  ; settleAndCheckHealth
  ; commandHook (@CommandAfterCreateCluster _)
        (@CommandAfterCreateClusterTimeout _)
        (@CommandAfterCreateClusterOutputPath _)
  ; createAddOn NodeGroups
  ; createAddOn ManagedNodeGroups
  ; gpuBootstrap
  ; createConformance
  ; createAddOn CSIEBS
  ; createAddOn AppMesh
  ; createAddOn KubernetesDashboard
  ; createAddOn PrometheusGrafana
  ; gated checkHealth
  ; uploadArtifacts
  ; createAddOn NLBHelloWorld
  ; createAddOn ALB2048
  ; createAddOn JobsPi
  ; createAddOn JobsEcho
  ; createAddOn CronJobs
  ; createAddOn CSRsLocal
  ; createAddOn CSRsRemote
  ; createAddOn ConfigMapsLocal
  ; createAddOn ConfigMapsRemote
  ; createAddOn SecretsLocal
  ; createAddOn SecretsRemote
  ; createAddOn Fargate
  ; createAddOn IRSA
  ; createAddOn IRSAFargate
  ; createAddOn Wordpress
  ; createAddOn JupyterHub
  ; createAddOn Kubeflow
  ; createAddOn HollowNodesLocal
  ; createAddOn HollowNodesRemote
  ; createAddOn ClusterLoaderLocal
  ; createAddOn ClusterLoaderRemote
  ; createAddOn StresserLocal
  ; createAddOn StresserRemote
  ; fetchNodeGroupLogs NodeGroups
  ; fetchNodeGroupLogs ManagedNodeGroups
  ; aggregateResults
  ; gated checkHealth
  ; commandHook (@CommandAfterCreateAddOns _)
        (@CommandAfterCreateAddOnsTimeout _)
        (@CommandAfterCreateAddOnsOutputPath _)
  ; call (direct Sync) ].

(** Each block is left by [return err] as soon as its error is non-nil; the
    named result [err] is nil on entry. *)
Definition runBlocks (l : list (M (option error))) : M (option error) :=
  fold_left orReturn l (ret None).

Definition Up_body : M (option error) := runBlocks Up_blocks.

(** [defer ts.cfg.Sync()], registered second and therefore run first. *)
Definition Up_deferred_sync (_ : Outcome (option error)) : M unit :=
  call (direct Sync) ;; ret tt.

(** Lines 822-920: the first deferred function.  [err] is the named result;
    it is nil when the body panicked.  The compensation calls [down], not
    [Down], and drops its result after logging it. *)
Definition Up_deferred (o : Outcome (option error)) : M unit :=
  call (direct uploadToS3) ;;
  match o with
  | Ret (Some err) =>
      c <- gets (@cfg _ _) ;;
      if negb (OnFailureDelete c) then ret tt
      else
        let waitDur := wrap64 (wrap64 (OnFailureDeleteWaitSeconds c) * Second) in
        (if (0 <? waitDur)%Z then waitInterruptible waitDur else ret tt) ;;
        down ;;
        ret tt
  | _ => ret tt
  end.

Definition Up : M (option error) :=
  banner "UP START" ;;
  defer (defer Up_body Up_deferred_sync) Up_deferred.

End Saga.

Notation "x <- m ;; k" := (bind m (fun x => k))
  (at level 61, m at next level, right associativity).
Notation "m ;; k" := (bind m (fun _ => k))
  (at level 61, right associativity).
Notation "m >>= f" := (bind m f) (at level 50, left associativity).
Notation "m >>! k" := (orReturn m k) (at level 50, left associativity).

(** ** [IsUp] *)

Definition withStatus {S S'} (c : ConfigOf S) (st : S') : ConfigOf S' :=
  {| Status := st;
     Enabled := Enabled c;
     Created := Created c;
     FetchLogsFlag := FetchLogsFlag c;
     ASGsAMITypes := ASGsAMITypes c;
     MNGsAMITypes := MNGsAMITypes c;
     OnFailureDelete := OnFailureDelete c;
     OnFailureDeleteWaitSeconds := OnFailureDeleteWaitSeconds c;
     VPCCreate := VPCCreate c;
     CommandAfterCreateCluster := CommandAfterCreateCluster c;
     CommandAfterCreateClusterTimeout := CommandAfterCreateClusterTimeout c;
     CommandAfterCreateClusterOutputPath := CommandAfterCreateClusterOutputPath c;
     CommandAfterCreateAddOns := CommandAfterCreateAddOns c;
     CommandAfterCreateAddOnsTimeout := CommandAfterCreateAddOnsTimeout c;
     CommandAfterCreateAddOnsOutputPath := CommandAfterCreateAddOnsOutputPath c |}.

Definition withCfg {C C' W} (t : TesterOf C W) (c : C') : TesterOf C' W :=
  {| cfg := c; tester := tester t; gpuTester := gpuTester t; ext := ext t |}.

(** A tester whose [cfg] pointer, and the [Status] pointer inside it, may be
    nil: the receiver [IsUp] guards against. *)
Abbreviation Config0 := (ConfigOf (option ClusterStatus)).
Abbreviation Tester0 W := (TesterOf (option Config0) W).

(** Lines 2229-2240.  [ts.checkHealth()] is reached only with both pointers
    set, so the collaborator is asked on the tester it then sees. *)
Definition IsUp {W} (env : Env W) (ts : Tester0 W)
  : Result (Tester0 W) (bool * option error) :=
  match cfg ts with
  | None => mkResult (Ret (false, None)) ts []
  | Some c =>
      match Status c with
      | None => mkResult (Ret (false, None)) ts []
      | Some st =>
          if negb (Up_ st) then mkResult (Ret (false, None)) ts []
          else
            let r := call env (direct checkHealth) (withCfg ts (withStatus c st)) in
            let t' := final r in
            mkResult
              (match outcome r with
               | Ret e => Ret (true, e)
               | Panic => Panic
               end)
              (withCfg t' (Some (withStatus (cfg t') (Some (Status (cfg t'))))))
              (events r)
      end
  end.

(** ** The stop signal *)

Module StopSignal.

(** [stopCreationCh] and [stopCreationChOnce] of [Tester]. *)
Record t : Type := {
  closed : bool;   (* the channel has been closed *)
  done : bool      (* the sync.Once has run *)
}.

(** Lines 275-283: [make(chan struct{})] and [new(sync.Once)]. *)
Definition new : t := {| closed := false; done := false |}.

(** [close(ch)] panics on a channel that is closed already. *)
Definition close (s : t) : Outcome t :=
  if closed s then Panic
  else Ret {| closed := true; done := done s |}.

(** [once.Do(f)] calls [f] on the first call only. *)
Definition Do (f : t -> Outcome t) (s : t) : Outcome t :=
  if done s then Ret s
  else f {| closed := closed s; done := true |}.

(** Modelled from the spec: the code that fires the signal is in
    [catchInterrupt], which eks.go calls but does not define; firing is the
    guarded close the two fields exist for,
    [stopCreationChOnce.Do(func() { close(stopCreationCh) })], for either
    origin (internal stop request, process signal). *)
Definition fire (s : t) : Outcome t := Do close s.

(** A receive from the channel succeeds exactly when it is closed. *)
Definition fired (s : t) : bool := closed s.

(** [n] fire events in a row. *)
Fixpoint fires (n : nat) (s : t) : Outcome t :=
  match n with
  | O => Ret s
  | S n' =>
      match fire s with
      | Ret s' => fires n' s'
      | Panic => Panic
      end
  end.

End StopSignal.

(** ** The sub-testers: [createSubTesters] *)

(** The fields [createSubTesters] fills: the tester of an add-on, or the GPU
    tester. *)
Inductive SubTester : Type :=
| sub (a : AddOn)
| gpu.

(** What follows the constructor call of a block: [if err != nil { return
    err }], nothing at all, or (cluster_loader_local.New) no error result
    at all. *)
Inductive ErrCheck : Type :=
| checked
| unchecked
| noError.

(** Lines 398-808, block by block in source order. *)
Definition subTesterBlocks : list (SubTester * ErrCheck) :=
  [ (sub NodeGroups, checked); (sub ManagedNodeGroups, checked);
    (gpu, checked);
    (sub Conformance, unchecked); (sub CSIEBS, unchecked);
    (sub AppMesh, unchecked); (sub KubernetesDashboard, unchecked);
    (sub PrometheusGrafana, unchecked);
    (sub NLBHelloWorld, checked); (sub ALB2048, checked);
    (sub JobsPi, checked); (sub JobsEcho, checked); (sub CronJobs, checked);
    (sub CSRsLocal, checked); (sub CSRsRemote, checked);
    (sub ConfigMapsLocal, checked); (sub ConfigMapsRemote, checked);
    (sub SecretsLocal, checked); (sub SecretsRemote, checked);
    (sub Fargate, checked); (sub IRSA, checked); (sub IRSAFargate, checked);
    (sub Wordpress, checked); (sub JupyterHub, unchecked);
    (sub Kubeflow, checked);
    (sub ClusterLoaderLocal, noError); (sub ClusterLoaderRemote, checked);
    (sub HollowNodesLocal, checked); (sub HollowNodesRemote, checked);
    (sub StresserLocal, checked); (sub StresserRemote, checked) ].

(** What a run of [createSubTesters] leaves behind, in order. *)
Inductive Built : Type :=
| Constructed (s : SubTester) (h : bool) (r : option error)
    (* a constructor, the handle and the error it returned *)
| Synced (r : option error).   (* the closing [cfg.Sync] *)

(** The guard of a block. *)
Definition wanted (s : SubTester) (c : Config) : bool :=
  match s with
  | sub a => Enabled c a
  | gpu => Enabled c NodeGroups || Enabled c ManagedNodeGroups
  end.

(** [ts.xTester = h] *)
Definition setHandle {W} (s : SubTester) (h : bool) (t : Tester W) : Tester W :=
  match s with
  | sub a =>
      {| cfg := cfg t;
         tester := fun b => if AddOn_eqb a b then h else tester t b;
         gpuTester := gpuTester t;
         ext := ext t |}
  | gpu =>
      {| cfg := cfg t; tester := tester t; gpuTester := h; ext := ext t |}
  end.

Section SubTesters.

Variable W : Type.
Variable env : Env W.

(** The constructors of the add-on packages ([ng.New], [mng.New], ...):
    the handle and the error they return, and what they do to the state
    they are handed ([ts.cfg] and the clients). *)
Variable construct : SubTester -> Tester W -> (bool * option error) * Tester W.

(** The blocks from [l] on.  [err] is the named result: every block that
    calls a constructor with an error result assigns it, only the checked
    blocks read it, and the last statement is [return ts.cfg.Sync()]. *)
Fixpoint buildFrom (l : list (SubTester * ErrCheck)) (err : option error)
    (t : Tester W) : option error * Tester W * list Built :=
  match l with
  | [] =>
      let rt := run env (direct Sync) t in
      (fst rt, snd rt, [Synced (fst rt)])
  | (s, k) :: l' =>
      if wanted s (cfg t) then
        let ht := construct s t in
        let h := fst (fst ht) in
        let t' := setHandle s h (snd ht) in
        match k with
        | checked =>
            let err := snd (fst ht) in
            match err with
            | Some _ => (err, t', [Constructed s h err])
            | None =>
                match buildFrom l' err t' with
                | (r, t'', tr) => (r, t'', Constructed s h err :: tr)
                end
            end
        | unchecked =>
            let err := snd (fst ht) in
            match buildFrom l' err t' with
            | (r, t'', tr) => (r, t'', Constructed s h err :: tr)
            end
        | noError =>
            match buildFrom l' err t' with
            | (r, t'', tr) => (r, t'', Constructed s h None :: tr)
            end
        end
      else buildFrom l' err t
  end.

(** Lines 394-811. *)
Definition createSubTesters (t : Tester W)
  : option error * Tester W * list Built :=
  buildFrom subTesterBlocks None t.

End SubTesters.

(** ** Logs, and what kubetest2 asks the deployer *)

Section Logs.

Variable W : Type.
Variable env : Env W.

(** Lines 2246-2259. *)
Definition DumpClusterLogs : M W (option error) :=
  c <- gets (@cfg _ _) ;;
  (if Enabled c NodeGroups then
     h <- gets (fun t => tester t NodeGroups) ;;
     if h then call env (direct (FetchLogs NodeGroups)) else @panic W _
   else ret None)
  >>!
  (c <- gets (@cfg _ _) ;;
   if Enabled c ManagedNodeGroups then
     h <- gets (fun t => tester t ManagedNodeGroups) ;;
     if h then call env (direct (FetchLogs ManagedNodeGroups)) else @panic W _
   else ret None).

(** [xTester.DownloadClusterLogs(artifactDir)] of the node-group testers:
    the error returned and the effect.  [Event] has no entry for this call;
    a run is observed through its outcome and final state. *)
Variable download : AddOn -> string -> Tester W -> option error * Tester W.

Definition callDownload (a : AddOn) (artifactDir : string)
  : M W (option error) :=
  fun t => let rt := download a artifactDir t in
           mkResult (Ret (fst rt)) (snd rt) [].

(** Lines 2263-2274.  The block guarded by the node groups calls the tester
    of the managed node groups, and the other way round. *)
Definition DownloadClusterLogs (artifactDir : string) : M W (option error) :=
  c <- gets (@cfg _ _) ;;
  (if Enabled c NodeGroups then
     h <- gets (fun t => tester t ManagedNodeGroups) ;;
     if h then callDownload ManagedNodeGroups artifactDir else @panic W _
   else ret None)
  >>!
  (c <- gets (@cfg _ _) ;;
   if Enabled c ManagedNodeGroups then
     h <- gets (fun t => tester t NodeGroups) ;;
     if h then callDownload NodeGroups artifactDir else @panic W _
   else ret None).

End Logs.

(** Lines 2332-2337.  [ts.cfg] is checked against nil, [ts.cfg.Status] is
    dereferenced as it is. *)
Definition ShouldUp {W} (ts : Tester0 W) : Outcome bool :=
  match cfg ts with
  | None => Ret false
  | Some c =>
      match Status c with
      | None => Panic
      | Some st => Ret (negb (Up_ st))
      end
  end.

(** Lines 2341-2346. *)
Definition ShouldDown {W} (ts : Tester0 W) : Outcome bool :=
  match cfg ts with
  | None => Ret false
  | Some c =>
      match Status c with
      | None => Panic
      | Some st => Ret (Up_ st)
      end
  end.

(** Lines 2350-2355. *)
Definition ShouldTest {W} (ts : Tester0 W) : Outcome bool :=
  match cfg ts with
  | None => Ret false
  | Some c =>
      match Status c with
      | None => Panic
      | Some st => Ret (Up_ st)
      end
  end.

(** * The eksctl deployer (internal/deployers/eksctl) *)

Module Eksctl.

Record UpOptions : Type := {
  Region : string;
  KubernetesVersion : string;
  Nodes : Z;
  AMI : string;
  InstanceTypes : list string;
  ConfigFile : string;
  AvailabilityZones : list string;
  AMIFamily : string;
  EFAEnabled : bool;
  VolumeSize : Z;
  PrivateNetworking : bool;
  WithOIDC : bool;
  SkipClusterCreation : bool;
  ClusterName : string;
  UseUnmanagedNodegroup : bool;
  NodegroupName : string
}.

Definition setKubernetesVersion (o : UpOptions) (v : string) : UpOptions :=
  {| Region := Region o; KubernetesVersion := v; Nodes := Nodes o;
     AMI := AMI o; InstanceTypes := InstanceTypes o;
     ConfigFile := ConfigFile o; AvailabilityZones := AvailabilityZones o;
     AMIFamily := AMIFamily o; EFAEnabled := EFAEnabled o;
     VolumeSize := VolumeSize o; PrivateNetworking := PrivateNetworking o;
     WithOIDC := WithOIDC o; SkipClusterCreation := SkipClusterCreation o;
     ClusterName := ClusterName o;
     UseUnmanagedNodegroup := UseUnmanagedNodegroup o;
     NodegroupName := NodegroupName o |}.

Definition setUseUnmanagedNodegroup (o : UpOptions) (b : bool) : UpOptions :=
  {| Region := Region o; KubernetesVersion := KubernetesVersion o;
     Nodes := Nodes o; AMI := AMI o; InstanceTypes := InstanceTypes o;
     ConfigFile := ConfigFile o; AvailabilityZones := AvailabilityZones o;
     AMIFamily := AMIFamily o; EFAEnabled := EFAEnabled o;
     VolumeSize := VolumeSize o; PrivateNetworking := PrivateNetworking o;
     WithOIDC := WithOIDC o; SkipClusterCreation := SkipClusterCreation o;
     ClusterName := ClusterName o;
     UseUnmanagedNodegroup := b;
     NodegroupName := NodegroupName o |}.

Definition setInstanceTypes (o : UpOptions) (l : list string) : UpOptions :=
  {| Region := Region o; KubernetesVersion := KubernetesVersion o;
     Nodes := Nodes o; AMI := AMI o; InstanceTypes := l;
     ConfigFile := ConfigFile o; AvailabilityZones := AvailabilityZones o;
     AMIFamily := AMIFamily o; EFAEnabled := EFAEnabled o;
     VolumeSize := VolumeSize o; PrivateNetworking := PrivateNetworking o;
     WithOIDC := WithOIDC o; SkipClusterCreation := SkipClusterCreation o;
     ClusterName := ClusterName o;
     UseUnmanagedNodegroup := UseUnmanagedNodegroup o;
     NodegroupName := NodegroupName o |}.

(** The [deployer] struct.  [RunID] and [RunDir] are what the methods of
    [commonOptions] return; [awsRegion] is [awsConfig.Region]; the embedded
    [*UpOptions] is dereferenced everywhere and taken to be set. *)
Record deployer : Type := {
  RunID : string;
  RunDir : string;
  options : UpOptions;
  awsRegion : string;
  KubeconfigPath : string;
  clusterName : string
}.

Definition setOptions (d : deployer) (o : UpOptions) : deployer :=
  {| RunID := RunID d; RunDir := RunDir d; options := o;
     awsRegion := awsRegion d; KubeconfigPath := KubeconfigPath d;
     clusterName := clusterName d |}.

Definition setKubeconfigPath (d : deployer) (p : string) : deployer :=
  {| RunID := RunID d; RunDir := RunDir d; options := options d;
     awsRegion := awsRegion d; KubeconfigPath := p;
     clusterName := clusterName d |}.

Definition setClusterName (d : deployer) (n : string) : deployer :=
  {| RunID := RunID d; RunDir := RunDir d; options := options d;
     awsRegion := awsRegion d; KubeconfigPath := KubeconfigPath d;
     clusterName := n |}.

(** ** The cluster config template (cluster_config.go) *)

Definition dq : string := String (Ascii.ascii_of_nat 34) EmptyString.

(** An [int] printed by the template. *)
Definition itoa (z : Z) : string := NilZero.string_of_int (Z.to_int z).

(** [clusterConfigTemplateParams]: the fields declared next to the embedded
    [UpOptions] shadow its [ClusterName] and [Region]. *)
Record clusterConfigTemplateParams : Type := {
  paramOptions : UpOptions;
  paramClusterName : string;
  paramRegion : string
}.

(** [{{- range $x := l}} - "{{$x}}" {{- end}}] *)
Definition items (l : list string) : string :=
  String.concat "" (map (fun x => nl ++ "    - " ++ dq ++ x ++ dq) l)%string.

(** The lines the two node-group branches of the template share, each with
    the newline and indentation the trim markers leave in front of it. *)
Definition amiLine (o : UpOptions) : string :=
  (if String.eqb (AMI o) "" then ""
   else nl ++ "    ami: " ++ dq ++ AMI o ++ dq)%string.

Definition amiFamilyLine (o : UpOptions) : string :=
  (if String.eqb (AMIFamily o) "" then nl ++ "    amiFamily: AmazonLinux2"
   else nl ++ "    amiFamily: " ++ AMIFamily o)%string.

Definition sizeLines (o : UpOptions) : string :=
  (if (0 <? Nodes o)%Z then
     nl ++ "    minSize: " ++ itoa (Nodes o)
     ++ nl ++ "    maxSize: " ++ itoa (Nodes o)
     ++ nl ++ "    desiredCapacity: " ++ itoa (Nodes o)
   else "")%string.

Definition volumeSizeLine (o : UpOptions) : string :=
  (if (VolumeSize o =? 0)%Z then ""
   else nl ++ "    volumeSize: " ++ itoa (VolumeSize o))%string.

Definition privateNetworkingLine (o : UpOptions) : string :=
  (if PrivateNetworking o then nl ++ "    privateNetworking: true"
   else "")%string.

Definition availabilityZoneLines (o : UpOptions) : string :=
  (match AvailabilityZones o with
   | [] => ""
   | l => nl ++ "    availabilityZones:" ++ items l
   end)%string.

Definition bootstrapLines (p : clusterConfigTemplateParams) : string :=
  (if negb (String.eqb (AMI (paramOptions p)) "")
      && String.eqb (AMIFamily (paramOptions p)) "AmazonLinux2"
   then
     nl ++ "    overrideBootstrapCommand: |"
     ++ nl ++ "      #!/bin/bash"
     ++ nl ++ "      source /var/lib/cloud/scripts/eksctl/bootstrap.helper.sh"
     ++ nl ++ "      /etc/eks/bootstrap.sh " ++ paramClusterName p
     ++ " --kubelet-extra-args " ++ dq ++ "--node-labels=${NODE_LABELS}" ++ dq
   else "")%string.

Definition nodegroupName (o : UpOptions) (default : string) : string :=
  (if String.eqb (NodegroupName o) "" then dq ++ default ++ dq
   else dq ++ NodegroupName o ++ dq)%string.

(** [configYAMLTemplate], executed on [p]. *)
Definition configYAML (p : clusterConfigTemplateParams) : string :=
  let o := paramOptions p in
  (nl ++ "---"
   ++ nl ++ "apiVersion: eksctl.io/v1alpha5"
   ++ nl ++ "kind: ClusterConfig"
   ++ nl ++ "metadata:"
   ++ nl ++ "  name: " ++ dq ++ paramClusterName p ++ dq
   ++ nl ++ "  region: " ++ dq ++ paramRegion p ++ dq
   ++ (if String.eqb (KubernetesVersion o) "" then ""
       else nl ++ "  version: " ++ dq ++ KubernetesVersion o ++ dq)
   ++ (if WithOIDC o then nl ++ "iam:" ++ nl ++ "  withOIDC: true" else "")
   ++ (if UseUnmanagedNodegroup o then
         nl ++ "nodeGroups:"
         ++ nl ++ "  - name: " ++ nodegroupName o "ng-1"
         ++ amiLine o
         ++ amiFamilyLine o
         ++ match InstanceTypes o with
            | [] => ""
            | first :: _ => nl ++ "    instanceType: " ++ dq ++ first ++ dq
            end
         ++ sizeLines o
         ++ volumeSizeLine o
         ++ privateNetworkingLine o
         ++ availabilityZoneLines o
         ++ bootstrapLines p
       else
         nl ++ "managedNodeGroups:"
         ++ nl ++ "  - name: " ++ nodegroupName o "managed"
         ++ amiLine o
         ++ amiFamilyLine o
         ++ match InstanceTypes o with
            | [] => ""
            | l => nl ++ "    instanceTypes:" ++ items l
            end
         ++ sizeLines o
         ++ volumeSizeLine o
         ++ privateNetworkingLine o
         ++ (if EFAEnabled o then nl ++ "    efaEnabled: true" else "")
         ++ availabilityZoneLines o
         ++ bootstrapLines p)
   ++ nl)%string.

(** ** The deployer's methods (deployer.go, up.go) *)

Section Deployer.

(** Everything the methods reach outside the package: the cluster and the
    file system, in a state of type [World]. *)
Variable World : Type.

Record Sys : Type := {
  DetectKubernetesVersion : World -> (string * option error) * World;
  ParseMinorVersion : string -> World -> (string * option error) * World;
  CreateTemp : string -> string -> World -> (string * option error) * World;
  Write : string -> string -> World -> option error * World;
  Close : string -> World -> World;
  ExecuteCommand : string -> list string -> World -> option error * World;
  MkdirAll : string -> World -> option error * World;
  DescribeCluster : string -> World -> (string * option error) * World;
  Dir : string -> string;            (* filepath.Dir *)
  Join : string -> string -> string; (* filepath.Join *)
  ClusterStatusActive : string;      (* ekstypes.ClusterStatusActive *)
  ClusterStatusCreating : string     (* ekstypes.ClusterStatusCreating *)
}.

Variable sys : Sys.

(** What a method leaves behind outside the deployer, in order. *)
Inductive Effect : Type :=
| Detected (v : string) (r : option error)
| Parsed (v m : string) (r : option error)
| TempCreated (dir pattern file : string) (r : option error)
| Written (file bytes : string) (r : option error)
| Closed (file : string)
| Executed (cmd : string) (args : list string) (r : option error)
| MadeDir (path : string) (r : option error)
| Described (name status : string) (r : option error).

(** A method of [*deployer]: the deployer and the outside state before and
    after, the result, and the effects. *)
Definition E (A : Type) : Type :=
  deployer * World -> A * (deployer * World) * list Effect.

Definition retE {A} (a : A) : E A := fun ds => (a, ds, []).

Definition bindE {A B} (m : E A) (f : A -> E B) : E B :=
  fun ds =>
    match m ds with
    | (a, ds1, e1) =>
        match f a ds1 with
        | (b, ds2, e2) => (b, ds2, e1 ++ e2)
        end
    end.

Notation "x <~ m ;; k" := (bindE m (fun x => k))
  (at level 61, m at next level, right associativity).
Notation "m ;;; k" := (bindE m (fun _ => k))
  (at level 61, right associativity).

Definition self : E deployer := fun ds => (fst ds, ds, []).

Definition update (f : deployer -> deployer) : E unit :=
  fun ds => (tt, (f (fst ds), snd ds), []).

(** A call outside: the result and the effect that records it. *)
Definition outside {A} (f : World -> A * World) (log : A -> Effect) : E A :=
  fun ds => let rs := f (snd ds) in (fst rs, (fst ds, snd rs), [log (fst rs)]).

(** deployer.go, [initClusterName]. *)
Definition initClusterName : E unit :=
  d <~ self ;;
  if String.eqb (ClusterName (options d)) ""
  then update (fun d => setClusterName d (RunID d))
  else update (fun d => setClusterName d (ClusterName (options d))).

(** deployer.go, [Kubeconfig]. *)
Definition Kubeconfig : E (string * option error) :=
  d <~ self ;;
  if String.eqb (KubeconfigPath d) ""
  then retE (Join sys (RunDir d) "kubeconfig", None)
  else retE (KubeconfigPath d, None).

(** cluster_config.go, [RenderClusterConfig].  The template is a constant
    that parses, and no action of it can fail on these parameters ([index]
    is guarded by [if .InstanceTypes]), so the error result is nil. *)
Definition RenderClusterConfig : E (string * option error) :=
  initClusterName ;;;
  d <~ self ;;
  retE (configYAML {| paramOptions := options d;
                      paramClusterName := clusterName d;
                      paramRegion := awsRegion d |},
        None).

(** up.go, [detectKubernetesVersion]. *)
Definition detectKubernetesVersion : E (string * option error) :=
  detected <~ outside (DetectKubernetesVersion sys)
                      (fun r => Detected (fst r) (snd r)) ;;
  match snd detected with
  | Some e => retE (EmptyString, Some e)
  | None =>
      parsed <~ outside (ParseMinorVersion sys (fst detected))
                        (fun r => Parsed (fst detected) (fst r) (snd r)) ;;
      match snd parsed with
      | Some e => retE (EmptyString, Some e)
      | None => retE (fst parsed, None)
      end
  end.

(** [if err != nil { return err }] followed by [k]. *)
Definition orFail (m k : E (option error)) : E (option error) :=
  r <~ m ;;
  match r with
  | Some e => retE (Some e)
  | None => k
  end.

(** up.go, [verifyUpFlags]. *)
Definition verifyUpFlags : E (option error) :=
  orFail
    (d <~ self ;;
     if String.eqb (KubernetesVersion (options d)) "" then
       detected <~ detectKubernetesVersion ;;
       match snd detected with
       | Some _ =>
           retE (Some "unable to detect --kubernetes-version, flag cannot be empty"%string)
       | None =>
           update (fun d => setOptions d
                     (setKubernetesVersion (options d) (fst detected))) ;;;
           retE None
       end
     else retE None)
    (d <~ self ;;
     if (Nodes (options d) <=? 0)%Z then
       retE (Some "number of nodes must be greater than zero"%string)
     else
       (if String.eqb (AMIFamily (options d)) "Bottlerocket"
           && negb (String.eqb (AMI (options d)) "")
           && negb (UseUnmanagedNodegroup (options d))
        then update (fun d => setOptions d
                       (setUseUnmanagedNodegroup (options d) true))
        else retE tt) ;;;
       d <~ self ;;
       if UseUnmanagedNodegroup (options d) then
         match InstanceTypes (options d) with
         | first :: _ :: _ =>
             retE (Some ("Unmanaged nodegroups only support a single instance type. Using the first one: "
                           ++ first)%string)
         | [] =>
             update (fun d => setOptions d
                       (setInstanceTypes (options d) ["m5.xlarge"%string])) ;;;
             retE (Some ("No instance type specified for unmanaged nodegroup. Using default: "
                           ++ "m5.xlarge")%string)
         | [_] => retE None
         end
       else retE None).

(** The arguments of [eksctl create]. *)
Definition createArgs (skipClusterCreation : bool) (configFile : string)
  : list string :=
  [ "create"%string;
    (if skipClusterCreation then "nodegroup" else "cluster")%string;
    "--config-file"%string; configFile ].

(** up.go, [Up] from [util.ExecuteCommand("eksctl", args...)] on. *)
Definition createAndWriteKubeconfig (args : list string) : E (option error) :=
  err <~ outside (ExecuteCommand sys "eksctl" args)
                 (Executed "eksctl" args) ;;
  match err with
  | Some e => retE (Some ("failed to create cluster: " ++ e)%string)
  | None =>
      kc <~ Kubeconfig ;;
      match snd kc with
      | Some e =>
          retE (Some ("error determining kubeconfig path: " ++ e)%string)
      | None =>
          let kubeConfigPath := fst kc in
          err <~ outside (MkdirAll sys (Dir sys kubeConfigPath))
                         (MadeDir (Dir sys kubeConfigPath)) ;;
          match err with
          | Some e =>
              retE (Some ("error creating directory for kubeconfig: " ++ e)%string)
          | None =>
              d <~ self ;;
              let writeKubeconfigArgs :=
                [ "utils"; "write-kubeconfig";
                  "--cluster"; clusterName d;
                  "--region"; Region (options d);
                  "--kubeconfig"; kubeConfigPath ]%string in
              err <~ outside (ExecuteCommand sys "eksctl" writeKubeconfigArgs)
                             (Executed "eksctl" writeKubeconfigArgs) ;;
              match err with
              | Some e =>
                  retE (Some ("failed to write kubeconfig: " ++ e)%string)
              | None =>
                  update (fun d => setKubeconfigPath d kubeConfigPath) ;;;
                  retE None
              end
          end
      end
  end.

(** up.go, [Up].  The deferred [clusterConfigFile.Close()] runs when [Up]
    is left, whatever it returns. *)
Definition Up : E (option error) :=
  initClusterName ;;;
  verr <~ verifyUpFlags ;;
  match verr with
  | Some e => retE (Some ("up flags are invalid: " ++ e)%string)
  | None =>
      d <~ self ;;
      if negb (String.eqb (ConfigFile (options d)) "") then
        createAndWriteKubeconfig
          (createArgs (SkipClusterCreation (options d)) (ConfigFile (options d)))
      else
        rendered <~ RenderClusterConfig ;;
        match snd rendered with
        | Some e => retE (Some e)
        | None =>
            let clusterConfig := fst rendered in
            temp <~ outside (CreateTemp sys "" "kubetest2-eksctl-cluster-config")
                            (fun r => TempCreated "" "kubetest2-eksctl-cluster-config"
                                        (fst r) (snd r)) ;;
            match snd temp with
            | Some e => retE (Some e)
            | None =>
                let clusterConfigFile := fst temp in
                r <~ orFail
                       (outside (Write sys clusterConfigFile clusterConfig)
                                (Written clusterConfigFile clusterConfig))
                       (d <~ self ;;
                        createAndWriteKubeconfig
                          (createArgs (SkipClusterCreation (options d))
                                      clusterConfigFile)) ;;
                outside (fun s => (tt, Close sys clusterConfigFile s))
                        (fun _ => Closed clusterConfigFile) ;;;
                retE r
            end
        end
  end.

(** up.go, [IsUp]. *)
Definition IsUp : E (bool * option error) :=
  initClusterName ;;;
  d <~ self ;;
  result <~ outside (DescribeCluster sys (clusterName d))
                    (fun r => Described (clusterName d) (fst r) (snd r)) ;;
  match snd result with
  | Some e => retE (false, Some e)
  | None =>
      if String.eqb (fst result) (ClusterStatusActive sys) then
        retE (true, None)
      else if String.eqb (fst result) (ClusterStatusCreating sys) then
        retE (false, None)
      else retE (false, Some ("cluster status is: " ++ fst result)%string)
  end.

End Deployer.

End Eksctl.

(** ** A scripted collaborator environment

    The environment used to run the sagas on concrete inputs: the script in
    [ext] says which calls fail and with what message; a call that succeeds
    has the effect on the configuration its add-on package gives it
    ([Create] sets [Created], [Delete] clears it, the cluster steps set and
    clear [Status.Up]). *)

Module Sim.

Definition Script := Call -> option error.

Definition setCreated {S} (c : ConfigOf S) (a : AddOn) (v : bool) : ConfigOf S :=
  {| Status := Status c;
     Enabled := Enabled c;
     Created := fun b => if AddOn_eqb a b then v else Created c b;
     FetchLogsFlag := FetchLogsFlag c;
     ASGsAMITypes := ASGsAMITypes c;
     MNGsAMITypes := MNGsAMITypes c;
     OnFailureDelete := OnFailureDelete c;
     OnFailureDeleteWaitSeconds := OnFailureDeleteWaitSeconds c;
     VPCCreate := VPCCreate c;
     CommandAfterCreateCluster := CommandAfterCreateCluster c;
     CommandAfterCreateClusterTimeout := CommandAfterCreateClusterTimeout c;
     CommandAfterCreateClusterOutputPath := CommandAfterCreateClusterOutputPath c;
     CommandAfterCreateAddOns := CommandAfterCreateAddOns c;
     CommandAfterCreateAddOnsTimeout := CommandAfterCreateAddOnsTimeout c;
     CommandAfterCreateAddOnsOutputPath := CommandAfterCreateAddOnsOutputPath c |}.

Definition effect (c : Call) (t : Tester Script) : Tester Script :=
  match c with
  | catchInterrupt (Create a) => withCfg t (setCreated (cfg t) a true)
  | direct (Delete a) => withCfg t (setCreated (cfg t) a false)
  | catchInterrupt createCluster => withCfg t (withStatus (cfg t) {| Up_ := true |})
  | direct deleteCluster => withCfg t (withStatus (cfg t) {| Up_ := false |})
  | _ => t
  end.

Definition respond (c : Call) (t : Tester Script) : option error * Tester Script :=
  match ext t c with
  | Some e => (Some e, t)
  | None => (None, effect c t)
  end.

Definition env : Env Script :=
  {| run := respond;
     commandOutput := fun _ => "ok"%string;
     quote := fun s => s;
     AMITypeAL2X8664GPU := "AL2_x86_64_GPU"%string;
     AMITypesAl2X8664Gpu := "AL2_x86_64_GPU"%string |}.

(** A configuration with the given enabled and created add-ons, a network of
    its own, no hooks and no compensation. *)
Definition config (enabled created : list AddOn) : Config :=
  {| Status := {| Up_ := false |};
     Enabled := fun a => existsb (AddOn_eqb a) enabled;
     Created := fun a => existsb (AddOn_eqb a) created;
     FetchLogsFlag := fun _ => false;
     ASGsAMITypes := [];
     MNGsAMITypes := [];
     OnFailureDelete := false;
     OnFailureDeleteWaitSeconds := 0%Z;
     VPCCreate := false;
     CommandAfterCreateCluster := EmptyString;
     CommandAfterCreateClusterTimeout := 0%Z;
     CommandAfterCreateClusterOutputPath := EmptyString;
     CommandAfterCreateAddOns := EmptyString;
     CommandAfterCreateAddOnsTimeout := 0%Z;
     CommandAfterCreateAddOnsOutputPath := EmptyString |}.

(** A tester over [c] whose handles are exactly those of [handles]. *)
Definition mkTester (c : Config) (handles : list AddOn) (script : Script)
  : Tester Script :=
  {| cfg := c;
     tester := fun a => existsb (AddOn_eqb a) handles;
     gpuTester := true;
     ext := script |}.

Definition noFailure : Script := fun _ => None.

(** Three add-ons up, and three steps of the teardown failing. *)
Definition threeFailures : Script :=
  fun c =>
    match c with
    | direct (Delete ALB2048) => Some "alb2048: delete failed"
    | direct deleteCluster => Some "cluster: delete failed"
    | direct deleteVPC => Some "vpc: dependency violation"
    | _ => None
    end%string.

(** [c] with compensation after a failed [Up] switched on. *)
Definition compensating (c : Config) (waitSeconds : Z) : Config :=
  {| Status := Status c;
     Enabled := Enabled c;
     Created := Created c;
     FetchLogsFlag := FetchLogsFlag c;
     ASGsAMITypes := ASGsAMITypes c;
     MNGsAMITypes := MNGsAMITypes c;
     OnFailureDelete := true;
     OnFailureDeleteWaitSeconds := waitSeconds;
     VPCCreate := VPCCreate c;
     CommandAfterCreateCluster := CommandAfterCreateCluster c;
     CommandAfterCreateClusterTimeout := CommandAfterCreateClusterTimeout c;
     CommandAfterCreateClusterOutputPath := CommandAfterCreateClusterOutputPath c;
     CommandAfterCreateAddOns := CommandAfterCreateAddOns c;
     CommandAfterCreateAddOnsTimeout := CommandAfterCreateAddOnsTimeout c;
     CommandAfterCreateAddOnsOutputPath := CommandAfterCreateAddOnsOutputPath c |}.

(** Node groups enabled with a handle, not yet created. *)
Definition nodeGroupsNotCreated : Tester Script :=
  mkTester (config [NodeGroups] []) [NodeGroups] noFailure.


(** Node groups and the echo jobs up; deleting the echo jobs fails. *)
Definition echoDeleteFails : Tester Script :=
  mkTester (config [NodeGroups; JobsEcho] [NodeGroups; JobsEcho])
           [NodeGroups; JobsEcho]
           (fun c =>
              match c with
              | direct (Delete JobsEcho) => Some "jobs-echo: delete failed"%string
              | _ => None
              end).

(** Node groups and the echo jobs up, nothing fails. *)
Definition echoUp : Tester Script :=
  mkTester (config [NodeGroups; JobsEcho] [NodeGroups; JobsEcho])
           [NodeGroups; JobsEcho] noFailure.

(** The ALB add-on up on an imported network, without node groups of the
    tool's own; its deletion fails. *)
Definition albDeleteFails : Tester Script :=
  mkTester (config [ALB2048] [ALB2048]) [ALB2048]
           (fun c =>
              match c with
              | direct (Delete ALB2048) => Some "alb2048: delete failed"%string
              | _ => None
              end).

(** The ALB add-on up, nothing fails. *)
Definition albUp : Tester Script :=
  mkTester (config [NodeGroups; ALB2048] [NodeGroups; ALB2048])
           [NodeGroups; ALB2048] noFailure.


(** Compensation on, and the network cannot be created. *)
Definition vpcFails : Tester Script :=
  mkTester (compensating (config [NodeGroups] []) 5) [NodeGroups]
           (fun c =>
              match c with
              | catchInterrupt createVPC => Some "vpc: limit exceeded"%string
              | direct deleteS3 => Some "s3: bucket not empty"%string
              | _ => None
              end).

(** A tester whose [cfg] is nil, and one that is up. *)
Definition withoutConfig : Tester0 Script :=
  {| cfg := None; tester := fun _ => false; gpuTester := false;
     ext := noFailure |}.

Definition up : Tester0 Script :=
  {| cfg := Some (withStatus (config [] []) (Some {| Up_ := true |}));
     tester := fun _ => false; gpuTester := false;
     ext := fun c =>
              match c with
              | direct checkHealth => Some "health: unreachable"%string
              | _ => None
              end |}.

Definition threeUp : Tester Script :=
  mkTester (config [NodeGroups; ALB2048; JobsEcho] [NodeGroups; ALB2048; JobsEcho])
           [NodeGroups; ALB2048; JobsEcho] threeFailures.

End Sim.

(** ** Further scenarios for the sagas *)

Module More.

(** Compensation off, and the network cannot be created. *)
Definition vpcFailsNoCleanup : Tester Sim.Script :=
  Sim.mkTester (Sim.config [NodeGroups] []) [NodeGroups]
    (fun c =>
       match c with
       | catchInterrupt createVPC => Some "vpc: limit exceeded"%string
       | _ => None
       end).




(** Nothing to tear down but the fixed infrastructure, and every deletion
    succeeds; only [cfg.Sync] fails. *)
Definition syncFails : Tester Sim.Script :=
  Sim.mkTester (Sim.config [] []) []
    (fun c =>
       match c with
       | direct Sync => Some "sync: disk full"%string
       | _ => None
       end).

(** Every handle set; the echo jobs are up and their deletion fails. *)
Definition allHandles : Tester Sim.Script :=
  {| cfg := Sim.config [NodeGroups; JobsEcho] [NodeGroups; JobsEcho];
     tester := fun _ => true;
     gpuTester := true;
     ext := fun c =>
              match c with
              | direct (Delete JobsEcho) => Some "jobs-echo: delete failed"%string
              | _ => None
              end |}.

(** Constructors that succeed, except that of the conformance tester. *)
Definition construct (s : SubTester) (t : Tester Sim.Script)
  : (bool * option error) * Tester Sim.Script :=
  match s with
  | sub Conformance => ((false, Some "conformance: no client"%string), t)
  | _ => ((true, None), t)
  end.

(** A tester as [New] has it before [createSubTesters]: no handle yet. *)
Definition fresh (enabled : list AddOn) : Tester Sim.Script :=
  {| cfg := Sim.config enabled [];
     tester := fun _ => false;
     gpuTester := false;
     ext := Sim.noFailure |}.

Definition download (a : AddOn) (artifactDir : string)
    (t : Tester Sim.Script) : option error * Tester Sim.Script :=
  (None, t).


End More.

(** ** A scripted outside for the eksctl deployer *)

Module EksctlSim.
Import Eksctl.

(** The outside state is the script: what each [eksctl] invocation
    answers, by its arguments. *)
Definition World : Type := list string -> option error.

Definition sys : Sys World :=
  {| DetectKubernetesVersion := fun w => (("v1.29.3"%string, None), w);
     ParseMinorVersion := fun _ w => (("1.29"%string, None), w);
     CreateTemp := fun _ pattern w =>
       ((("/tmp/" ++ pattern ++ "123")%string, None), w);
     Write := fun _ _ w => (None, w);
     Close := fun _ w => w;
     ExecuteCommand := fun _ args w => (w args, w);
     MkdirAll := fun _ w => (None, w);
     DescribeCluster := fun _ w => (("ACTIVE"%string, None), w);
     Dir := fun p => if String.eqb p "/run/kubeconfig" then "/run"%string
                     else "."%string;
     Join := fun a b => (a ++ "/" ++ b)%string;
     ClusterStatusActive := "ACTIVE";
     ClusterStatusCreating := "CREATING" |}.

Definition allGood : World := fun _ => None.

Definition createFails : World :=
  fun args =>
    match args with
    | "create"%string :: _ => Some "exit status 1"%string
    | _ => None
    end.

Definition flags : UpOptions :=
  {| Region := "us-west-2"; KubernetesVersion := "1.29"; Nodes := 3;
     AMI := ""; InstanceTypes := ["m5.large"%string]; ConfigFile := "";
     AvailabilityZones := []; AMIFamily := ""; EFAEnabled := false;
     VolumeSize := 0; PrivateNetworking := false; WithOIDC := false;
     SkipClusterCreation := false; ClusterName := "";
     UseUnmanagedNodegroup := false; NodegroupName := "" |}.

(** Bottlerocket with a custom AMI and no instance type. *)
Definition bottlerocketFlags : UpOptions :=
  {| Region := "us-west-2"; KubernetesVersion := "1.29"; Nodes := 3;
     AMI := "ami-0123456789"; InstanceTypes := []; ConfigFile := "";
     AvailabilityZones := []; AMIFamily := "Bottlerocket";
     EFAEnabled := false;
     VolumeSize := 0; PrivateNetworking := false; WithOIDC := false;
     SkipClusterCreation := false; ClusterName := "";
     UseUnmanagedNodegroup := false; NodegroupName := "" |}.

Definition deployerOf (o : UpOptions) : deployer :=
  {| RunID := "run-1"; RunDir := "/run"; options := o;
     awsRegion := "us-west-2"; KubeconfigPath := ""; clusterName := "" |}.

End EksctlSim.

(** * Properties *)

Unset Implicit Arguments.

Lemma AddOn_eqb_eq a b : AddOn_eqb a b = true <-> a = b.
Proof.
  unfold AddOn_eqb. destruct (AddOn_eq_dec a b); split; congruence.
Qed.

Lemma AddOn_eqb_neq a b : AddOn_eqb a b = false <-> a <> b.
Proof.
  unfold AddOn_eqb. destruct (AddOn_eq_dec a b); split; congruence.
Qed.

Lemma AddOn_eqb_refl a : AddOn_eqb a a = true.
Proof. apply AddOn_eqb_eq. reflexivity. Qed.

(** ** What is read off a list of events *)

(** The messages of the calls that returned an error, in order. *)
Definition failed (evs : list Event) : list string :=
  flat_map (fun e => match e with Ev _ (Some m) => [m] | _ => [] end) evs.

Definition isInfraDelete (o : Op) : bool :=
  match o with
  | deleteKeyPair | deleteCluster | deleteEncryption
  | deleteClusterRole | deleteVPC | deleteS3 => true
  | _ => false
  end.

(** The fixed infrastructure deletions that were attempted, in order. *)
Definition infraDeletions (evs : list Event) : list Op :=
  flat_map (fun e => match e with
                     | Ev (direct o) _ => if isInfraDelete o then [o] else []
                     | _ => []
                     end) evs.

(** The events of the calls made through [catchInterrupt]. *)
Definition gatedEvents (evs : list Event) : list Event :=
  filter (fun e => match e with Ev (catchInterrupt _) _ => true | _ => false end) evs.

(** How often [Delete] of [a] was invoked. *)
Definition deletions (a : AddOn) (evs : list Event) : nat :=
  List.length (filter (fun e => match e with
                                | Ev (direct (Delete b)) _ => AddOn_eqb a b
                                | _ => false
                                end) evs).

Definition deleteInvoked (a : AddOn) (evs : list Event) : Prop :=
  exists r, In (Ev (direct (Delete a)) r) evs.

(** [m] occurs in [s]. *)
Definition contains (s m : string) : Prop :=
  exists p q, s = (p ++ m ++ q)%string.

Lemma failed_app e1 e2 : failed (e1 ++ e2) = failed e1 ++ failed e2.
Proof. apply flat_map_app. Qed.

Lemma infraDeletions_app e1 e2 :
  infraDeletions (e1 ++ e2) = infraDeletions e1 ++ infraDeletions e2.
Proof. apply flat_map_app. Qed.

Lemma gatedEvents_app e1 e2 :
  gatedEvents (e1 ++ e2) = gatedEvents e1 ++ gatedEvents e2.
Proof. apply filter_app. Qed.

Lemma string_app_assoc (a b c : string) :
  ((a ++ b) ++ c = a ++ (b ++ c))%string.
Proof. induction a; simpl; congruence. Qed.

Lemma string_app_nil_r (a : string) : (a ++ "")%string = a.
Proof. induction a; simpl; congruence. Qed.

Lemma contains_Join (l : list string) (sep m : string) :
  In m l -> contains (Join l sep) m.
Proof.
  induction l as [|e rest IH]; intros Hin; [destruct Hin|].
  destruct Hin as [->|Hin].
  - destruct rest as [|e' rest'].
    + exists EmptyString, EmptyString. simpl.
      symmetry. apply string_app_nil_r.
    + exists EmptyString, (sep ++ Join (e' :: rest') sep)%string.
      reflexivity.
  - destruct rest as [|e' rest']; [destruct Hin|].
    destruct (IH Hin) as (p & q & Hpq).
    exists (e ++ sep ++ p)%string, q.
    change (Join (e :: e' :: rest') sep)
      with (e ++ sep ++ Join (e' :: rest') sep)%string.
    rewrite Hpq, !string_app_assoc. reflexivity.
Qed.

Section Facts.

Variable W : Type.
Variable env : Env W.

(** ** The monad, pointwise *)

Lemma bind_Ret {A B} (m : M W A) (f : A -> M W B) t a :
  outcome (m t) = Ret a ->
  (m >>= f) t =
  mkResult (outcome (f a (final (m t)))) (final (f a (final (m t))))
           (events (m t) ++ events (f a (final (m t)))).
Proof.
  unfold bind. destruct (m t) as [o t1 e1]. simpl. intros ->.
  destruct (f a t1); reflexivity.
Qed.

Arguments bind_Ret {A B} m f t {a} _.

Lemma bind_Panic {A B} (m : M W A) (f : A -> M W B) t :
  outcome (m t) = Panic ->
  (m >>= f) t = mkResult Panic (final (m t)) (events (m t)).
Proof.
  unfold bind. destruct (m t) as [o t1 e1]. simpl. intros ->. reflexivity.
Qed.

Lemma bind_ret_l {A B} (a : A) (f : A -> M W B) t :
  (ret a >>= f) t = f a t.
Proof. unfold bind, ret. destruct (f a t); reflexivity. Qed.

Lemma bind_assoc {A B C} (m : M W A) (f : A -> M W B) (g : B -> M W C) t :
  ((m >>= f) >>= g) t = (m >>= (fun a => f a >>= g)) t.
Proof.
  unfold bind.
  destruct (m t) as [[a|] t1 e1]; [|reflexivity].
  destruct (f a t1) as [[b|] t2 e2]; [|reflexivity].
  destruct (g b t2). rewrite app_assoc. reflexivity.
Qed.

Lemma bind_ext {A B} (m : M W A) (f g : A -> M W B) t :
  (forall a t', f a t' = g a t') -> (m >>= f) t = (m >>= g) t.
Proof.
  intros H. unfold bind. destruct (m t) as [[a|] t1 e1]; rewrite ?H; reflexivity.
Qed.

(** ** [down]: the sweep as a right-nested run over [down_steps] *)

Fixpoint runStepsR (l : list DownStep) (errs : list string) : M W (list string) :=
  match l with
  | [] => ret errs
  | s :: l' => downStep env s errs >>= runStepsR l'
  end.

Lemma fold_steps_R l : forall (m : M W (list string)) t,
  fold_left (fun m s => m >>= downStep env s) l m t = (m >>= runStepsR l) t.
Proof.
  induction l as [|s l IH]; intros m t; cbn [fold_left runStepsR].
  - unfold bind. destruct (m t) as [[a|] t1 e1]; simpl;
      rewrite ?app_nil_r; reflexivity.
  - rewrite IH. apply bind_assoc.
Qed.

Lemma runSteps_R l errs t : runSteps env l errs t = runStepsR l errs t.
Proof. unfold runSteps. rewrite fold_steps_R. apply bind_ret_l. Qed.

Lemma down_sweep_steps : down_sweep env = runSteps env down_steps [].
Proof.
  unfold down_sweep, runSteps, down_steps.
  cbn [fold_left downStep]. reflexivity.
Qed.

Lemma runStepsR_app l1 l2 errs t :
  runStepsR (l1 ++ l2) errs t = (runStepsR l1 errs >>= runStepsR l2) t.
Proof.
  revert errs t. induction l1 as [|s l1 IH]; intros errs t;
    cbn [runStepsR app].
  - symmetry. apply bind_ret_l.
  - rewrite bind_assoc. apply bind_ext. intros a t'. apply IH.
Qed.

(** ** One block at a time *)

Ltac unfold_step :=
  unfold downStep, deleteInfra, deleteAddOn, waitLoadBalancers,
         deleteNodeGroup, waitVPC, appendErr,
         bind, gets, call, sleep, ret, panic;
  cbv zeta; simpl.

Ltac split_step :=
  repeat match goal with
  | |- context [run env ?c ?t] =>
      let r := fresh "r" in
      let t' := fresh "t'" in
      destruct (run env c t) as [r t'] eqn:?; simpl
  | |- context [if ?b then _ else _] => destruct b eqn:?; simpl
  | |- context [match ?x with Some _ => _ | None => _ end] =>
      destruct x eqn:?; simpl
  end.

(** What a block adds to [errs] is the messages of its failed calls. *)
Lemma downStep_errs s errs t errs' :
  outcome (downStep env s errs t) = Ret errs' ->
  errs' = errs ++ failed (events (downStep env s errs t)).
Proof.
  destruct s; unfold_step; split_step; intros H;
    inversion H; subst; rewrite ?app_nil_r; reflexivity.
Qed.

(** No block looks at the errors collected so far. *)
Lemma downStep_ignores_errs s errs t :
  events (downStep env s errs t) = events (downStep env s [] t)
  /\ final (downStep env s errs t) = final (downStep env s [] t).
Proof.
  destruct s; unfold_step; split_step; split; reflexivity.
Qed.

Definition infraOf (s : DownStep) : list Op :=
  match s with
  | StepInfra o => if isInfraDelete o then [o] else []
  | _ => []
  end.

(** A block that is not left by a panic has made its infrastructure call. *)
Lemma downStep_infra s errs t errs' :
  outcome (downStep env s errs t) = Ret errs' ->
  infraDeletions (events (downStep env s errs t)) = infraOf s.
Proof.
  destruct s; unfold_step; split_step; intros H;
    try discriminate; try reflexivity.
  all: unfold infraDeletions; simpl; rewrite ?app_nil_r; reflexivity.
Qed.

Lemma runStepsR_errs l : forall errs t errs',
  outcome (runStepsR l errs t) = Ret errs' ->
  errs' = errs ++ failed (events (runStepsR l errs t)).
Proof.
  induction l as [|s l IH]; intros errs t errs' H; cbn [runStepsR] in *.
  - inversion H. rewrite app_nil_r. reflexivity.
  - destruct (outcome (downStep env s errs t)) as [e1|] eqn:Hs.
    + rewrite (bind_Ret _ _ _ Hs) in *. cbn [outcome events final] in *.
      apply IH in H. apply downStep_errs in Hs.
      rewrite failed_app, app_assoc, <- Hs. exact H.
    + rewrite (bind_Panic _ _ _ Hs) in H. discriminate.
Qed.

Lemma runStepsR_infra l : forall errs t errs',
  outcome (runStepsR l errs t) = Ret errs' ->
  infraDeletions (events (runStepsR l errs t)) = flat_map infraOf l.
Proof.
  induction l as [|s l IH]; intros errs t errs' H; cbn [runStepsR] in *.
  - reflexivity.
  - destruct (outcome (downStep env s errs t)) as [e1|] eqn:Hs.
    + rewrite (bind_Ret _ _ _ Hs) in *. cbn [outcome events final] in *.
      rewrite infraDeletions_app. cbn [flat_map]. f_equal.
      * eapply downStep_infra; eauto.
      * eapply IH; eauto.
    + rewrite (bind_Panic _ _ _ Hs) in H. discriminate.
Qed.




(** ** The shape of [down] *)

Lemma bind_ext_l {A B} (m m' : M W A) (f : A -> M W B) t :
  m t = m' t -> (m >>= f) t = (m' >>= f) t.
Proof. intros H. unfold bind. rewrite H. reflexivity. Qed.

Lemma down_body_steps t :
  down_body env t = (runStepsR down_steps [] >>= down_finish env) t.
Proof.
  unfold down_body. apply bind_ext_l.
  rewrite down_sweep_steps. apply runSteps_R.
Qed.

Lemma down_eq t :
  down env t =
  let u := run env (direct uploadToS3) t in
  let b := down_body env (snd u) in
  let s := run env (direct Sync) (final b) in
  mkResult (outcome b) (snd s)
           (Banner "DOWN START" :: Ev (direct uploadToS3) (fst u)
              :: events b ++ [Ev (direct Sync) (fst s)]).
Proof.
  unfold down. generalize (down_body env). intros body.
  unfold defer, down_deferred, bind, banner, call, ret. cbv zeta. simpl.
  destruct (body _) as [o t1 e1]. reflexivity.
Qed.


Definition fixedDeletions : list Op :=
  [deleteKeyPair; deleteCluster; deleteEncryption; deleteClusterRole;
   deleteVPC; deleteS3].




Lemma runStepsR_tail errs t :
  events (runStepsR [StepVPC; StepInfra deleteVPC; StepInfra deleteS3] errs t)
  = (if VPCCreate (cfg t) then [Slept (30 * Second)%Z] else [])
    ++ [Ev (direct deleteVPC) (fst (run env (direct deleteVPC) t));
        Ev (direct deleteS3)
           (fst (run env (direct deleteS3)
                     (snd (run env (direct deleteVPC) t))))].
Proof.
  cbn [runStepsR]. unfold_step. destruct (VPCCreate (cfg t)); reflexivity.
Qed.

(** ** Invariants and event filters through a computation

    [respects I Q m]: [m] keeps the invariant [I] of the tester and emits
    only events satisfying [Q]. *)

Definition respects (I : Tester W -> Prop) (Q : Event -> Prop) {A}
    (m : M W A) : Prop :=
  forall t, I t -> I (final (m t)) /\ Forall Q (events (m t)).

Section Respects.

Variable I : Tester W -> Prop.
Variable Q : Event -> Prop.

Lemma respects_ret {A} (a : A) : respects I Q (ret a).
Proof. intros t Ht. split; [exact Ht|constructor]. Qed.

Lemma respects_panic {A} : respects I Q (@panic W A).
Proof. intros t Ht. split; [exact Ht|constructor]. Qed.

Lemma respects_gets {A} (f : Tester W -> A) : respects I Q (gets f).
Proof. intros t Ht. split; [exact Ht|constructor]. Qed.

Lemma respects_sleep d : Q (Slept d) -> respects I Q (@sleep W d).
Proof. intros Hq t Ht. split; [exact Ht|repeat constructor; exact Hq]. Qed.

Lemma respects_banner b : Q (Banner b) -> respects I Q (@banner W b).
Proof. intros Hq t Ht. split; [exact Ht|repeat constructor; exact Hq]. Qed.

Lemma respects_call c :
  (forall t, I t -> I (snd (run env c t))) ->
  (forall r, Q (Ev c r)) ->
  respects I Q (call env c).
Proof.
  intros Hi Hq t Ht. split; [apply Hi, Ht|repeat constructor; apply Hq].
Qed.

Lemma respects_bind {A B} (m : M W A) (f : A -> M W B) :
  respects I Q m -> (forall a, respects I Q (f a)) -> respects I Q (m >>= f).
Proof.
  intros Hm Hf t Ht. specialize (Hm t Ht). unfold bind.
  destruct (m t) as [[a|] t1 e1]; simpl in *; [|exact Hm].
  destruct Hm as [Ht1 He1]. specialize (Hf a t1 Ht1).
  destruct (f a t1) as [o t2 e2]; simpl in *.
  destruct Hf as [Ht2 He2]. split; [exact Ht2|].
  apply Forall_app. split; assumption.
Qed.

Lemma respects_orReturn (m k : M W (option error)) :
  respects I Q m -> respects I Q k -> respects I Q (m >>! k).
Proof.
  intros Hm Hk. unfold orReturn. apply respects_bind; [exact Hm|].
  intros [e|]; [apply respects_ret|exact Hk].
Qed.

Lemma respects_defer {A} (body : M W A) (d : Outcome A -> M W unit) :
  respects I Q body -> (forall o, respects I Q (d o)) ->
  respects I Q (defer body d).
Proof.
  intros Hm Hd t Ht. specialize (Hm t Ht). unfold defer.
  destruct (body t) as [o t1 e1]; simpl in *.
  destruct Hm as [Ht1 He1]. specialize (Hd o t1 Ht1).
  destruct (d o t1) as [[u|] t2 e2]; simpl in *;
    destruct Hd as [Ht2 He2]; (split; [exact Ht2|]);
    apply Forall_app; split; assumption.
Qed.

Ltac respects_tac :=
  repeat first
    [ apply respects_ret
    | apply respects_panic
    | apply respects_gets
    | apply respects_bind; [|intros ?]
    | apply respects_orReturn
    | match goal with
      | |- respects _ _ (if ?b then _ else _) => destruct b
      | |- respects _ _ (match ?x with Some _ => _ | None => _ end) =>
          destruct x
      end ].

(** The operations a block of [down] may call. *)
Definition callsOf (s : DownStep) : list Op :=
  match s with
  | StepInfra o => [o]
  | StepAddOn _ callee _ => [Delete callee]
  | StepNodeGroup a => [Delete a]
  | StepLoadBalancers | StepVPC => []
  end.

Definition callOk (o : Op) : Prop :=
  (forall t, I t -> I (snd (run env (direct o) t)))
  /\ (forall r, Q (Ev (direct o) r)).

Hypothesis sleepOk : forall d, Q (Slept d).

Lemma downStep_respects s errs :
  Forall callOk (callsOf s) -> respects I Q (downStep env s errs).
Proof.
  intros Hc.
  destruct s; cbn [callsOf] in Hc;
    unfold downStep, deleteInfra, deleteAddOn, waitLoadBalancers,
           deleteNodeGroup, waitVPC;
    respects_tac;
    try (apply respects_sleep, sleepOk);
    apply respects_call; inversion Hc as [|? ? [H1 H2]]; assumption.
Qed.

Lemma runStepsR_respects l : forall errs,
  Forall callOk (flat_map callsOf l) -> respects I Q (runStepsR l errs).
Proof.
  induction l as [|s l IH]; intros errs Hc; cbn [runStepsR flat_map] in *.
  - apply respects_ret.
  - apply Forall_app in Hc. destruct Hc as [Hs Hl].
    apply respects_bind; [apply downStep_respects, Hs|].
    intros e. apply IH, Hl.
Qed.

Lemma down_finish_respects errs :
  callOk Sync -> respects I Q (down_finish env errs).
Proof.
  intros [H1 H2]. unfold down_finish.
  destruct (0 <? List.length errs)%nat;
    [apply respects_ret|apply respects_call; assumption].
Qed.

End Respects.

Lemma respects_ext I Q {A} (m m' : M W A) :
  (forall t, m t = m' t) -> respects I Q m' -> respects I Q m.
Proof. intros E H t Ht. rewrite E. apply H, Ht. Qed.

Lemma down_respects_sweep I Q :
  Q (Banner "DOWN START") ->
  callOk I Q uploadToS3 -> callOk I Q Sync ->
  (forall errs, respects I Q (runStepsR down_steps errs)) ->
  respects I Q (down env).
Proof.
  intros Hb [Hu1 Hu2] [Hy1 Hy2] Hsweep.
  unfold down. apply respects_bind; [apply respects_banner, Hb|intros _].
  apply respects_bind; [apply respects_call; assumption|intros _].
  apply respects_defer.
  - eapply respects_ext; [apply down_body_steps|].
    apply respects_bind; [apply Hsweep|].
    intros errs. apply down_finish_respects. split; assumption.
  - intros o. unfold down_deferred.
    apply respects_bind; [apply respects_call; assumption|intros _].
    apply respects_ret.
Qed.

(** Everything [down] may call. *)
Definition downCalls : list Op :=
  uploadToS3 :: Sync :: flat_map callsOf down_steps.

Lemma down_respects I Q :
  (forall d, Q (Slept d)) ->
  Q (Banner "DOWN START") ->
  Forall (callOk I Q) downCalls ->
  respects I Q (down env).
Proof.
  intros Hs Hb Hc. unfold downCalls in Hc.
  inversion Hc as [|? ? Hu Hc']; subst.
  inversion Hc' as [|? ? Hy Hl]; subst.
  apply down_respects_sweep; try assumption.
  intros errs. apply runStepsR_respects; assumption.
Qed.

(** ** Which block deletes which add-on *)

Definition isDeleteOf (a : AddOn) (e : Event) : bool :=
  match e with
  | Ev (direct (Delete b)) _ => AddOn_eqb a b
  | _ => false
  end.

Lemma deletions_eq a evs :
  deletions a evs = List.length (filter (isDeleteOf a) evs).
Proof. reflexivity. Qed.

Lemma deletions_app a e1 e2 :
  deletions a (e1 ++ e2) = deletions a e1 + deletions a e2.
Proof. unfold deletions. rewrite filter_app, length_app. reflexivity. Qed.

Lemma deletions_quiet a evs :
  Forall (fun e => isDeleteOf a e = false) evs -> deletions a evs = 0.
Proof.
  rewrite deletions_eq. induction 1 as [|e evs He _ IH]; simpl.
  - reflexivity.
  - rewrite He. exact IH.
Qed.

Lemma deletions_invoked a evs :
  deleteInvoked a evs <-> 0 < deletions a evs.
Proof.
  rewrite deletions_eq. split.
  - intros [r Hin]. induction evs as [|e evs IH]; [destruct Hin|].
    simpl. destruct Hin as [->|Hin].
    + simpl. rewrite AddOn_eqb_refl. simpl. lia.
    + destruct (isDeleteOf a e); simpl; [lia|auto].
  - induction evs as [|e evs IH]; simpl; [lia|].
    destruct (isDeleteOf a e) eqn:He.
    + intros _. destruct e as [[[]|] r| | |]; try discriminate He.
      simpl in He. apply AddOn_eqb_eq in He. subst a0.
      exists r. left. reflexivity.
    + intros H. destruct (IH H) as [r Hr]. exists r. right. exact Hr.
Qed.

(** [Delete] of [a] is not among the calls of the block. *)
Definition quiet (a : AddOn) (s : DownStep) : bool :=
  match s with
  | StepAddOn _ callee _ => negb (AddOn_eqb a callee)
  | StepNodeGroup b => negb (AddOn_eqb a b)
  | StepInfra (Delete b) => negb (AddOn_eqb a b)
  | _ => true
  end.

(** The first block that calls [Delete] of [a], with the blocks before and
    after it. *)
Fixpoint splitBlock (a : AddOn) (l : list DownStep)
  : option (list DownStep * DownStep * list DownStep) :=
  match l with
  | [] => None
  | s :: l' =>
      if quiet a s then
        match splitBlock a l' with
        | Some (p, b, q) => Some (s :: p, b, q)
        | None => None
        end
      else Some ([], s, l')
  end.

(** The collaborators leave the flags and the handle of an add-on alone,
    except in that add-on's own [Delete]. *)
Definition flagsOf (t : Tester W) (a : AddOn) : bool * bool * bool :=
  (Enabled (cfg t) a, Created (cfg t) a, tester t a).

Definition frame : Prop :=
  forall o t a, o <> Delete a ->
    flagsOf (snd (run env (direct o) t)) a = flagsOf t a.

Lemma callOk_frame a v o :
  frame -> o <> Delete a ->
  callOk (fun t => flagsOf t a = v) (fun e => isDeleteOf a e = false) o.
Proof.
  intros Hf Ho. split.
  - intros t Ht. rewrite (Hf o t a Ho). exact Ht.
  - intros r. destruct o; try reflexivity.
    simpl. apply AddOn_eqb_neq. congruence.
Qed.

Lemma quiet_calls a s :
  quiet a s = true -> Forall (fun o => o <> Delete a) (callsOf s).
Proof.
  destruct s as [o|g c w| |b|]; simpl; intros H; repeat constructor.
  - destruct o; try discriminate. intros E. injection E as ->.
    rewrite AddOn_eqb_refl in H. discriminate.
  - intros E. injection E as ->. rewrite AddOn_eqb_refl in H. discriminate.
  - intros E. injection E as ->. rewrite AddOn_eqb_refl in H. discriminate.
Qed.

Lemma quiet_steps_calls a l :
  forallb (quiet a) l = true ->
  Forall (fun o => o <> Delete a) (flat_map callsOf l).
Proof.
  induction l as [|s l IH]; simpl; intros H; [constructor|].
  apply andb_prop in H. destruct H as [Hs Hl].
  apply Forall_app. split; [apply quiet_calls, Hs|apply IH, Hl].
Qed.

(** Blocks that do not call [Delete] of [a] neither emit it nor, under
    [frame], change what the guard of [a] reads. *)
Lemma quiet_steps_respect a l v errs :
  frame -> forallb (quiet a) l = true ->
  respects (fun t => flagsOf t a = v) (fun e => isDeleteOf a e = false)
           (runStepsR l errs).
Proof.
  intros Hf Hq. apply runStepsR_respects; [reflexivity|].
  eapply Forall_impl; [|apply quiet_steps_calls, Hq].
  intros o Ho. apply callOk_frame; assumption.
Qed.

(** The block of an add-on guarded by [Enabled && Created]. *)
Lemma own_block a w errs t errs' :
  outcome (deleteAddOn env a a w errs t) = Ret errs' ->
  deletions a (events (deleteAddOn env a a w errs t))
  = if Enabled (cfg t) a && Created (cfg t) a then 1 else 0.
Proof.
  unfold deletions. unfold_step. split_step; intros H;
    try discriminate H;
    try match goal with
        | E : AddOn_eqb ?x ?x = false |- _ =>
            rewrite AddOn_eqb_refl in E; discriminate E
        end;
    reflexivity.
Qed.

(** The block of a node group, guarded by [Enabled] and the handle. *)
Lemma node_group_block a errs t :
  deletions a (events (deleteNodeGroup env a errs t))
  = if Enabled (cfg t) a && tester t a then 1 else 0.
Proof.
  unfold deletions. unfold_step. split_step;
    try match goal with
        | E : AddOn_eqb ?x ?x = false |- _ =>
            rewrite AddOn_eqb_refl in E; discriminate E
        end;
    reflexivity.
Qed.

(** A sweep in which exactly one block calls [Delete] of [a]: the number of
    invocations is decided by that block, on the flags the sweep began
    with. *)
Lemma sweep_deletions a pre b post errs t errs' :
  frame ->
  forallb (quiet a) pre = true -> forallb (quiet a) post = true ->
  outcome (runStepsR (pre ++ b :: post) errs t) = Ret errs' ->
  forall expected : Tester W -> nat,
    (forall e t1 e1, flagsOf t1 a = flagsOf t a ->
       outcome (downStep env b e t1) = Ret e1 ->
       deletions a (events (downStep env b e t1)) = expected t) ->
    deletions a (events (runStepsR (pre ++ b :: post) errs t)) = expected t.
Proof.
  intros Hf Hpre Hpost H expected Hb.
  rewrite runStepsR_app in *.
  destruct (outcome (runStepsR pre errs t)) as [e1|] eqn:H1;
    [|rewrite (bind_Panic _ _ _ H1) in H; discriminate].
  rewrite (bind_Ret _ _ _ H1) in *. cbn [outcome events] in *.
  destruct (quiet_steps_respect a pre (flagsOf t a) errs Hf Hpre t eq_refl)
    as [Hflags Hq1].
  set (t1 := final (runStepsR pre errs t)) in *.
  cbn [runStepsR] in *.
  destruct (outcome (downStep env b e1 t1)) as [e2|] eqn:H2;
    [|rewrite (bind_Panic _ _ _ H2) in H; discriminate].
  rewrite (bind_Ret _ _ _ H2) in *. cbn [outcome events] in *.
  set (t2 := final (downStep env b e1 t1)) in *.
  destruct (quiet_steps_respect a post (flagsOf t2 a) e2 Hf Hpost t2 eq_refl)
    as [_ Hq2].
  rewrite !deletions_app, (deletions_quiet _ _ Hq1), (deletions_quiet _ _ Hq2).
  rewrite (Hb e1 t1 e2 Hflags H2). lia.
Qed.

Lemma down_finish_quiet a errs t :
  deletions a (events (down_finish env errs t)) = 0.
Proof.
  unfold down_finish. destruct (0 <? List.length errs)%nat; reflexivity.
Qed.

(** The same for the whole of [down]. *)
Lemma down_deletions a pre b post t r (expected : nat) :
  frame ->
  down_steps = pre ++ b :: post ->
  forallb (quiet a) pre = true -> forallb (quiet a) post = true ->
  outcome (down env t) = Ret r ->
  (forall e t1 e1, flagsOf t1 a = flagsOf t a ->
     outcome (downStep env b e t1) = Ret e1 ->
     deletions a (events (downStep env b e t1)) = expected) ->
  deletions a (events (down env t)) = expected.
Proof.
  intros Hf Hsplit Hpre Hpost H Hb.
  rewrite down_eq in *. cbv zeta in *. cbn [outcome events] in *.
  assert (Hu : flagsOf (snd (run env (direct uploadToS3) t)) a = flagsOf t a)
    by (apply Hf; discriminate).
  set (t0 := snd (run env (direct uploadToS3) t)) in *.
  change (Banner "DOWN START" :: Ev (direct uploadToS3) (fst (run env (direct uploadToS3) t))
            :: events (down_body env t0)
               ++ [Ev (direct Sync) (fst (run env (direct Sync) (final (down_body env t0))))])
    with ([Banner "DOWN START"; Ev (direct uploadToS3) (fst (run env (direct uploadToS3) t))]
            ++ events (down_body env t0)
               ++ [Ev (direct Sync) (fst (run env (direct Sync) (final (down_body env t0))))]).
  rewrite !deletions_app.
  change (deletions a [Banner "DOWN START"; Ev (direct uploadToS3) (fst (run env (direct uploadToS3) t))]) with 0.
  change (deletions a [Ev (direct Sync) (fst (run env (direct Sync) (final (down_body env t0))))]) with 0.
  rewrite down_body_steps in *. rewrite Hsplit in *.
  destruct (outcome (runStepsR (pre ++ b :: post) [] t0)) as [errs|] eqn:Hs;
    [|rewrite (bind_Panic _ _ _ Hs) in H; discriminate].
  rewrite (bind_Ret _ _ _ Hs). cbn [events].
  rewrite deletions_app, down_finish_quiet.
  rewrite (sweep_deletions a pre b post [] t0 errs Hf Hpre Hpost Hs
             (fun _ => expected)).
  - lia.
  - intros e t1 e1 Ht1. apply Hb. congruence.
Qed.

Definition deletedWhenCreated (a : AddOn) : Prop :=
  ~ In a [NodeGroups; ManagedNodeGroups; ClusterLoaderLocal;
          ClusterLoaderRemote; ConfigMapsRemote; CSRsLocal].

Ltac split_down_steps a :=
  let x := eval vm_compute in (splitBlock a down_steps) in
  match x with
  | Some (?p, ?b, ?q) => exists p, b, q
  end.

(** Each add-on that is deleted when created has one block of the sweep to
    itself, guarded by its own flags. *)
Lemma deletedWhenCreated_block a :
  deletedWhenCreated a ->
  exists pre b post,
    down_steps = pre ++ b :: post
    /\ forallb (quiet a) pre = true /\ forallb (quiet a) post = true
    /\ exists w, b = StepAddOn a a w.
Proof.
  intros Ha.
  destruct a;
    try (exfalso; apply Ha; simpl; tauto);
    match goal with
    | |- exists pre b post, _ /\ forallb (quiet ?a) _ = _ /\ _ =>
        split_down_steps a
    end;
    (split; [reflexivity|split; [reflexivity|split; [reflexivity|]]]);
    eexists; reflexivity.
Qed.

Lemma nodeGroup_block a :
  In a [NodeGroups; ManagedNodeGroups] ->
  exists pre post,
    down_steps = pre ++ StepNodeGroup a :: post
    /\ forallb (quiet a) pre = true /\ forallb (quiet a) post = true.
Proof.
  intros [<-|[<-|[]]].
  - exists (firstn 29 down_steps), (skipn 30 down_steps).
    repeat split; reflexivity.
  - exists (firstn 28 down_steps), (skipn 29 down_steps).
    repeat split; reflexivity.
Qed.

(** ** [down] cut at one block *)

Lemma down_split pre b post t r :
  down_steps = pre ++ b :: post ->
  outcome (down env t) = Ret r ->
  exists u t0 e1 e2 e3 s,
    t0 = snd (run env (direct uploadToS3) t)
    /\ outcome (runStepsR pre [] t0) = Ret e1
    /\ outcome (downStep env b e1 (final (runStepsR pre [] t0))) = Ret e2
    /\ outcome (runStepsR post e2
                  (final (downStep env b e1 (final (runStepsR pre [] t0)))))
       = Ret e3
    /\ events (down env t)
       = [Banner "DOWN START"; Ev (direct uploadToS3) u]
         ++ events (runStepsR pre [] t0)
         ++ events (downStep env b e1 (final (runStepsR pre [] t0)))
         ++ events (runStepsR post e2
                      (final (downStep env b e1 (final (runStepsR pre [] t0)))))
         ++ events (down_finish env e3
                      (final (runStepsR post e2
                         (final (downStep env b e1
                            (final (runStepsR pre [] t0)))))))
         ++ [Ev (direct Sync) s].
Proof.
  intros Hsplit H.
  rewrite down_eq in *. cbv zeta in *. cbn [outcome events] in *.
  set (t0 := snd (run env (direct uploadToS3) t)) in *.
  rewrite down_body_steps in *. rewrite Hsplit in *.
  destruct (outcome (runStepsR (pre ++ b :: post) [] t0)) as [errs|] eqn:Hs;
    [|rewrite (bind_Panic _ _ _ Hs) in H; discriminate].
  rewrite (bind_Ret _ _ _ Hs). cbn [events final].
  rewrite runStepsR_app in *.
  destruct (outcome (runStepsR pre [] t0)) as [e1|] eqn:H1;
    [|rewrite (bind_Panic _ _ _ H1) in Hs; discriminate].
  rewrite (bind_Ret _ _ _ H1) in *. cbn [outcome events final] in *.
  cbn [runStepsR] in *.
  destruct (outcome (downStep env b e1 (final (runStepsR pre [] t0))))
    as [e2|] eqn:H2;
    [|rewrite (bind_Panic _ _ _ H2) in Hs; discriminate].
  rewrite (bind_Ret _ _ _ H2) in *. cbn [outcome events final] in *.
  eexists _, t0, e1, e2, errs, _.
  split; [reflexivity|]. split; [exact H1|]. split; [exact H2|].
  split; [exact Hs|].
  cbn [app]. rewrite <- !app_assoc. reflexivity.
Qed.

Lemma infraDeletions_In o evs :
  In o (infraDeletions evs) ->
  exists e1 r e2, evs = e1 ++ Ev (direct o) r :: e2.
Proof.
  induction evs as [|e evs IH]; [intros []|].
  change (e :: evs) with ([e] ++ evs) at 1. rewrite infraDeletions_app.
  intros Hin. apply in_app_or in Hin. destruct Hin as [Hin|Hin].
  - destruct e as [[o'|o'] r| | |]; try destruct Hin.
    unfold infraDeletions in Hin. cbn [flat_map app] in Hin.
    destruct (isInfraDelete o'); [|destruct Hin].
    destruct Hin as [->|[]]. exists [], r, evs. reflexivity.
  - destruct (IH Hin) as (e1 & r & e2 & ->).
    exists (e :: e1), r, e2. reflexivity.
Qed.

Lemma infraDeletions_not_In o evs r :
  isInfraDelete o = true ->
  ~ In o (infraDeletions evs) -> ~ In (Ev (direct o) r) evs.
Proof.
  intros Ho Hn Hin. apply Hn. apply in_split in Hin.
  destruct Hin as (e1 & e2 & ->).
  rewrite infraDeletions_app. apply in_or_app. right.
  unfold infraDeletions. cbn [flat_map]. rewrite Ho. left. reflexivity.
Qed.

(** Blocks that do not call [Delete] of [a] do not emit it, whatever the
    collaborators do. *)
Lemma quiet_steps_silent a l errs t :
  forallb (quiet a) l = true ->
  Forall (fun e => isDeleteOf a e = false) (events (runStepsR l errs t)).
Proof.
  intros Hq.
  refine (proj2 (runStepsR_respects (fun _ => True)
                   (fun e => isDeleteOf a e = false) _ l errs _ t I)).
  - reflexivity.
  - eapply Forall_impl; [|apply quiet_steps_calls, Hq].
    intros o Ho. split; [trivial|].
    intros r. destruct o; try reflexivity.
    simpl. apply AddOn_eqb_neq. congruence.
Qed.

Lemma silent_not_In a evs r :
  Forall (fun e => isDeleteOf a e = false) evs ->
  ~ In (Ev (direct (Delete a)) r) evs.
Proof.
  intros Hq Hin. rewrite Forall_forall in Hq. specialize (Hq _ Hin).
  simpl in Hq. rewrite AddOn_eqb_refl in Hq. discriminate.
Qed.

(** The block of a load-balancer add-on, when its [Delete] succeeded. *)
Lemma lb_block a errs t :
  In (Ev (direct (Delete a)) None)
     (events (deleteAddOn env a a (Some Minute) errs t)) ->
  events (deleteAddOn env a a (Some Minute) errs t)
  = [Ev (direct (Delete a)) None; Slept Minute].
Proof.
  unfold_step. split_step; intros H; try reflexivity;
    repeat (destruct H as [H|H]; try discriminate H); destruct H.
Qed.

(** ** A second [down] *)

Definition guardOf (t : Tester W) (a : AddOn) : bool :=
  Enabled (cfg t) a && Created (cfg t) a.

(** No call of the teardown switches a guard on. *)
Definition noRevival : Prop :=
  forall o t a, guardOf t a = false ->
    guardOf (snd (run env (direct o) t)) a = false.

(** A [Delete] that succeeds clears [Created] of its add-on. *)
Definition clears : Prop :=
  forall a t, fst (run env (direct (Delete a)) t) = None ->
    Created (cfg (snd (run env (direct (Delete a)) t))) a = false.

(** Every block that calls [Delete] of [a] is guarded by the flags of [a]. *)
Definition selfGuarded (a : AddOn) (s : DownStep) : bool :=
  match s with
  | StepAddOn g callee _ => implb (AddOn_eqb a callee) (AddOn_eqb a g)
  | _ => quiet a s
  end.

Lemma revival_step a s errs :
  noRevival ->
  respects (fun t => guardOf t a = false) (fun _ => True)
           (downStep env s errs).
Proof.
  intros Hn. apply downStep_respects; [trivial|].
  apply Forall_forall. intros o _. split; [|trivial].
  intros t Ht. apply Hn, Ht.
Qed.

Lemma selfGuarded_step a s errs :
  noRevival -> selfGuarded a s = true ->
  respects (fun t => guardOf t a = false) (fun e => isDeleteOf a e = false)
           (downStep env s errs).
Proof.
  intros Hn Hs. destruct (quiet a s) eqn:Hq.
  - apply downStep_respects; [reflexivity|].
    eapply Forall_impl; [|apply quiet_calls, Hq].
    intros o Ho. split.
    + intros t Ht. apply Hn, Ht.
    + intros r. destruct o; try reflexivity.
      simpl. apply AddOn_eqb_neq. congruence.
  - destruct s as [o|g c w| |b|]; simpl in Hs, Hq; try congruence.
    apply negb_false_iff in Hq. rewrite Hq in Hs. simpl in Hs.
    apply AddOn_eqb_eq in Hq, Hs. subst c g.
    intros t Ht. unfold guardOf in Ht. cbn [downStep].
    unfold_step. rewrite Ht. simpl. split; [exact Ht|constructor].
Qed.

Lemma selfGuarded_steps a l : forall errs,
  noRevival -> forallb (selfGuarded a) l = true ->
  respects (fun t => guardOf t a = false) (fun e => isDeleteOf a e = false)
           (runStepsR l errs).
Proof.
  induction l as [|s l IH]; intros errs Hn Hl; cbn [runStepsR].
  - apply respects_ret.
  - simpl in Hl. apply andb_prop in Hl. destruct Hl as [Hs Hl].
    apply respects_bind; [apply selfGuarded_step; assumption|].
    intros e. apply IH; assumption.
Qed.

(** The own block of [a], all of whose calls succeeded, leaves the guard of
    [a] off. *)
Lemma own_block_clears a w errs t errs' :
  clears ->
  outcome (deleteAddOn env a a w errs t) = Ret errs' ->
  failed (events (deleteAddOn env a a w errs t)) = [] ->
  guardOf (final (deleteAddOn env a a w errs t)) a = false.
Proof.
  intros Hc. unfold guardOf.
  pose proof (Hc a t) as Hc'. revert Hc'.
  unfold_step. split_step; intros Hc' H Hf; try discriminate;
    try assumption.
  all: match goal with
       | E : (_, _) = (_, _) |- _ => injection E as <- <-
       end;
       rewrite Hc' by reflexivity; apply andb_false_r.
Qed.

Lemma sweep_clears a l : forall errs t errs',
  noRevival -> clears ->
  outcome (runStepsR l errs t) = Ret errs' ->
  failed (events (runStepsR l errs t)) = [] ->
  guardOf t a = false \/ (exists w, In (StepAddOn a a w) l) ->
  guardOf (final (runStepsR l errs t)) a = false.
Proof.
  induction l as [|s l IH]; intros errs t errs' Hn Hc H Hf Hg;
    cbn [runStepsR] in *.
  - destruct Hg as [Hg|[w []]]. exact Hg.
  - destruct (outcome (downStep env s errs t)) as [e1|] eqn:Hs;
      [|rewrite (bind_Panic _ _ _ Hs) in H; discriminate].
    rewrite (bind_Ret _ _ _ Hs) in *. cbn [outcome events final] in *.
    rewrite failed_app in Hf. apply app_eq_nil in Hf.
    destruct Hf as [Hf1 Hf2].
    apply (IH e1 _ errs' Hn Hc H Hf2).
    destruct Hg as [Hg|[w [->|Hin]]].
    + left. apply (revival_step a s errs Hn t Hg).
    + left. cbn [downStep] in *.
      apply (own_block_clears a w errs t e1 Hc Hs Hf1).
    + right. exists w. exact Hin.
Qed.

Lemma down_clears a t :
  noRevival -> clears ->
  outcome (down env t) = Ret None ->
  (exists w, In (StepAddOn a a w) down_steps) ->
  guardOf (final (down env t)) a = false.
Proof.
  intros Hn Hc H Hin.
  rewrite down_eq in *. cbv zeta in *. cbn [outcome final] in *.
  apply Hn.
  set (t0 := snd (run env (direct uploadToS3) t)) in *.
  rewrite down_body_steps in *.
  destruct (outcome (runStepsR down_steps [] t0)) as [errs|] eqn:Hs;
    [|rewrite (bind_Panic _ _ _ Hs) in H; discriminate].
  rewrite (bind_Ret _ _ _ Hs) in *. cbn [outcome final] in *.
  assert (Hnil : errs = []).
  { unfold down_finish in H. destruct errs; [reflexivity|discriminate H]. }
  subst errs.
  pose proof (runStepsR_errs _ _ _ _ Hs) as He. cbn [app] in He.
  assert (Hg : guardOf (final (runStepsR down_steps [] t0)) a = false).
  { apply (sweep_clears a down_steps [] t0 [] Hn Hc Hs); [congruence|].
    right. exact Hin. }
  unfold down_finish. cbn [List.length Nat.ltb Nat.leb]. simpl.
  apply Hn, Hg.
Qed.

Lemma down_quiet_second_pass a t :
  noRevival -> forallb (selfGuarded a) down_steps = true ->
  guardOf t a = false ->
  deletions a (events (down env t)) = 0.
Proof.
  intros Hn Hs Hg. apply deletions_quiet.
  refine (proj2 (down_respects_sweep
                   (fun t => guardOf t a = false)
                   (fun e => isDeleteOf a e = false) _ _ _ _ t Hg)).
  - reflexivity.
  - split; [intros t' Ht'; apply Hn, Ht'|reflexivity].
  - split; [intros t' Ht'; apply Hn, Ht'|reflexivity].
  - intros errs. apply selfGuarded_steps; assumption.
Qed.

Lemma down_never_deletes a t :
  forallb (quiet a) down_steps = true ->
  deletions a (events (down env t)) = 0.
Proof.
  intros Hq. apply deletions_quiet.
  refine (proj2 (down_respects_sweep
                   (fun _ => True)
                   (fun e => isDeleteOf a e = false) _ _ _ _ t I)).
  - reflexivity.
  - split; [trivial|reflexivity].
  - split; [trivial|reflexivity].
  - intros errs t' _. split; [trivial|].
    apply quiet_steps_silent, Hq.
Qed.

(** ** [Up]: the body as a right-nested run over [Up_blocks] *)

Fixpoint runBlocksR (l : list (M W (option error))) : M W (option error) :=
  match l with
  | [] => ret None
  | b :: l' => b >>! runBlocksR l'
  end.

Lemma orReturn_None (m k : M W (option error)) t :
  outcome (m t) = Ret None ->
  (m >>! k) t
  = mkResult (outcome (k (final (m t)))) (final (k (final (m t))))
             (events (m t) ++ events (k (final (m t)))).
Proof.
  intros H. unfold orReturn. rewrite (bind_Ret _ _ _ H). reflexivity.
Qed.

Lemma orReturn_Some (m k : M W (option error)) t e :
  outcome (m t) = Ret (Some e) ->
  (m >>! k) t = mkResult (Ret (Some e)) (final (m t)) (events (m t)).
Proof.
  intros H. unfold orReturn. rewrite (bind_Ret _ _ _ H). simpl.
  rewrite app_nil_r. reflexivity.
Qed.

Lemma orReturn_Panic (m k : M W (option error)) t :
  outcome (m t) = Panic ->
  (m >>! k) t = mkResult Panic (final (m t)) (events (m t)).
Proof. intros H. unfold orReturn. apply bind_Panic, H. Qed.

Lemma orReturn_assoc (m b k : M W (option error)) t :
  ((m >>! b) >>! k) t = (m >>! (b >>! k)) t.
Proof.
  unfold orReturn. rewrite bind_assoc. apply bind_ext.
  intros [e|] t'; [rewrite bind_ret_l|]; reflexivity.
Qed.

Lemma orReturn_ext (m k k' : M W (option error)) t :
  (forall t', k t' = k' t') -> (m >>! k) t = (m >>! k') t.
Proof.
  intros H. unfold orReturn. apply bind_ext. intros [e|] t'; [reflexivity|apply H].
Qed.

Lemma fold_blocks_R l : forall (m : M W (option error)) t,
  fold_left (@orReturn W) l m t = (m >>! runBlocksR l) t.
Proof.
  induction l as [|b l IH]; intros m t; cbn [fold_left runBlocksR].
  - unfold orReturn, bind, ret.
    destruct (m t) as [[[e|]|] t1 e1]; simpl; rewrite ?app_nil_r; reflexivity.
  - rewrite IH. apply orReturn_assoc.
Qed.

Lemma runBlocks_R l t : runBlocks l t = runBlocksR l t.
Proof.
  unfold runBlocks. rewrite fold_blocks_R. unfold orReturn.
  rewrite bind_ret_l. reflexivity.
Qed.

Lemma runBlocksR_app l1 l2 t :
  runBlocksR (l1 ++ l2) t = (runBlocksR l1 >>! runBlocksR l2) t.
Proof.
  revert t. induction l1 as [|b l1 IH]; intros t; cbn [runBlocksR app].
  - unfold orReturn. rewrite bind_ret_l. reflexivity.
  - rewrite orReturn_assoc. apply orReturn_ext. exact IH.
Qed.

Lemma Up_body_R t : Up_body env t = runBlocksR (Up_blocks env) t.
Proof. apply runBlocks_R. Qed.

(** ** The shape of [Up] *)

Lemma Up_eq t :
  Up env t =
  let b := Up_body env t in
  let s := run env (direct Sync) (final b) in
  let d := Up_deferred env (outcome b) (snd s) in
  mkResult (match outcome d with Ret _ => outcome b | Panic => Panic end)
           (final d)
           (Banner "UP START"
              :: events b ++ Ev (direct Sync) (fst s) :: events d).
Proof.
  unfold Up. generalize (Up_body env) (Up_deferred env). intros body dfr.
  unfold defer, Up_deferred_sync, bind, banner, call, ret. cbv zeta. simpl.
  destruct (body t) as [o t1 e1]. simpl.
  destruct (dfr o _) as [[u|] t2 e2]; simpl; rewrite <- app_assoc;
    reflexivity.
Qed.

(** [time.Duration(OnFailureDeleteWaitSeconds) * time.Second] *)
Definition cleanupWait (c : Config) : Duration :=
  wrap64 (wrap64 (OnFailureDeleteWaitSeconds c) * Second).

Definition cleanupWaitEvents (c : Config) : list Event :=
  if (0 <? cleanupWait c)%Z then [Waited (cleanupWait c)] else [].

(** The deferred function after a failed body, with compensation enabled:
    upload, the wait, then [down], whose result is dropped. *)
Lemma Up_deferred_compensates e t :
  OnFailureDelete (cfg (snd (run env (direct uploadToS3) t))) = true ->
  Up_deferred env (Ret (Some e)) t =
  let t1 := snd (run env (direct uploadToS3) t) in
  let d := down env t1 in
  mkResult (match outcome d with Ret _ => Ret tt | Panic => Panic end)
           (final d)
           (Ev (direct uploadToS3) (fst (run env (direct uploadToS3) t))
              :: cleanupWaitEvents (cfg t1) ++ events d).
Proof.
  intros H. unfold Up_deferred. generalize (down env). intros dn.
  unfold bind, call, gets, ret, waitInterruptible, cleanupWaitEvents,
         cleanupWait.
  cbv zeta. simpl. rewrite H. simpl.
  destruct (0 <? _)%Z; simpl;
    destruct (dn _) as [[r|] t2 e2]; simpl; rewrite ?app_nil_r; reflexivity.
Qed.

(** The deferred function otherwise: upload only. *)
Lemma Up_deferred_no_compensation o t :
  (forall e, o = Ret (Some e) ->
     OnFailureDelete (cfg (snd (run env (direct uploadToS3) t))) = false) ->
  Up_deferred env o t =
  mkResult (Ret tt) (snd (run env (direct uploadToS3) t))
           [Ev (direct uploadToS3) (fst (run env (direct uploadToS3) t))].
Proof.
  intros H. unfold Up_deferred. generalize (down env). intros dn.
  unfold bind, call, gets, ret. cbv zeta. simpl.
  destruct o as [[e|]|]; try reflexivity.
  rewrite (H e eq_refl). reflexivity.
Qed.

(** ** Invariants and event filters through [Up] *)

Lemma runBlocksR_respects I Q l :
  Forall (respects I Q) l -> respects I Q (runBlocksR l).
Proof.
  induction 1 as [|b l Hb _ IH]; cbn [runBlocksR].
  - apply respects_ret.
  - apply respects_orReturn; assumption.
Qed.

Section UpRespects.

Variable I : Tester W -> Prop.
Variable Q : Event -> Prop.
Hypothesis callKeeps : forall c t, I t -> I (snd (run env c t)).
Hypothesis callEvent : forall c r, Q (Ev c r).
Hypothesis sleepEvent : forall d, Q (Slept d).

Ltac block_respects :=
  repeat first
    [ apply respects_ret
    | apply respects_panic
    | apply respects_gets
    | apply respects_sleep, sleepEvent
    | apply respects_call; [apply callKeeps|apply callEvent]
    | apply respects_bind; [|intros ?]
    | apply respects_orReturn
    | match goal with
      | |- respects _ _ (if ?b then _ else _) => destruct b
      | |- respects _ _ (match ?x with Some _ => _ | None => _ end) =>
          destruct x
      end ].

Lemma Up_blocks_respect : Forall (respects I Q) (Up_blocks env).
Proof.
  unfold Up_blocks.
  repeat (apply Forall_cons; [|]); try apply Forall_nil;
    unfold gated, settleAndCheckHealth, commandHook, createAddOn,
           gpuBootstrap, gpuStep, createConformance, uploadArtifacts,
           fetchNodeGroupLogs, aggregateResults, aggregate, gated;
    block_respects.
Qed.

Lemma Up_body_respects : respects I Q (Up_body env).
Proof.
  eapply respects_ext; [apply Up_body_R|].
  apply runBlocksR_respects, Up_blocks_respect.
Qed.

End UpRespects.

Definition isGated (e : Event) : bool :=
  match e with Ev (catchInterrupt _) _ => true | _ => false end.

Definition isDownStart (e : Event) : bool :=
  match e with Banner b => String.eqb b "DOWN START" | _ => false end.

(** How often [down] was entered. *)
Definition downStarts (evs : list Event) : nat :=
  List.length (filter isDownStart evs).

Lemma filter_none {A} (f : A -> bool) l :
  Forall (fun x => f x = false) l -> filter f l = [].
Proof.
  induction 1 as [|x l Hx _ IH]; simpl; [reflexivity|].
  rewrite Hx. exact IH.
Qed.

Lemma downStarts_app e1 e2 :
  downStarts (e1 ++ e2) = downStarts e1 + downStarts e2.
Proof. unfold downStarts. rewrite filter_app, length_app. reflexivity. Qed.

(** [down] makes no call through [catchInterrupt]. *)
Lemma down_not_gated t : gatedEvents (events (down env t)) = [].
Proof.
  apply (filter_none isGated).
  refine (proj2 (down_respects (fun _ => True)
                   (fun e => isGated e = false) _ _ _ t I)).
  - reflexivity.
  - reflexivity.
  - apply Forall_forall. intros o _. split; [trivial|reflexivity].
Qed.


(** The first deferred function of [Up] makes no call through
    [catchInterrupt], and panics only inside the [down] it started. *)
Lemma Up_deferred_spec o t :
  gatedEvents (events (Up_deferred env o t)) = []
  /\ (outcome (Up_deferred env o t) = Panic ->
      In (Banner "DOWN START") (events (Up_deferred env o t))).
Proof.
  destruct o as [[e|]|];
    try (rewrite Up_deferred_no_compensation by (intros e' E; discriminate E);
         split; [reflexivity|discriminate]).
  destruct (OnFailureDelete (cfg (snd (run env (direct uploadToS3) t))))
    eqn:Hd.
  - rewrite (Up_deferred_compensates _ _ Hd). cbv zeta. cbn [events outcome].
    split.
    + change (gatedEvents
                ([Ev (direct uploadToS3) (fst (run env (direct uploadToS3) t))]
                   ++ cleanupWaitEvents (cfg (snd (run env (direct uploadToS3) t)))
                   ++ events (down env (snd (run env (direct uploadToS3) t))))
              = []).
      rewrite !gatedEvents_app, down_not_gated.
      unfold cleanupWaitEvents. destruct (0 <? _)%Z; reflexivity.
    + intros _. right. apply in_or_app. right.
      rewrite down_eq. left. reflexivity.
  - rewrite Up_deferred_no_compensation by (intros e' _; exact Hd).
    split; [reflexivity|discriminate].
Qed.

(** ** The prerequisite steps *)

Definition prerequisites : list Op :=
  [createS3; createEncryption; createKeyPair; createClusterRole; createVPC;
   createCluster].

Definition succeeded (o : Op) : Event := Ev (catchInterrupt o) None.

Lemma Up_blocks_prerequisites :
  Up_blocks env = map (gated env) prerequisites ++ skipn 6 (Up_blocks env).
Proof. reflexivity. Qed.

(** Steps handed to [catchInterrupt] one after the other: either all
    succeed, or the run stops at the first error. *)
Lemma gated_run ops : forall t,
  (outcome (runBlocksR (map (gated env) ops) t) = Ret None
   /\ events (runBlocksR (map (gated env) ops) t) = map succeeded ops)
  \/ (exists k e,
        k < List.length ops
        /\ outcome (runBlocksR (map (gated env) ops) t) = Ret (Some e)
        /\ events (runBlocksR (map (gated env) ops) t)
           = map succeeded (firstn k ops)
               ++ [Ev (catchInterrupt (nth k ops createS3)) (Some e)]).
Proof.
  induction ops as [|o ops IH]; intros t; cbn [map runBlocksR].
  - left. split; reflexivity.
  - destruct (fst (run env (catchInterrupt o) t)) as [e|] eqn:Ho.
    + right. exists 0, e. split; [simpl; lia|].
      rewrite (orReturn_Some _ _ _ e) by (unfold gated, call; simpl; congruence).
      unfold gated, call. simpl. rewrite Ho. split; reflexivity.
    + rewrite orReturn_None by (unfold gated, call; simpl; congruence).
      cbn [outcome events].
      change (events (gated env o t)) with [Ev (catchInterrupt o) (fst (run env (catchInterrupt o) t))].
      rewrite Ho.
      destruct (IH (final (gated env o t))) as [[H1 H2]|(k & e & Hk & H1 & H2)].
      * left. rewrite H1, H2. split; reflexivity.
      * right. exists (S k), e. rewrite H1, H2.
        split; [simpl; lia|]. split; reflexivity.
Qed.

Lemma gatedEvents_succeeded ops :
  gatedEvents (map succeeded ops) = map succeeded ops.
Proof. induction ops; simpl; congruence. Qed.

Lemma Up_gated t :
  gatedEvents (events (Up env t)) = gatedEvents (events (Up_body env t)).
Proof.
  rewrite Up_eq. cbv zeta. cbn [events].
  change (gatedEvents
            ([Banner "UP START"] ++ events (Up_body env t)
               ++ [Ev (direct Sync)
                      (fst (run env (direct Sync) (final (Up_body env t))))]
               ++ events (Up_deferred env (outcome (Up_body env t))
                            (snd (run env (direct Sync)
                                    (final (Up_body env t))))))
          = gatedEvents (events (Up_body env t))).
  rewrite !gatedEvents_app.
  rewrite (proj1 (Up_deferred_spec _ _)). simpl. apply app_nil_r.
Qed.


(** ** The create blocks of [Up] *)




Lemma nth_error_cut {A} (l : list A) : forall k x,
  nth_error l k = Some x -> l = firstn k l ++ x :: skipn (S k) l.
Proof.
  induction l as [|y l IH]; intros [|k] x H; simpl in *; try discriminate.
  - injection H as ->. reflexivity.
  - f_equal. apply IH, H.
Qed.


(** ** At most one error from [catchInterrupt] *)

Definition isGatedError (e : Event) : bool :=
  match e with Ev (catchInterrupt _) (Some _) => true | _ => false end.

(** The errors that [catchInterrupt] returned, interruptions among them. *)
Definition gatedErrors (evs : list Event) : nat :=
  List.length (filter isGatedError evs).

Definition surfacesAtMostOne (m : M W (option error)) : Prop :=
  forall t,
    gatedErrors (events (m t))
    <= match outcome (m t) with Ret (Some _) => 1 | _ => 0 end.

Lemma gatedErrors_app e1 e2 :
  gatedErrors (e1 ++ e2) = gatedErrors e1 + gatedErrors e2.
Proof. unfold gatedErrors. rewrite filter_app, length_app. reflexivity. Qed.

Lemma one_ret_None : surfacesAtMostOne (ret None).
Proof. intros t. unfold gatedErrors. simpl. lia. Qed.

Lemma one_orReturn m k :
  surfacesAtMostOne m -> surfacesAtMostOne k -> surfacesAtMostOne (m >>! k).
Proof.
  intros Hm Hk t. specialize (Hm t).
  destruct (outcome (m t)) as [[e|]|] eqn:Ho.
  - rewrite (orReturn_Some _ _ _ _ Ho). exact Hm.
  - rewrite (orReturn_None _ _ _ Ho). cbn [events outcome].
    rewrite gatedErrors_app. specialize (Hk (final (m t))). lia.
  - rewrite (orReturn_Panic _ _ _ Ho). exact Hm.
Qed.

Ltac one_block :=
  intros t;
  unfold gated, settleAndCheckHealth, commandHook, createAddOn, gpuStep,
         createConformance, uploadArtifacts, fetchNodeGroupLogs, aggregate,
         orReturn, bind, gets, call, sleep, ret, panic;
  cbv zeta; simpl; split_step; unfold gatedErrors; simpl; lia.

Lemma one_gated o : surfacesAtMostOne (gated env o).
Proof. one_block. Qed.

Lemma one_direct o : surfacesAtMostOne (call env (direct o)).
Proof. one_block. Qed.

Lemma one_settle : surfacesAtMostOne (settleAndCheckHealth env).
Proof. one_block. Qed.

Lemma one_hook cmd timeout path :
  surfacesAtMostOne (commandHook env cmd timeout path).
Proof. one_block. Qed.

Lemma one_create a : surfacesAtMostOne (createAddOn env a).
Proof. one_block. Qed.

Lemma one_conformance : surfacesAtMostOne (createConformance env).
Proof. one_block. Qed.

Lemma one_gpuStep o : surfacesAtMostOne (gpuStep env o).
Proof. one_block. Qed.

Lemma bind_gets {A B} (f : Tester W -> A) (k : A -> M W B) t :
  (gets f >>= k) t = k (f t) t.
Proof. unfold bind, gets. destruct (k (f t) t); reflexivity. Qed.

Lemma one_bind_gets {A} (f : Tester W -> A) (k : A -> M W (option error)) :
  (forall a, surfacesAtMostOne (k a)) -> surfacesAtMostOne (gets f >>= k).
Proof. intros H t. rewrite bind_gets. apply H. Qed.

Lemma one_gpu : surfacesAtMostOne (gpuBootstrap env).
Proof.
  unfold gpuBootstrap. apply one_bind_gets. intros c.
  destruct (needGPU env c).
  - apply one_orReturn; apply one_gpuStep.
  - apply one_ret_None.
Qed.

Lemma one_upload : surfacesAtMostOne (uploadArtifacts env).
Proof. one_block. Qed.

Lemma one_fetch a : surfacesAtMostOne (fetchNodeGroupLogs env a).
Proof. one_block. Qed.

Lemma one_aggregate a : surfacesAtMostOne (aggregate env a).
Proof. one_block. Qed.

Lemma one_aggregateResults : surfacesAtMostOne (aggregateResults env).
Proof.
  unfold aggregateResults. apply one_bind_gets. intros c.
  destruct (refreshed c NodeGroups || refreshed c ManagedNodeGroups).
  - repeat apply one_orReturn; try apply one_aggregate. apply one_ret_None.
  - apply one_ret_None.
Qed.

Lemma runBlocksR_one l :
  Forall surfacesAtMostOne l -> surfacesAtMostOne (runBlocksR l).
Proof.
  induction 1 as [|b l Hb _ IH]; cbn [runBlocksR].
  - apply one_ret_None.
  - apply one_orReturn; assumption.
Qed.

Lemma Up_blocks_one : Forall surfacesAtMostOne (Up_blocks env).
Proof.
  unfold Up_blocks.
  repeat (apply Forall_cons; [|]); try apply Forall_nil;
    first [ apply one_gated | apply one_direct | apply one_settle
          | apply one_hook | apply one_create | apply one_conformance
          | apply one_gpu | apply one_upload | apply one_fetch
          | apply one_aggregateResults ].
Qed.

Lemma gatedErrors_gated evs : gatedEvents evs = [] -> gatedErrors evs = 0.
Proof.
  unfold gatedErrors, gatedEvents.
  induction evs as [|e evs IH]; simpl; [reflexivity|].
  destruct e as [[o|o] [m|]| | |]; simpl; try discriminate; exact IH.
Qed.

(** ** Teardown *)

(** The run of [down] from the artifact upload up to, and not including,
    block [n] of the sweep (counted from 0): its events, and in [final] the
    tester as block [n] finds it. *)
Definition sweepBefore (n : nat) (t : Tester W)
  : Result (Tester W) (list string) :=
  runStepsR (firstn n down_steps) [] (snd (run env (direct uploadToS3) t)).

(** The events of the blocks [l] run one after the other from [t]: each on
    the tester the block before it left, and each as with no error collected
    so far. *)
Fixpoint sweepEvents (l : list DownStep) (t : Tester W) : list Event :=
  match l with
  | [] => []
  | s :: l' =>
      events (downStep env s [] t)
      ++ sweepEvents l' (final (downStep env s [] t))
  end.

Lemma runStepsR_sweepEvents l : forall errs t errs',
  outcome (runStepsR l errs t) = Ret errs' ->
  events (runStepsR l errs t) = sweepEvents l t.
Proof.
  induction l as [|s l IH]; intros errs t errs' H; cbn [runStepsR sweepEvents] in *.
  - reflexivity.
  - destruct (outcome (downStep env s errs t)) as [e1|] eqn:Hs.
    + rewrite (bind_Ret _ _ _ Hs) in *. cbn [outcome events] in *.
      destruct (downStep_ignores_errs s errs t) as [He Hf].
      rewrite (IH _ _ _ H), He, Hf. reflexivity.
    + rewrite (bind_Panic _ _ _ Hs) in H. discriminate.
Qed.

Lemma runStepsR_cut l1 l2 errs t e :
  outcome (runStepsR (l1 ++ l2) errs t) = Ret e ->
  exists e1,
    outcome (runStepsR l1 errs t) = Ret e1
    /\ outcome (runStepsR l2 e1 (final (runStepsR l1 errs t))) = Ret e
    /\ events (runStepsR (l1 ++ l2) errs t)
       = events (runStepsR l1 errs t)
         ++ events (runStepsR l2 e1 (final (runStepsR l1 errs t)))
    /\ final (runStepsR (l1 ++ l2) errs t)
       = final (runStepsR l2 e1 (final (runStepsR l1 errs t))).
Proof.
  rewrite runStepsR_app. intros H.
  destruct (outcome (runStepsR l1 errs t)) as [e1|] eqn:H1;
    [|rewrite (bind_Panic _ _ _ H1) in H; discriminate].
  rewrite (bind_Ret _ _ _ H1) in *. cbn [outcome events final] in *.
  exists e1. repeat split; try reflexivity. exact H.
Qed.




(** What the closing lines 2220-2223 add to the events. *)
Lemma down_finish_events errs t :
  events (down_finish env errs t)
  = match errs with
    | [] => [Ev (direct Sync) (fst (run env (direct Sync) t))]
    | _ => []
    end
  /\ outcome (down_finish env errs t)
     = Ret match errs with
           | [] => fst (run env (direct Sync) t)
           | _ => Some (Join errs ", ")
           end.
Proof.
  unfold down_finish. destruct errs as [|e errs]; simpl; split; reflexivity.
Qed.

(** A run of [down] that returns, laid out: the sweep, then the closing
    lines, then the deferred sync. *)
Lemma down_layout t r :
  outcome (down env t) = Ret r ->
  exists errs,
    outcome (sweepBefore (List.length down_steps) t) = Ret errs
    /\ errs = failed (events (sweepBefore (List.length down_steps) t))
    /\ events (down env t)
       = Banner "DOWN START"
           :: Ev (direct uploadToS3) (fst (run env (direct uploadToS3) t))
           :: events (sweepBefore (List.length down_steps) t)
           ++ events (down_finish env errs
                        (final (sweepBefore (List.length down_steps) t)))
           ++ [Ev (direct Sync)
                 (fst (run env (direct Sync)
                         (final (down_body env
                                   (snd (run env (direct uploadToS3) t))))))]
    /\ outcome (down_finish env errs
                  (final (sweepBefore (List.length down_steps) t))) = Ret r.
Proof.
  unfold sweepBefore. rewrite firstn_all.
  rewrite down_eq. cbv zeta. cbn [outcome events].
  set (t0 := snd (run env (direct uploadToS3) t)).
  rewrite down_body_steps. intros H.
  destruct (outcome (runStepsR down_steps [] t0)) as [errs|] eqn:Hs;
    [|rewrite (bind_Panic _ _ _ Hs) in H; discriminate].
  rewrite (bind_Ret _ _ _ Hs) in *. cbn [outcome events] in *.
  exists errs. split; [reflexivity|]. split.
  - apply (runStepsR_errs _ _ _ _ Hs).
  - split; [|exact H]. rewrite <- app_assoc. reflexivity.
Qed.



(** C2, as amended.  [down] never returns early on a failed step.  Whenever
    it returns, what it has done is the banner, the artifact upload, every
    block of the teardown sequence in source order, the closing lines and
    the deferred sync; each block was run on the tester the block before it
    left and did what it does with no error collected so far, so that among
    them all six fixed deletions were attempted.  With [N >= 1] failed
    steps the one error returned is the join with ", " of all [N]
    messages, in the order of the failures, and contains each; the closing
    [cfg.Sync] is then not called.  With no failed step [down] returns what
    the closing [cfg.Sync] returns: nil only when that call succeeds. *)
Theorem down_aggregates_every_failure (t : Tester W) (r : option error) :
  outcome (down env t) = Ret r ->
  exists u closing s,
    events (down env t)
    = Banner "DOWN START" :: Ev (direct uploadToS3) u
        :: sweepEvents down_steps (snd (run env (direct uploadToS3) t))
        ++ closing ++ [Ev (direct Sync) s]
    /\ infraDeletions
         (sweepEvents down_steps (snd (run env (direct uploadToS3) t)))
       = fixedDeletions
    /\ match failed
               (sweepEvents down_steps (snd (run env (direct uploadToS3) t)))
       with
       | [] => closing = [Ev (direct Sync) r]
       | l => closing = [] /\ r = Some (Join l ", ")
       end
    /\ forall m,
         In m (failed
                 (sweepEvents down_steps (snd (run env (direct uploadToS3) t)))) ->
         exists e, r = Some e /\ contains e m.
Proof.
  intros H.
  destruct (down_layout t r H) as (errs & Hs & He & Hev & Hr).
  unfold sweepBefore in *. rewrite firstn_all in *.
  set (t0 := snd (run env (direct uploadToS3) t)) in *.
  rewrite (runStepsR_sweepEvents _ _ _ _ Hs) in *.
  destruct (down_finish_events errs (final (runStepsR down_steps [] t0)))
    as [Hc Ho].
  rewrite Ho in Hr.
  apply (f_equal (fun o => match o with Ret x => x | Panic => r end)) in Hr.
  cbv beta iota in Hr.
  eexists _, _, _. split; [exact Hev|]. split.
  - rewrite <- (runStepsR_sweepEvents _ _ _ _ Hs).
    apply (runStepsR_infra _ _ _ _ Hs).
  - rewrite <- He. split.
    + rewrite Hc. destruct errs as [|m0 l]; [rewrite Hr; reflexivity|].
      split; [reflexivity|]. symmetry. exact Hr.
    + intros m Hm. destruct errs as [|m0 l]; [destruct Hm|].
      eexists. split; [symmetry; exact Hr|]. apply contains_Join, Hm.
Qed.

(** C1, as amended.  Provided the collaborators touch the flags and the
    handle of an add-on only in that add-on's own [Delete] ([frame]), every
    run of [down] that returns invokes [Delete] of an add-on exactly once
    or not at all, decided by what the tester held when [down] began:
    - for the node groups and the managed node groups, once exactly when
      the add-on is enabled and its handle is non-nil, whatever [Created]
      says;
    - for every other add-on except the cluster-loader pair, ConfigMapsRemote
      and CSRsLocal, once exactly when the add-on is enabled and [Created]. *)
Theorem down_deletes_by_flags (t : Tester W) (r : option error) (a : AddOn) :
  frame ->
  outcome (down env t) = Ret r ->
  (In a [NodeGroups; ManagedNodeGroups] ->
   deletions a (events (down env t))
   = if Enabled (cfg t) a && tester t a then 1 else 0)
  /\ (deletedWhenCreated a ->
      deletions a (events (down env t))
      = if Enabled (cfg t) a && Created (cfg t) a then 1 else 0).
Proof.
  intros Hf H. split.
  - intros Ha. destruct (nodeGroup_block a Ha) as (pre & post & Hs & Hp & Hq).
    apply (down_deletions a pre _ post t r _ Hf Hs Hp Hq H).
    intros e t1 e1 Ht1 _. cbn [downStep]. rewrite node_group_block.
    unfold flagsOf in Ht1. injection Ht1 as -> _ ->. reflexivity.
  - intros Ha.
    destruct (deletedWhenCreated_block a Ha)
      as (pre & b & post & Hs & Hp & Hq & w & ->).
    apply (down_deletions a pre _ post t r _ Hf Hs Hp Hq H).
    intros e t1 e1 Ht1 Hb. cbn [downStep] in *.
    rewrite (own_block _ _ _ _ _ Hb).
    unfold flagsOf in Ht1. injection Ht1 as -> -> _. reflexivity.
Qed.

(** The guard of lines 2143-2145. *)
Definition loadBalancerWaitDue (c : Config) : bool :=
  (Enabled c NodeGroups || Enabled c ManagedNodeGroups)
  && ((Enabled c ALB2048 && Created c ALB2048)
      || (Enabled c NLBHelloWorld && Created c NLBHelloWorld)).

Lemma waitLoadBalancers_events errs t :
  events (runStepsR [StepLoadBalancers] errs t)
  = if loadBalancerWaitDue (cfg t) then [Slept (2 * Minute)%Z] else [].
Proof.
  cbn [runStepsR downStep].
  unfold waitLoadBalancers, bind, gets, sleep, ret, loadBalancerWaitDue.
  cbn [outcome final events].
  destruct ((_ || _) && _); reflexivity.
Qed.

(** The block of a load-balancer add-on, when its [Delete] was called. *)
Lemma lb_block_events a errs t rd :
  In (Ev (direct (Delete a)) rd)
     (events (runStepsR [StepAddOn a a (Some Minute)] errs t)) ->
  events (runStepsR [StepAddOn a a (Some Minute)] errs t)
  = Ev (direct (Delete a)) rd
      :: match rd with
         | None => [Slept Minute]
         | Some _ => []
         end.
Proof.
  cbn [runStepsR downStep].
  unfold deleteAddOn, bind, gets, call, sleep, ret, panic.
  cbn [outcome final events].
  destruct (Enabled (cfg t) a && Created (cfg t) a);
    cbn [outcome final events app]; [|intros []].
  destruct (tester t a); cbn [outcome final events app]; [|intros []].
  destruct (run env (direct (Delete a)) t) as [[e|] t'];
    cbn [fst snd outcome final events app]; intros H.
  - destruct H as [H|[]]. injection H as <-. reflexivity.
  - destruct H as [H|[H|[]]]; [|discriminate H].
    injection H as <-. reflexivity.
Qed.

Lemma In_silent_l a rd l1 l2 :
  Forall (fun e => isDeleteOf a e = false) l1 ->
  In (Ev (direct (Delete a)) rd) (l1 ++ l2) ->
  In (Ev (direct (Delete a)) rd) l2.
Proof.
  intros Hq Hin. apply in_app_or in Hin. destruct Hin as [Hin|Hin].
  - exfalso. revert Hin. apply silent_not_In, Hq.
  - exact Hin.
Qed.

Lemma In_silent_r a rd l1 l2 :
  Forall (fun e => isDeleteOf a e = false) l2 ->
  In (Ev (direct (Delete a)) rd) (l1 ++ l2) ->
  In (Ev (direct (Delete a)) rd) l1.
Proof.
  intros Hq Hin. apply in_app_or in Hin. destruct Hin as [Hin|Hin].
  - exact Hin.
  - exfalso. revert Hin. apply silent_not_In, Hq.
Qed.

Lemma down_finish_silent a errs t :
  Forall (fun e => isDeleteOf a e = false) (events (down_finish env errs t)).
Proof.
  destruct (down_finish_events errs t) as [-> _].
  destruct errs; repeat constructor.
Qed.

(** A run of [down] that returns, cut at the block of a load-balancer
    add-on, at the wait for the load balancers and at the wait in front of
    the network. *)
Lemma down_lb_layout lb pre post1 t r rd :
  firstn 27 down_steps = pre ++ StepAddOn lb lb (Some Minute) :: post1 ->
  forallb (quiet lb) pre = true ->
  forallb (quiet lb) post1 = true ->
  forallb (quiet lb) (skipn 28 down_steps) = true ->
  flat_map infraOf pre = [deleteKeyPair] ->
  outcome (down env t) = Ret r ->
  In (Ev (direct (Delete lb)) rd) (events (down env t)) ->
  exists before mid1 mid2 rv after,
    events (down env t)
    = before ++ Ev (direct (Delete lb)) rd
        :: (match rd with
            | None => [Slept Minute]
            | Some _ => []
            end
            ++ mid1
            ++ (if loadBalancerWaitDue (cfg (final (sweepBefore 27 t)))
                then [Slept (2 * Minute)%Z] else [])
            ++ mid2
            ++ (if VPCCreate (cfg (final (sweepBefore 33 t)))
                then [Slept (30 * Second)%Z] else []))
        ++ Ev (direct deleteVPC) rv :: after
    /\ forall rv', ~ In (Ev (direct deleteVPC) rv') before.
Proof.
  intros Hsplit Hpre Hpost1 Hpost Hipre H Hin.
  destruct (down_layout t r H) as (errs & Hs & _ & Hev & _).
  unfold sweepBefore in *. rewrite firstn_all in Hs, Hev.
  set (t0 := snd (run env (direct uploadToS3) t)) in *.
  (* the three blocks at the end *)
  assert (K := Hs).
  change down_steps
    with (firstn 33 down_steps
            ++ [StepVPC; StepInfra deleteVPC; StepInfra deleteS3]) in K.
  destruct (runStepsR_cut _ _ _ _ _ K) as (e33 & H33 & _ & C36 & _).
  change (firstn 33 down_steps
            ++ [StepVPC; StepInfra deleteVPC; StepInfra deleteS3])
    with down_steps in C36.
  rewrite runStepsR_tail in C36. clear K.
  (* the node groups and the deletions up to the IAM role *)
  assert (K := H33).
  change (firstn 33 down_steps)
    with (firstn 28 down_steps ++ firstn 5 (skipn 28 down_steps)) in K.
  destruct (runStepsR_cut _ _ _ _ _ K) as (e28 & H28 & _ & C33 & _).
  change (firstn 28 down_steps ++ firstn 5 (skipn 28 down_steps))
    with (firstn 33 down_steps) in C33. clear K.
  (* the wait for the load balancers *)
  assert (K := H28).
  change (firstn 28 down_steps)
    with (firstn 27 down_steps ++ [StepLoadBalancers]) in K.
  destruct (runStepsR_cut _ _ _ _ _ K) as (e27 & H27 & _ & C28 & _).
  change (firstn 27 down_steps ++ [StepLoadBalancers])
    with (firstn 28 down_steps) in C28.
  rewrite waitLoadBalancers_events in C28. clear K.
  (* the block of the add-on *)
  assert (K := H27). rewrite Hsplit in K.
  destruct (runStepsR_cut _ _ _ _ _ K) as (ei & Hi & Hrest & C27 & _).
  rewrite <- Hsplit in C27. clear K.
  change (StepAddOn lb lb (Some Minute) :: post1)
    with ([StepAddOn lb lb (Some Minute)] ++ post1) in Hrest, C27.
  destruct (runStepsR_cut _ _ _ _ _ Hrest) as (eb & Hb & _ & Cb & _).
  rewrite Cb in C27. clear Cb Hrest.
  set (P := events (runStepsR pre [] t0)) in *.
  set (ti := final (runStepsR pre [] t0)) in *.
  set (B := events (runStepsR [StepAddOn lb lb (Some Minute)] ei ti)) in *.
  set (M1 := events (runStepsR post1 eb
                       (final (runStepsR [StepAddOn lb lb (Some Minute)] ei ti))))
    in *.
  set (t27 := final (runStepsR (firstn 27 down_steps) [] t0)) in *.
  set (M2 := events (runStepsR (firstn 5 (skipn 28 down_steps)) e28
                       (final (runStepsR (firstn 28 down_steps) [] t0)))) in *.
  set (t33 := final (runStepsR (firstn 33 down_steps) [] t0)) in *.
  set (F := events (down_finish env errs (final (runStepsR down_steps [] t0))))
    in *.
  assert (HP : Forall (fun e => isDeleteOf lb e = false) P)
    by apply (quiet_steps_silent lb pre [] t0 Hpre).
  assert (HM1 : Forall (fun e => isDeleteOf lb e = false) M1)
    by apply (quiet_steps_silent lb post1 _ _ Hpost1).
  assert (HM2 : Forall (fun e => isDeleteOf lb e = false) M2).
  { apply quiet_steps_silent.
    change (skipn 28 down_steps)
      with (firstn 5 (skipn 28 down_steps) ++ skipn 33 down_steps) in Hpost.
    rewrite forallb_app in Hpost. apply andb_prop in Hpost. apply Hpost. }
  assert (HF : Forall (fun e => isDeleteOf lb e = false) F)
    by apply down_finish_silent.
  rewrite C36, C33, C28, C27 in Hev.
  assert (HB : In (Ev (direct (Delete lb)) rd) B).
  { rewrite Hev in Hin.
    change (Banner "DOWN START"
              :: Ev (direct uploadToS3) (fst (run env (direct uploadToS3) t))
              :: ?l)
      with ([Banner "DOWN START";
             Ev (direct uploadToS3) (fst (run env (direct uploadToS3) t))] ++ l)
      in Hin.
    apply In_silent_l in Hin; [|repeat constructor].
    rewrite <- !app_assoc in Hin.
    apply In_silent_l in Hin; [|exact HP].
    apply In_silent_r in Hin; [exact Hin|].
    repeat (apply Forall_app; split); try assumption;
      try (destruct (loadBalancerWaitDue (cfg t27)); repeat constructor);
      try (destruct (VPCCreate (cfg t33)); repeat constructor);
      repeat constructor. }
  apply lb_block_events in HB. fold B in HB. rewrite HB in Hev.
  rewrite <- !app_assoc in Hev. cbn [app] in Hev.
  eexists (Banner "DOWN START"
             :: Ev (direct uploadToS3) (fst (run env (direct uploadToS3) t))
             :: P),
          M1, M2, _, _.
  split.
  - rewrite Hev. cbn [app]. do 3 f_equal.
    rewrite <- !app_assoc. cbn [app]. reflexivity.
  - intros rv'. apply infraDeletions_not_In; [reflexivity|].
    change (Banner "DOWN START"
              :: Ev (direct uploadToS3) (fst (run env (direct uploadToS3) t))
              :: P)
      with ([Banner "DOWN START";
             Ev (direct uploadToS3) (fst (run env (direct uploadToS3) t))] ++ P).
    rewrite infraDeletions_app. unfold P.
    rewrite (runStepsR_infra _ _ _ _ Hi), Hipre.
    intros [E|[]]. discriminate E.
Qed.

(** C8, as amended.  In every run of [down] that returns and in which the
    [Delete] of a load-balancer add-on (ALB2048 or NLBHelloWorld) was
    invoked, the deletion of the network is attempted only afterwards, and
    between the two lies
    - a one-minute sleep, right after the [Delete], when the [Delete]
      succeeded;
    - the two-minute sleep of lines 2143-2149, when a node-group family is
      enabled and a load-balancer add-on is enabled and [Created] in the
      configuration as it is after the add-on blocks;
    - the 30-second sleep of lines 2200-2204, right before the deletion of
      the network, when [VPCCreate] holds in the configuration as it is
      after the deletion of the IAM role.
    After a [Delete] that failed, the add-on's own one-minute sleep is
    skipped, and a delay is guaranteed only by one of the other two. *)
Theorem down_settles_after_load_balancer
    (t : Tester W) (r : option error) (lb : AddOn) (rd : option error) :
  In lb [ALB2048; NLBHelloWorld] ->
  outcome (down env t) = Ret r ->
  In (Ev (direct (Delete lb)) rd) (events (down env t)) ->
  exists before between rv after,
    events (down env t)
    = before ++ Ev (direct (Delete lb)) rd :: between
        ++ Ev (direct deleteVPC) rv :: after
    /\ (forall rv', ~ In (Ev (direct deleteVPC) rv') before)
    /\ (rd = None -> exists rest, between = Slept Minute :: rest)
    /\ (loadBalancerWaitDue (cfg (final (sweepBefore 27 t))) = true ->
        In (Slept (2 * Minute)%Z) between)
    /\ (VPCCreate (cfg (final (sweepBefore 33 t))) = true ->
        exists rest, between = rest ++ [Slept (30 * Second)%Z]).
Proof.
  intros Hlb H Hin.
  assert (Hsplit : exists pre post1,
            firstn 27 down_steps = pre ++ StepAddOn lb lb (Some Minute) :: post1
            /\ forallb (quiet lb) pre = true
            /\ forallb (quiet lb) post1 = true
            /\ forallb (quiet lb) (skipn 28 down_steps) = true
            /\ flat_map infraOf pre = [deleteKeyPair]).
  { destruct Hlb as [<-|[<-|[]]].
    - exists (firstn 20 down_steps), (firstn 6 (skipn 21 down_steps)).
      repeat split; reflexivity.
    - exists (firstn 21 down_steps), (firstn 5 (skipn 22 down_steps)).
      repeat split; reflexivity. }
  destruct Hsplit as (pre & post1 & Hs & Hpre & Hpost1 & Hpost & Hipre).
  destruct (down_lb_layout lb pre post1 t r rd Hs Hpre Hpost1 Hpost Hipre H Hin)
    as (before & mid1 & mid2 & rv & after & Hev & Hbefore).
  set (lbw := if loadBalancerWaitDue (cfg (final (sweepBefore 27 t)))
             then [Slept (2 * Minute)%Z] else []) in *.
  set (settle := match rd with
                 | None => [Slept Minute]
                 | Some _ => []
                 end) in *.
  exists before,
         (settle ++ mid1 ++ lbw ++ mid2
            ++ (if VPCCreate (cfg (final (sweepBefore 33 t)))
                then [Slept (30 * Second)%Z] else [])),
         rv, after.
  split; [exact Hev|]. split; [exact Hbefore|]. split; [|split].
  - intros ->. eexists. reflexivity.
  - intros Hdue. unfold lbw. rewrite Hdue.
    apply in_or_app. right. apply in_or_app. right. left. reflexivity.
  - intros ->. exists (settle ++ mid1 ++ lbw ++ mid2).
    rewrite <- !app_assoc. reflexivity.
Qed.

(** C5, as amended.  Suppose that a [Delete] which succeeds clears the
    [Created] flag of its add-on and that no call of the teardown switches
    an add-on's guard on.  If [down] returned success, so that every step it
    attempted succeeded, then a second [down] run from where the first one
    ended invokes [Delete] of no add-on, apart from the node groups and the
    managed node groups, whose blocks test the handle and not [Created],
    and apart from the cluster-loader remote tester. *)
Theorem second_down_deletes_no_addon (t : Tester W) (a : AddOn) :
  noRevival -> clears ->
  outcome (down env t) = Ret None ->
  ~ In a [NodeGroups; ManagedNodeGroups; ClusterLoaderRemote] ->
  deletions a (events (down env (final (down env t)))) = 0.
Proof.
  intros Hn Hc H Ha.
  destruct (in_dec AddOn_eq_dec a [ClusterLoaderLocal; ConfigMapsRemote; CSRsLocal])
    as [Hno|Hown].
  - apply down_never_deletes.
    destruct Hno as [<-|[<-|[<-|[]]]]; reflexivity.
  - assert (Hd : deletedWhenCreated a).
    { intros Hin. simpl in Hin, Ha, Hown. tauto. }
    apply down_quiet_second_pass; [exact Hn| |].
    + clear -Hd. destruct a; try reflexivity; exfalso; apply Hd; simpl; tauto.
    + apply down_clears; try assumption.
      destruct (deletedWhenCreated_block a Hd)
        as (pre & b & post & Hs & _ & _ & w & ->).
      exists w. rewrite Hs. apply in_elt.
Qed.

(** ** Provisioning *)


(** The tester as the first deferred function of [Up] finds it when it
    reads [OnFailureDelete]: after the body, the deferred [cfg.Sync] and the
    artifact upload. *)
Definition deferredSees (t : Tester W) : Tester W :=
  snd (run env (direct uploadToS3)
         (snd (run env (direct Sync) (final (Up_body env t))))).



(** C6.  The stop signal is the channel [stopCreationCh] closed under
    [stopCreationChOnce].  From the state [New] builds, every sequence of
    fire events is safe (no close of a closed channel), leaves the signal
    fired from the first event on, and ends in the state one fire event
    gives, so that a second one changes nothing; and firing a signal that
    has fired under its Once is the identity.  In [Up], at most one call
    through [catchInterrupt] returns an error, an interruption included:
    the first one ends the body, and the deferred function makes no such
    call. *)
Theorem stop_signal_fires_once_surfaces_once :
  (forall n,
     StopSignal.fires (S n) StopSignal.new
     = Ret {| StopSignal.closed := true; StopSignal.done := true |})
  /\ (forall s,
       StopSignal.done s = true -> StopSignal.fire s = Ret s)
  /\ (forall s s',
       StopSignal.closed s = StopSignal.done s ->
       StopSignal.fire s = Ret s' ->
       StopSignal.fired s' = true
       /\ StopSignal.closed s' = StopSignal.done s')
  /\ (forall t : Tester W, gatedErrors (events (Up env t)) <= 1).
Proof.
  split; [|split; [|split]].
  - intros n. cbn [StopSignal.fires]. cbv [StopSignal.fire StopSignal.Do
      StopSignal.close StopSignal.new StopSignal.done StopSignal.closed].
    induction n as [|n IH]; [reflexivity|exact IH].
  - intros s Hs. unfold StopSignal.fire, StopSignal.Do. rewrite Hs.
    reflexivity.
  - intros [c d] s'. simpl. intros <-.
    unfold StopSignal.fire, StopSignal.Do, StopSignal.close,
           StopSignal.fired. simpl.
    destruct c; simpl; intros E; injection E as <-; split; reflexivity.
  - intros t. rewrite Up_eq. cbv zeta. cbn [events].
    change (Banner "UP START" :: events (Up_body env t) ++ ?x :: ?y)
      with ([Banner "UP START"] ++ events (Up_body env t) ++ [x] ++ y).
    rewrite !gatedErrors_app.
    rewrite (gatedErrors_gated _ (proj1 (Up_deferred_spec _ _))).
    pose proof (runBlocksR_one _ Up_blocks_one t) as Hb.
    rewrite <- Up_body_R in Hb.
    change (gatedErrors [Banner "UP START"]) with 0.
    change (gatedErrors [Ev (direct Sync) _]) with 0.
    destruct (outcome (Up_body env t)) as [[e|]|]; lia.
Qed.

(** C9.  [IsUp] answers [(false, nil)] without a health check, and without
    touching the tester, when [cfg] is nil, when [Status] is nil, and when
    [Status.Up] is false; when [Status.Up] is true it runs the health check
    once and answers [true] together with whatever the check returned. *)
Theorem IsUp_checks_health_only_when_up (ts : Tester0 W) :
  ((cfg ts = None
    \/ (exists c, cfg ts = Some c /\ Status c = None)
    \/ (exists c st, cfg ts = Some c /\ Status c = Some st /\ Up_ st = false)) ->
   IsUp env ts = mkResult (Ret (false, None)) ts [])
  /\ (forall c st,
       cfg ts = Some c -> Status c = Some st -> Up_ st = true ->
       exists health,
         health = fst (run env (direct checkHealth) (withCfg ts (withStatus c st)))
         /\ outcome (IsUp env ts) = Ret (true, health)
         /\ events (IsUp env ts) = [Ev (direct checkHealth) health]).
Proof.
  split.
  - intros [H|[(c & Hc & Hs)|(c & st & Hc & Hs & Hu)]]; unfold IsUp.
    + rewrite H. reflexivity.
    + rewrite Hc, Hs. reflexivity.
    + rewrite Hc, Hs, Hu. reflexivity.
  - intros c st Hc Hs Hu. eexists. split; [reflexivity|].
    unfold IsUp. rewrite Hc, Hs, Hu. simpl. split; reflexivity.
Qed.

(** * Further properties of the two sagas *)

Lemma bind_events {A B} (m : M W A) (f : A -> M W B) t :
  events ((m >>= f) t)
  = events (m t)
      ++ match outcome (m t) with
         | Ret a => events (f a (final (m t)))
         | Panic => []
         end.
Proof.
  unfold bind. destruct (m t) as [[a|] t1 e1]; simpl.
  - destruct (f a t1); reflexivity.
  - symmetry. apply app_nil_r.
Qed.

Lemma orReturn_events (m k : M W (option error)) t :
  events ((m >>! k) t)
  = events (m t)
      ++ match outcome (m t) with
         | Ret None => events (k (final (m t)))
         | _ => []
         end.
Proof.
  unfold orReturn. rewrite bind_events.
  destruct (outcome (m t)) as [[e|]|]; reflexivity.
Qed.

(** ** [Up] without compensation *)

(** X1.  [Up] enters [down] only to compensate: when its body succeeded,
    when the body panicked, or when [OnFailureDelete] is off as the deferred
    function reads it, [Up] ends with the deferred [cfg.Sync] and the
    artifact upload and nothing else, never prints the banner of [down],
    and leaves the body's outcome as it is. *)
Theorem Up_without_compensation (t : Tester W) :
  (outcome (Up_body env t) = Ret None
   \/ outcome (Up_body env t) = Panic
   \/ OnFailureDelete (cfg (deferredSees t)) = false) ->
  outcome (Up env t) = outcome (Up_body env t)
  /\ downStarts (events (Up env t)) = 0
  /\ exists s u,
       events (Up env t)
       = Banner "UP START"
           :: events (Up_body env t)
           ++ [Ev (direct Sync) s; Ev (direct uploadToS3) u].
Proof.
  intros H.
  assert (Hd : forall e, outcome (Up_body env t) = Ret (Some e) ->
                 OnFailureDelete
                   (cfg (snd (run env (direct uploadToS3)
                                (snd (run env (direct Sync)
                                        (final (Up_body env t)))))))
                 = false).
  { intros e He. destruct H as [H|[H|H]]; [congruence|congruence|exact H]. }
  clear H. rewrite Up_eq. cbv zeta.
  rewrite (Up_deferred_no_compensation _ _ Hd). cbn [outcome events].
  split; [reflexivity|]. split.
  - change (Banner "UP START" :: events (Up_body env t) ++ ?x)
      with ([Banner "UP START"] ++ events (Up_body env t) ++ x).
    rewrite !downStarts_app.
    destruct (Up_body_respects
                (fun _ => True) (fun ev => isDownStart ev = false)
                (fun _ _ _ => I) (fun _ _ => eq_refl) (fun _ => eq_refl) t I)
      as [_ Hq].
    unfold downStarts at 2. rewrite (filter_none _ _ Hq). reflexivity.
  - eexists _, _. reflexivity.
Qed.

(** ** The wait before the compensation *)

Lemma cleanupWait_in_range (c : Config) :
  (0 < OnFailureDeleteWaitSeconds c <= 9223372036)%Z ->
  cleanupWaitEvents c = [Waited (OnFailureDeleteWaitSeconds c * Second)%Z].
Proof.
  intros H. unfold cleanupWaitEvents, cleanupWait, wrap64, Second.
  set (s := OnFailureDeleteWaitSeconds c) in *.
  assert (E1 : ((s + 2 ^ 63) mod 2 ^ 64 - 2 ^ 63 = s)%Z).
  { rewrite Z.mod_small; lia. }
  rewrite E1.
  assert (E2 : ((s * 1000000000 + 2 ^ 63) mod 2 ^ 64 - 2 ^ 63
                = s * 1000000000)%Z).
  { rewrite Z.mod_small; lia. }
  rewrite E2.
  destruct (0 <? s * 1000000000)%Z eqn:E; [reflexivity|].
  apply Z.ltb_ge in E. lia.
Qed.

Lemma cleanupWait_not_positive (c : Config) :
  (- 9223372036 <= OnFailureDeleteWaitSeconds c <= 0)%Z ->
  cleanupWaitEvents c = [].
Proof.
  intros H. unfold cleanupWaitEvents, cleanupWait, wrap64, Second.
  set (s := OnFailureDeleteWaitSeconds c) in *.
  assert (E1 : ((s + 2 ^ 63) mod 2 ^ 64 - 2 ^ 63 = s)%Z).
  { rewrite Z.mod_small; lia. }
  rewrite E1.
  assert (E2 : ((s * 1000000000 + 2 ^ 63) mod 2 ^ 64 - 2 ^ 63
                = s * 1000000000)%Z).
  { rewrite Z.mod_small; lia. }
  rewrite E2.
  destruct (0 <? s * 1000000000)%Z eqn:E; [|reflexivity].
  apply Z.ltb_lt in E. lia.
Qed.

Lemma cleanupWait_overflow (c : Config) :
  (9223372036 < OnFailureDeleteWaitSeconds c <= 18446744073)%Z ->
  cleanupWaitEvents c = [].
Proof.
  intros H. unfold cleanupWaitEvents, cleanupWait, wrap64, Second.
  set (s := OnFailureDeleteWaitSeconds c) in *.
  assert (E1 : ((s + 2 ^ 63) mod 2 ^ 64 - 2 ^ 63 = s)%Z).
  { rewrite Z.mod_small; lia. }
  rewrite E1.
  assert (E2 : ((s * 1000000000 + 2 ^ 63) mod 2 ^ 64 - 2 ^ 63
                = s * 1000000000 - 2 ^ 64)%Z).
  { replace (s * 1000000000 + 2 ^ 63)%Z
      with ((s * 1000000000 - 2 ^ 63) + 1 * 2 ^ 64)%Z by lia.
    rewrite Z.mod_add by lia. rewrite Z.mod_small; lia. }
  rewrite E2.
  destruct (0 <? s * 1000000000 - 2 ^ 64)%Z eqn:E; [|reflexivity].
  apply Z.ltb_lt in E. lia.
Qed.

(** X2.  When [Up] compensates, the deferred function waits on the stop
    channel, the signal channel and a timer of [OnFailureDeleteWaitSeconds]
    seconds right before it enters [down], once; for a value that is zero
    or negative there is no wait, and neither is there one for a value
    from 9223372037 to 18446744073, whose product with [time.Second]
    overflows [time.Duration] to a negative number. *)
Theorem Up_waits_before_compensation (t : Tester W) (e : error) :
  outcome (Up_body env t) = Ret (Some e) ->
  OnFailureDelete (cfg (deferredSees t)) = true ->
  exists s u,
    let before :=
      Banner "UP START"
        :: events (Up_body env t)
        ++ [Ev (direct Sync) s; Ev (direct uploadToS3) u] in
    let secs := OnFailureDeleteWaitSeconds (cfg (deferredSees t)) in
    ((0 < secs <= 9223372036)%Z ->
     events (Up env t)
     = before ++ Waited (secs * Second)%Z
         :: events (down env (deferredSees t)))
    /\ ((- 9223372036 <= secs <= 0)%Z
        \/ (9223372036 < secs <= 18446744073)%Z ->
        events (Up env t) = before ++ events (down env (deferredSees t))).
Proof.
  intros Hb Hon. unfold deferredSees in *.
  set (t1 := snd (run env (direct Sync) (final (Up_body env t)))) in *.
  set (t2 := snd (run env (direct uploadToS3) t1)) in *.
  exists (fst (run env (direct Sync) (final (Up_body env t)))),
         (fst (run env (direct uploadToS3) t1)).
  cbv zeta.
  assert (Hev : events (Up env t)
                = (Banner "UP START"
                     :: events (Up_body env t)
                     ++ [Ev (direct Sync)
                           (fst (run env (direct Sync) (final (Up_body env t))));
                         Ev (direct uploadToS3)
                           (fst (run env (direct uploadToS3) t1))])
                  ++ cleanupWaitEvents (cfg t2) ++ events (down env t2)).
  { rewrite Up_eq. cbv zeta. cbn [events]. rewrite Hb. fold t1.
    rewrite (Up_deferred_compensates _ _ Hon). cbv zeta. cbn [events].
    fold t2. cbn [app]. rewrite <- app_assoc. reflexivity. }
  split.
  - intros Hs. rewrite Hev, (cleanupWait_in_range _ Hs). reflexivity.
  - intros [Hs|Hs]; rewrite Hev.
    + rewrite (cleanupWait_not_positive _ Hs). reflexivity.
    + rewrite (cleanupWait_overflow _ Hs). reflexivity.
Qed.

(** ** The order of the calls *)

(** [Subseq l o]: [l] is [o] with some of its elements left out. *)
Inductive Subseq {A : Type} : list A -> list A -> Prop :=
| Subseq_nil : Subseq [] []
| Subseq_skip x l o : Subseq l o -> Subseq l (x :: o)
| Subseq_take x l o : Subseq l o -> Subseq (x :: l) (x :: o).

Lemma Subseq_nil_l {A} (o : list A) : Subseq [] o.
Proof. induction o; constructor; assumption. Qed.

Lemma Subseq_refl {A} (l : list A) : Subseq l l.
Proof. induction l; constructor; assumption. Qed.

Lemma Subseq_app {A} (l1 l2 o1 o2 : list A) :
  Subseq l1 o1 -> Subseq l2 o2 -> Subseq (l1 ++ l2) (o1 ++ o2).
Proof.
  induction 1; intros H2; simpl.
  - exact H2.
  - apply Subseq_skip. auto.
  - apply Subseq_take. auto.
Qed.

Lemma Subseq_app_l {A} (l o1 o2 : list A) :
  Subseq l o1 -> Subseq l (o1 ++ o2).
Proof.
  intros H. rewrite <- (app_nil_r l).
  apply Subseq_app; [exact H|apply Subseq_nil_l].
Qed.

Lemma Subseq_In {A} (l o : list A) x : Subseq l o -> In x l -> In x o.
Proof.
  induction 1 as [|y l o _ IH|y l o _ IH]; simpl; intros Hin.
  - exact Hin.
  - right. auto.
  - destruct Hin as [->|Hin]; [left; reflexivity|right; auto].
Qed.

Lemma Subseq_NoDup {A} (l o : list A) : Subseq l o -> NoDup o -> NoDup l.
Proof.
  induction 1 as [|y l o _ IH|y l o Hs IH]; intros Hn.
  - constructor.
  - inversion Hn; auto.
  - inversion Hn as [|? ? Hy Ho]; subst. constructor; [|auto].
    intros Hin. apply Hy. eapply Subseq_In; eauto.
Qed.

Lemma Subseq_cons_inv {A} (x : A) l o : Subseq (x :: l) o -> Subseq l o.
Proof.
  intros H. remember (x :: l) as xl eqn:E. revert x l E.
  induction H as [|y l' o _ IH|y l' o Hs _]; intros x l E.
  - discriminate E.
  - apply Subseq_skip. eapply IH; eauto.
  - injection E as -> ->. apply Subseq_skip. exact Hs.
Qed.

Lemma Subseq_drop {A} (l1 l2 o : list A) :
  Subseq (l1 ++ l2) o -> Subseq l2 o.
Proof.
  induction l1 as [|x l1 IH]; simpl; intros H; [exact H|].
  apply IH. eapply Subseq_cons_inv; eauto.
Qed.

(** What follows an element of [l] is drawn from what follows its first
    occurrence in [o]. *)
Lemma Subseq_after {A} (o1 : list A) : forall l1 x l2 o2,
  ~ In x o1 ->
  Subseq (l1 ++ x :: l2) (o1 ++ x :: o2) -> Subseq l2 o2.
Proof.
  induction o1 as [|y o1 IH]; intros l1 x l2 o2 Hx H; simpl in *.
  - apply Subseq_drop in H.
    inversion H as [|? ? ? Hs|? ? ? Hs]; subst.
    + eapply Subseq_cons_inv; eauto.
    + exact Hs.
  - inversion H as [|? ? ? Hs|? l' ? Hs E]; subst.
    + eapply IH; eauto.
    + destruct l1 as [|z l1]; simpl in E.
      * injection E as Ey _. exfalso. apply Hx. left. exact Ey.
      * injection E as _ El. subst l'. eapply IH; eauto.
Qed.

(** The teardown calls of a run: the [Delete] of an add-on tester and the
    fixed infrastructure deletions. *)
Definition teardownCall (e : Event) : list Op :=
  match e with
  | Ev (direct (Delete a)) _ => [Delete a]
  | Ev (direct o) _ => if isInfraDelete o then [o] else []
  | _ => []
  end.

Definition teardownCalls (evs : list Event) : list Op :=
  flat_map teardownCall evs.

(** The blocks of [down] in source order, each with the call it makes. *)
Definition teardownOrder : list Op :=
  [ deleteKeyPair;
    Delete StresserRemote; Delete StresserLocal;
    Delete ClusterLoaderRemote; Delete ClusterLoaderRemote;
    Delete HollowNodesRemote; Delete HollowNodesLocal;
    Delete Kubeflow; Delete JupyterHub; Delete Wordpress;
    Delete IRSAFargate; Delete IRSA; Delete Fargate;
    Delete SecretsLocal; Delete SecretsRemote;
    Delete ConfigMapsLocal; Delete CSRsRemote;
    Delete CronJobs; Delete JobsEcho; Delete JobsPi;
    Delete ALB2048; Delete NLBHelloWorld;
    Delete PrometheusGrafana; Delete KubernetesDashboard;
    Delete AppMesh; Delete CSIEBS; Delete Conformance;
    Delete ManagedNodeGroups; Delete NodeGroups;
    deleteCluster; deleteEncryption; deleteClusterRole;
    deleteVPC; deleteS3 ].

Lemma teardownCalls_app e1 e2 :
  teardownCalls (e1 ++ e2) = teardownCalls e1 ++ teardownCalls e2.
Proof. apply flat_map_app. Qed.

Lemma downStep_order s errs t :
  Subseq (teardownCalls (events (downStep env s errs t))) (callsOf s).
Proof.
  destruct s as [o|g callee w| |a|]; unfold_step; split_step;
    try destruct o; simpl;
    first [apply Subseq_refl | apply Subseq_nil_l].
Qed.

Lemma runStepsR_order l : forall errs t,
  Subseq (teardownCalls (events (runStepsR l errs t))) (flat_map callsOf l).
Proof.
  induction l as [|s l IH]; intros errs t; cbn [runStepsR flat_map].
  - apply Subseq_nil.
  - rewrite bind_events, teardownCalls_app.
    apply Subseq_app; [apply downStep_order|].
    destruct (outcome (downStep env s errs t)); [apply IH|apply Subseq_nil_l].
Qed.

Lemma down_order t :
  Subseq (teardownCalls (events (down env t))) teardownOrder.
Proof.
  rewrite down_eq. cbv zeta. cbn [events].
  set (t0 := snd (run env (direct uploadToS3) t)).
  change (Banner "DOWN START" :: Ev (direct uploadToS3) ?u :: ?b ++ ?s)
    with ([Banner "DOWN START"; Ev (direct uploadToS3) u] ++ b ++ s).
  rewrite !teardownCalls_app. cbn [teardownCalls flat_map teardownCall
    isInfraDelete app]. rewrite app_nil_r.
  rewrite down_body_steps, bind_events, teardownCalls_app.
  assert (Hf : forall errs t', teardownCalls (events (down_finish env errs t')) = []).
  { intros errs t'. unfold down_finish.
    destruct (0 <? List.length errs)%nat; reflexivity. }
  destruct (outcome (runStepsR down_steps [] t0)); rewrite ?Hf;
    cbn [teardownCalls flat_map]; rewrite app_nil_r;
    apply (runStepsR_order down_steps).
Qed.

Lemma teardownCalls_In o r evs :
  teardownCall (Ev (direct o) r) = [o] ->
  In (Ev (direct o) r) evs -> In o (teardownCalls evs).
Proof.
  intros Ho Hin. apply in_split in Hin. destruct Hin as (e1 & e2 & ->).
  rewrite teardownCalls_app. apply in_or_app. right.
  unfold teardownCalls. cbn [flat_map]. rewrite Ho. left. reflexivity.
Qed.

(** What [down] still tears down after the call [o], which stands at
    position [k] of the order. *)
Lemma down_after o k t pre r post :
  teardownCall (Ev (direct o) r) = [o] ->
  nth_error teardownOrder k = Some o ->
  ~ In o (firstn k teardownOrder) ->
  events (down env t) = pre ++ Ev (direct o) r :: post ->
  Subseq (teardownCalls post) (skipn (S k) teardownOrder).
Proof.
  intros Ho Hk Hn Hev.
  pose proof (down_order t) as Hs.
  rewrite Hev, teardownCalls_app in Hs.
  change (Ev (direct o) r :: post) with ([Ev (direct o) r] ++ post) in Hs.
  rewrite teardownCalls_app in Hs.
  unfold teardownCalls at 2 in Hs. cbn [flat_map] in Hs.
  rewrite Ho, app_nil_r in Hs. cbn [app] in Hs.
  rewrite (nth_error_cut _ _ _ Hk) in Hs.
  eapply Subseq_after; eauto.
Qed.

(** X3.  [down] tears down in one fixed order, whatever is enabled and
    whatever fails: the calls it makes to the [Delete] of an add-on tester
    and to the fixed infrastructure deletions are, in the order made, the
    list [teardownOrder] with some entries left out.  In particular, after
    the [Delete] of the node groups or of the managed node groups no add-on
    is deleted any more (only the node groups, after the managed ones), and
    after the deletion of the control plane no [Delete] of any tester is
    called. *)
Theorem down_tears_down_in_order (t : Tester W) :
  Subseq (teardownCalls (events (down env t))) teardownOrder
  /\ (forall ng pre r post a r',
        In ng [NodeGroups; ManagedNodeGroups] ->
        events (down env t) = pre ++ Ev (direct (Delete ng)) r :: post ->
        In (Ev (direct (Delete a)) r') post ->
        ng = ManagedNodeGroups /\ a = NodeGroups)
  /\ (forall pre r post a r',
        events (down env t) = pre ++ Ev (direct deleteCluster) r :: post ->
        ~ In (Ev (direct (Delete a)) r') post).
Proof.
  split; [apply down_order|]. split.
  - intros ng pre r post a r' Hng Hev Hin.
    assert (Ha : In (Delete a) (teardownCalls post)).
    { eapply teardownCalls_In; eauto. }
    destruct Hng as [<-|[<-|[]]].
    + pose proof (down_after (Delete NodeGroups) 28 t pre r post
                    eq_refl eq_refl) as Hs.
      assert (Hn : ~ In (Delete NodeGroups) (firstn 28 teardownOrder)).
      { simpl. intros H.
        repeat (destruct H as [H|H]; [discriminate H|]). exact H. }
      specialize (Hs Hn Hev).
      apply (Subseq_In _ _ _ Hs) in Ha. simpl in Ha.
      repeat (destruct Ha as [Ha|Ha]; [discriminate Ha|]). destruct Ha.
    + pose proof (down_after (Delete ManagedNodeGroups) 27 t pre r post
                    eq_refl eq_refl) as Hs.
      assert (Hn : ~ In (Delete ManagedNodeGroups) (firstn 27 teardownOrder)).
      { simpl. intros H.
        repeat (destruct H as [H|H]; [discriminate H|]). exact H. }
      specialize (Hs Hn Hev).
      apply (Subseq_In _ _ _ Hs) in Ha. simpl in Ha.
      destruct Ha as [Ha|Ha].
      * injection Ha as <-. split; reflexivity.
      * repeat (destruct Ha as [Ha|Ha]; [discriminate Ha|]). destruct Ha.
  - intros pre r post a r' Hev Hin.
    assert (Ha : In (Delete a) (teardownCalls post)).
    { eapply teardownCalls_In; eauto. }
    pose proof (down_after deleteCluster 29 t pre r post eq_refl eq_refl) as Hs.
    assert (Hn : ~ In deleteCluster (firstn 29 teardownOrder)).
    { simpl. intros H.
      repeat (destruct H as [H|H]; [discriminate H|]). exact H. }
    specialize (Hs Hn Hev).
    apply (Subseq_In _ _ _ Hs) in Ha. simpl in Ha.
    repeat (destruct Ha as [Ha|Ha]; [discriminate Ha|]). destruct Ha.
Qed.

(** The add-ons whose [Create] a run handed to [catchInterrupt]. *)
Definition created (e : Event) : list AddOn :=
  match e with
  | Ev (catchInterrupt (Create a)) _ => [a]
  | _ => []
  end.

Definition creations (evs : list Event) : list AddOn := flat_map created evs.

(** The create blocks of [Up] in source order. *)
Definition createOrder : list AddOn :=
  [ NodeGroups; ManagedNodeGroups;
    Conformance; CSIEBS; AppMesh; KubernetesDashboard; PrometheusGrafana;
    NLBHelloWorld; ALB2048; JobsPi; JobsEcho; CronJobs;
    CSRsLocal; CSRsRemote; ConfigMapsLocal; ConfigMapsRemote;
    SecretsLocal; SecretsRemote;
    Fargate; IRSA; IRSAFargate; Wordpress; JupyterHub; Kubeflow;
    HollowNodesLocal; HollowNodesRemote;
    ClusterLoaderLocal; ClusterLoaderRemote;
    StresserLocal; StresserRemote ].

Lemma creations_app e1 e2 :
  creations (e1 ++ e2) = creations e1 ++ creations e2.
Proof. apply flat_map_app. Qed.

Lemma creations_gated evs : creations (gatedEvents evs) = creations evs.
Proof.
  induction evs as [|e evs IH]; [reflexivity|].
  destruct e as [[o|o] r| | |]; simpl; try exact IH.
  unfold creations in *. cbn [flat_map]. rewrite IH. reflexivity.
Qed.

(** [emits l m]: the [Create] calls of [m] are drawn from [l], in order. *)
Definition emits (l : list AddOn) (m : M W (option error)) : Prop :=
  forall t, Subseq (creations (events (m t))) l.

Lemma emits_orReturn l1 l2 m k :
  emits l1 m -> emits l2 k -> emits (l1 ++ l2) (m >>! k).
Proof.
  intros Hm Hk t. rewrite orReturn_events, creations_app.
  apply Subseq_app; [apply Hm|].
  destruct (outcome (m t)) as [[e|]|];
    [apply Subseq_nil_l|apply Hk|apply Subseq_nil_l].
Qed.

Lemma emits_ret r : emits [] (ret r).
Proof. intros t. apply Subseq_nil. Qed.

(** A computation none of whose calls is a [Create]. *)
Lemma emits_none m :
  respects (fun _ => True) (fun e => created e = []) m -> emits [] m.
Proof.
  intros H t. destruct (H t I) as [_ Hq].
  induction Hq as [|e evs He _ IH]; [apply Subseq_nil|].
  unfold creations in *. cbn [flat_map]. rewrite He. exact IH.
Qed.

Ltac no_create :=
  apply emits_none;
  unfold gated, settleAndCheckHealth, commandHook, gpuBootstrap, gpuStep,
         uploadArtifacts, fetchNodeGroupLogs, aggregateResults, aggregate,
         gated;
  repeat first
    [ apply respects_ret
    | apply respects_panic
    | apply respects_gets
    | apply respects_sleep; reflexivity
    | apply respects_call; [intros ? _; exact I|intros ?; reflexivity]
    | apply respects_bind; [|intros ?]
    | apply respects_orReturn
    | match goal with
      | |- respects _ _ (if ?b then _ else _) => destruct b
      | |- respects _ _ (match ?x with Some _ => _ | None => _ end) =>
          destruct x
      end ].

Lemma emits_create a : emits [a] (createAddOn env a).
Proof.
  intros t. unfold createAddOn, gated, bind, gets, call, ret.
  cbv zeta. simpl.
  destruct (Enabled (cfg t) a); simpl; [|apply Subseq_nil_l].
  destruct (tester t a); simpl; [apply Subseq_refl|apply Subseq_nil_l].
Qed.

Lemma emits_conformance : emits [Conformance] (createConformance env).
Proof.
  intros t. unfold createConformance, gated, bind, gets, call, ret.
  cbv zeta. simpl.
  destruct (Enabled (cfg t) Conformance); simpl; [|apply Subseq_nil_l].
  destruct (tester t Conformance); simpl;
    [apply Subseq_refl|apply Subseq_nil_l].
Qed.

Lemma runBlocksR_emits ls bs :
  Forall2 emits ls bs -> emits (List.concat ls) (runBlocksR bs).
Proof.
  induction 1 as [|l b ls bs Hb _ IH]; cbn [List.concat runBlocksR].
  - apply emits_ret.
  - apply emits_orReturn; assumption.
Qed.

(** The add-on each block of [Up_blocks] may create. *)
Definition blockCreates : list (list AddOn) :=
  [ []; []; []; []; []; []; []; [];
    [NodeGroups]; [ManagedNodeGroups]; [];
    [Conformance]; [CSIEBS]; [AppMesh]; [KubernetesDashboard];
    [PrometheusGrafana]; []; [];
    [NLBHelloWorld]; [ALB2048]; [JobsPi]; [JobsEcho]; [CronJobs];
    [CSRsLocal]; [CSRsRemote]; [ConfigMapsLocal]; [ConfigMapsRemote];
    [SecretsLocal]; [SecretsRemote];
    [Fargate]; [IRSA]; [IRSAFargate]; [Wordpress]; [JupyterHub]; [Kubeflow];
    [HollowNodesLocal]; [HollowNodesRemote];
    [ClusterLoaderLocal]; [ClusterLoaderRemote];
    [StresserLocal]; [StresserRemote];
    []; []; []; []; []; [] ].

Lemma Up_blocks_emit : Forall2 emits blockCreates (Up_blocks env).
Proof.
  unfold blockCreates, Up_blocks.
  repeat (apply Forall2_cons; [|]); try apply Forall2_nil;
    first [ apply emits_create | apply emits_conformance | no_create ].
Qed.

Lemma Up_creations t :
  creations (events (Up env t)) = creations (events (Up_body env t)).
Proof. rewrite <- creations_gated, Up_gated. apply creations_gated. Qed.

(** X4.  [Up] creates add-ons in one fixed order, each at most once: the
    add-ons whose [Create] it hands to [catchInterrupt] are, in the order
    of the calls, the list [createOrder] (node groups, managed node groups,
    then the add-ons) with some entries left out.  And no [Create] is
    called before the six prerequisite steps have all succeeded. *)
Theorem Up_creates_in_order (t : Tester W) :
  Subseq (creations (events (Up env t))) createOrder
  /\ NoDup (creations (events (Up env t)))
  /\ (creations (events (Up env t)) <> [] ->
      exists rest,
        gatedEvents (events (Up env t)) = map succeeded prerequisites ++ rest).
Proof.
  assert (Hs : Subseq (creations (events (Up env t))) createOrder).
  { rewrite Up_creations, Up_body_R.
    apply (runBlocksR_emits _ _ Up_blocks_emit). }
  split; [exact Hs|]. split.
  - apply (Subseq_NoDup _ _ Hs).
    unfold createOrder.
    repeat (apply NoDup_cons;
            [simpl; intros H;
             repeat (destruct H as [H|H]; [discriminate H|]); exact H|]).
    apply NoDup_nil.
  - intros Hne. rewrite Up_gated.
    assert (Hb : Up_body env t
                 = (runBlocksR (map (gated env) prerequisites)
                      >>! runBlocksR (skipn 6 (Up_blocks env))) t).
    { rewrite Up_body_R, Up_blocks_prerequisites at 1. apply runBlocksR_app. }
    destruct (gated_run prerequisites t) as [[H1 H2]|(k & e & Hk & H1 & H2)].
    + rewrite Hb, (orReturn_None _ _ _ H1). cbn [events].
      rewrite gatedEvents_app, H2, gatedEvents_succeeded.
      eexists. reflexivity.
    + exfalso. apply Hne. rewrite Up_creations, Hb.
      rewrite (orReturn_Some _ _ _ _ H1). cbn [events]. rewrite H2.
      do 6 (destruct k as [|k]; [reflexivity|]).
      simpl in Hk. lia.
Qed.

(** ** No panic when the handles are set *)

(** Every tester handle, the GPU tester's included, is non-nil. *)
Definition handlesSet (t : Tester W) : Prop :=
  (forall a, tester t a = true) /\ gpuTester t = true.

(** No collaborator resets a handle. *)
Definition keepsHandles : Prop :=
  forall c t, handlesSet t -> handlesSet (snd (run env c t)).

(** [m] returns, handles still set, when started with the handles set. *)
Definition returns {A} (m : M W A) : Prop :=
  forall t, handlesSet t ->
    handlesSet (final (m t)) /\ exists a, outcome (m t) = Ret a.

Lemma returns_ret {A} (a : A) : returns (ret a).
Proof. intros t Ht. split; [exact Ht|exists a; reflexivity]. Qed.

Lemma returns_gets {A} (f : Tester W -> A) : returns (gets f).
Proof. intros t Ht. split; [exact Ht|eexists; reflexivity]. Qed.

Lemma returns_sleep d : returns (@sleep W d).
Proof. intros t Ht. split; [exact Ht|eexists; reflexivity]. Qed.

Lemma returns_wait d : returns (@waitInterruptible W d).
Proof. intros t Ht. split; [exact Ht|eexists; reflexivity]. Qed.

Lemma returns_banner b : returns (@banner W b).
Proof. intros t Ht. split; [exact Ht|eexists; reflexivity]. Qed.

Lemma returns_call c : keepsHandles -> returns (call env c).
Proof.
  intros Hk t Ht. split; [apply Hk, Ht|eexists; reflexivity].
Qed.

Lemma returns_bind {A B} (m : M W A) (f : A -> M W B) :
  returns m -> (forall a, returns (f a)) -> returns (m >>= f).
Proof.
  intros Hm Hf t Ht. destruct (Hm t Ht) as [Ht1 [a Ha]].
  rewrite (bind_Ret _ _ _ Ha). cbn [final outcome].
  apply Hf, Ht1.
Qed.

Lemma returns_orReturn (m k : M W (option error)) :
  returns m -> returns k -> returns (m >>! k).
Proof.
  intros Hm Hk. unfold orReturn. apply returns_bind; [exact Hm|].
  intros [e|]; [apply returns_ret|exact Hk].
Qed.

Lemma returns_defer {A} (body : M W A) (d : Outcome A -> M W unit) :
  returns body -> (forall o, returns (d o)) -> returns (defer body d).
Proof.
  intros Hb Hd t Ht. destruct (Hb t Ht) as [Ht1 [a Ha]]. unfold defer.
  destruct (body t) as [o t1 e1]; simpl in *. subst o.
  destruct (Hd (Ret a) t1 Ht1) as [Ht2 [u Hu]].
  destruct (d (Ret a) t1) as [o2 t2 e2]; simpl in *. subst o2.
  split; [exact Ht2|exists a; reflexivity].
Qed.

(** A method call on a handle: the nil branch is not taken. *)
Lemma returns_handle {A} a (k : bool -> M W A) :
  returns (k true) -> returns (gets (fun t => tester t a) >>= k).
Proof.
  intros Hk t Ht. rewrite bind_gets.
  rewrite (proj1 Ht a). apply Hk, Ht.
Qed.

Lemma returns_gpu {A} (k : bool -> M W A) :
  returns (k true) -> returns (gets (@gpuTester _ _) >>= k).
Proof.
  intros Hk t Ht. rewrite bind_gets.
  rewrite (proj2 Ht). apply Hk, Ht.
Qed.

Ltac returns_tac Hk :=
  repeat first
    [ apply returns_ret
    | apply returns_sleep
    | apply returns_wait
    | apply returns_banner
    | apply (returns_call _ Hk)
    | apply returns_handle; cbv beta iota
    | apply returns_gpu; cbv beta iota
    | apply returns_gets
    | apply returns_bind; [|intros ?]
    | apply returns_orReturn
    | match goal with
      | |- returns (if ?b then _ else _) => destruct b
      | |- returns (match ?x with Some _ => _ | None => _ end) => destruct x
      end ].

Lemma downStep_returns s errs : keepsHandles -> returns (downStep env s errs).
Proof.
  intros Hk.
  destruct s; unfold downStep, deleteInfra, deleteAddOn, waitLoadBalancers,
                     deleteNodeGroup, waitVPC;
    returns_tac Hk.
Qed.

Lemma runStepsR_returns l : forall errs,
  keepsHandles -> returns (runStepsR l errs).
Proof.
  induction l as [|s l IH]; intros errs Hk; cbn [runStepsR].
  - apply returns_ret.
  - apply returns_bind; [apply downStep_returns, Hk|].
    intros e. apply IH, Hk.
Qed.

Lemma returns_ext {A} (m m' : M W A) :
  (forall t, m t = m' t) -> returns m' -> returns m.
Proof. intros E H t Ht. rewrite E. apply H, Ht. Qed.

Lemma down_returns : keepsHandles -> returns (down env).
Proof.
  intros Hk. unfold down.
  apply returns_bind; [apply returns_banner|intros _].
  apply returns_bind; [apply (returns_call _ Hk)|intros _].
  apply returns_defer.
  - eapply returns_ext; [apply down_body_steps|].
    apply returns_bind; [apply runStepsR_returns, Hk|].
    intros errs. unfold down_finish.
    destruct (0 <? List.length errs)%nat;
      [apply returns_ret|apply (returns_call _ Hk)].
  - intros o. unfold down_deferred. returns_tac Hk.
Qed.

Lemma runBlocksR_returns l :
  Forall returns l -> returns (runBlocksR l).
Proof.
  induction 1 as [|b l Hb _ IH]; cbn [runBlocksR].
  - apply returns_ret.
  - apply returns_orReturn; assumption.
Qed.

Lemma Up_blocks_return : keepsHandles -> Forall returns (Up_blocks env).
Proof.
  intros Hk. unfold Up_blocks.
  repeat (apply Forall_cons; [|]); try apply Forall_nil;
    unfold gated, settleAndCheckHealth, commandHook, createAddOn,
           gpuBootstrap, gpuStep, createConformance, uploadArtifacts,
           fetchNodeGroupLogs, aggregateResults, aggregate, gated;
    returns_tac Hk.
Qed.

Lemma Up_returns : keepsHandles -> returns (Up env).
Proof.
  intros Hk. unfold Up.
  apply returns_bind; [apply returns_banner|intros _].
  apply returns_defer; [apply returns_defer|].
  - eapply returns_ext; [apply Up_body_R|].
    apply runBlocksR_returns, Up_blocks_return, Hk.
  - intros o. unfold Up_deferred_sync. returns_tac Hk.
  - intros o. unfold Up_deferred.
    apply returns_bind; [apply (returns_call _ Hk)|intros _].
    destruct o as [[e|]|]; try apply returns_ret.
    apply returns_bind; [apply returns_gets|intros c].
    destruct (negb (OnFailureDelete c)); [apply returns_ret|].
    apply returns_bind.
    + destruct (0 <? _)%Z; [apply returns_wait|apply returns_ret].
    + intros _. apply returns_bind; [apply down_returns, Hk|intros _].
      apply returns_ret.
Qed.

(** X5.  Neither saga panics when the handles of all sub-testers are set
    and no collaborator resets one: started from such a tester, [down] and
    [Up] both run to their return statement, that of [Up] also through the
    compensation it may start. *)
Theorem sagas_return_when_handles_are_set (t : Tester W) :
  keepsHandles -> handlesSet t ->
  (exists r, outcome (down env t) = Ret r)
  /\ (exists r, outcome (Up env t) = Ret r).
Proof.
  intros Hk Ht. split.
  - apply (down_returns Hk t Ht).
  - apply (Up_returns Hk t Ht).
Qed.

(** ** The operator's command hooks *)

(** X6.  A command hook of [Up] (after the cluster, after the add-ons) does
    nothing when no command is configured.  Otherwise it never returns the
    error of the command itself: it fails only when the command references
    cannot be evaluated, with that error and before the command is run, or
    when the output file cannot be written.  The command run and its
    timeout are those of the configuration as [EvaluateCommandRefs] left
    it; the file written is the output path of the configuration as it is
    after the run, and it holds the command of that configuration, the
    line [# output], the bytes the run returned and, after a failed run,
    the line [# error] and the error text; the error for a failed write
    quotes the output path and carries the error of the write. *)
Theorem commandHook_fails_only_on_refs_or_write
    (cmd : Config -> string) (timeout : Config -> Duration)
    (path : Config -> string) (t : Tester W) :
  (cmd (cfg t) = EmptyString ->
   commandHook env cmd timeout path t = mkResult (Ret None) t [])
  /\ (cmd (cfg t) <> EmptyString ->
      forall e,
        fst (run env (direct EvaluateCommandRefs) t) = Some e ->
        outcome (commandHook env cmd timeout path t) = Ret (Some e)
        /\ events (commandHook env cmd timeout path t)
           = [Ev (direct EvaluateCommandRefs) (Some e)])
  /\ (cmd (cfg t) <> EmptyString ->
      fst (run env (direct EvaluateCommandRefs) t) = None ->
      let t1 := snd (run env (direct EvaluateCommandRefs) t) in
      let ran :=
        run env (direct (runCommand (cmd (cfg t1)) (timeout (cfg t1)))) t1 in
      let t2 := snd ran in
      let content :=
        match fst ran with
        | Some e =>
            (cmd (cfg t2) ++ nl ++ nl ++ "# output" ++ nl
               ++ commandOutput env t2
               ++ nl ++ nl ++ "# error" ++ nl ++ e)%string
        | None =>
            (cmd (cfg t2) ++ nl ++ nl ++ "# output" ++ nl
               ++ commandOutput env t2)%string
        end in
      let written := run env (direct (WriteFile (path (cfg t2)) content)) t2 in
      events (commandHook env cmd timeout path t)
      = [ Ev (direct EvaluateCommandRefs) None;
          Ev (direct (runCommand (cmd (cfg t1)) (timeout (cfg t1)))) (fst ran);
          Ev (direct (WriteFile (path (cfg t2)) content)) (fst written) ]
      /\ outcome (commandHook env cmd timeout path t)
         = Ret (match fst written with
                | Some e =>
                    Some ("failed to write file "
                            ++ quote env (path (cfg (snd written)))
                            ++ " (" ++ e ++ ")")%string
                | None => None
                end)).
Proof.
  split; [|split].
  - intros H. unfold commandHook. rewrite bind_gets, H. reflexivity.
  - intros H e He. unfold commandHook. rewrite bind_gets.
    destruct (String.eqb (cmd (cfg t)) "") eqn:E;
      [apply String.eqb_eq in E; contradiction|].
    rewrite (orReturn_Some _ _ _ e) by (unfold call; simpl; congruence).
    unfold call. simpl. rewrite He. split; reflexivity.
  - intros H He. cbv zeta. unfold commandHook. rewrite bind_gets.
    destruct (String.eqb (cmd (cfg t)) "") eqn:E;
      [apply String.eqb_eq in E; contradiction|].
    rewrite orReturn_None by (unfold call; simpl; congruence).
    cbn [outcome events].
    change (events (call env (direct EvaluateCommandRefs) t))
      with [Ev (direct EvaluateCommandRefs)
               (fst (run env (direct EvaluateCommandRefs) t))].
    rewrite He.
    change (final (call env (direct EvaluateCommandRefs) t))
      with (snd (run env (direct EvaluateCommandRefs) t)).
    set (t1 := snd (run env (direct EvaluateCommandRefs) t)).
    unfold bind, gets, call, ret. cbv zeta. simpl.
    destruct (run env (direct (runCommand (cmd (cfg t1)) (timeout (cfg t1)))) t1)
      as [rerr t2] eqn:Hr. simpl.
    destruct rerr as [e|]; simpl.
    + destruct (run env (direct (WriteFile _ _)) t2) as [werr t3] eqn:Hw.
      simpl. destruct werr; split; reflexivity.
    + destruct (run env (direct (WriteFile _ _)) t2) as [werr t3] eqn:Hw.
      simpl. destruct werr; split; reflexivity.
Qed.

(** ** The sub-testers *)

Variable construct : SubTester -> Tester W -> (bool * option error) * Tester W.

(** The blocks of [createSubTesters] that do not look at the error of
    their constructor. *)
Definition uncheckedSubTesters : list SubTester :=
  [ sub Conformance; sub CSIEBS; sub AppMesh; sub KubernetesDashboard;
    sub PrometheusGrafana; sub JupyterHub ].

Lemma buildFrom_trace l : forall err t,
  exists pre last,
    snd (buildFrom env construct l err t) = pre ++ [last]
    /\ (last = Synced (fst (fst (buildFrom env construct l err t)))
        \/ exists s h e,
             last = Constructed s h (Some e)
             /\ fst (fst (buildFrom env construct l err t)) = Some e
             /\ In (s, checked) l)
    /\ forall s h e, In (Constructed s h (Some e)) pre -> In (s, unchecked) l.
Proof.
  induction l as [|[s k] l IH]; intros err t; cbn [buildFrom].
  - exists [], (Synced (fst (run env (direct Sync) t))). cbv zeta. simpl.
    split; [reflexivity|]. split; [left; reflexivity|intros ? ? ? []].
  - destruct (wanted s (cfg t)).
    + cbv zeta.
      set (ht := construct s t).
      set (t' := setHandle s (fst (fst ht)) (snd ht)).
      destruct k.
      * destruct (snd (fst ht)) as [e|] eqn:He.
        -- exists [], (Constructed s (fst (fst ht)) (Some e)). simpl.
           split; [reflexivity|]. split; [|intros ? ? ? []].
           right. exists s, (fst (fst ht)), e. auto.
        -- destruct (IH None t') as (pre & last & Htr & Hlast & Hpre).
           destruct (buildFrom env construct l None t') as [[r t''] tr].
           simpl in *. subst tr.
           exists (Constructed s (fst (fst ht)) None :: pre), last.
           split; [reflexivity|]. split.
           ++ destruct Hlast as [->|(s0 & h0 & e0 & -> & -> & Hin)];
                [left; reflexivity|].
              right. exists s0, h0, e0. auto.
           ++ intros s0 h0 e0 [Hin|Hin]; [discriminate Hin|].
              right. eapply Hpre, Hin.
      * destruct (IH (snd (fst ht)) t') as (pre & last & Htr & Hlast & Hpre).
        destruct (buildFrom env construct l (snd (fst ht)) t') as [[r t''] tr].
        simpl in *. subst tr.
        exists (Constructed s (fst (fst ht)) (snd (fst ht)) :: pre), last.
        split; [reflexivity|]. split.
        -- destruct Hlast as [->|(s0 & h0 & e0 & -> & -> & Hin)];
             [left; reflexivity|].
           right. exists s0, h0, e0. auto.
        -- intros s0 h0 e0 [Hin|Hin].
           ++ injection Hin as <- _ _. left. reflexivity.
           ++ right. eapply Hpre, Hin.
      * destruct (IH err t') as (pre & last & Htr & Hlast & Hpre).
        destruct (buildFrom env construct l err t') as [[r t''] tr].
        simpl in *. subst tr.
        exists (Constructed s (fst (fst ht)) None :: pre), last.
        split; [reflexivity|]. split.
        -- destruct Hlast as [->|(s0 & h0 & e0 & -> & -> & Hin)];
             [left; reflexivity|].
           right. exists s0, h0, e0. auto.
        -- intros s0 h0 e0 [Hin|Hin]; [discriminate Hin|].
           right. eapply Hpre, Hin.
    + destruct (IH err t) as (pre & last & Htr & Hlast & Hpre).
      exists pre, last. split; [exact Htr|]. split.
      * destruct Hlast as [->|(s0 & h0 & e0 & -> & He & Hin)];
          [left; reflexivity|].
        right. exists s0, h0, e0. simpl. auto.
      * intros s0 h0 e0 Hin. right. eapply Hpre, Hin.
Qed.

Lemma createSubTesters_eq (t : Tester W) :
  createSubTesters env construct t
  = buildFrom env construct subTesterBlocks None t.
Proof. reflexivity. Qed.

Lemma checked_not_unchecked s :
  In (s, checked) subTesterBlocks -> ~ In s uncheckedSubTesters.
Proof.
  intros Hin Hu. unfold uncheckedSubTesters in Hu. simpl in Hu.
  repeat (destruct Hu as [<-|Hu];
          [simpl in Hin;
           repeat (destruct Hin as [Hin|Hin]; [discriminate Hin|]);
           exact Hin|]).
  exact Hu.
Qed.

Lemma unchecked_listed s :
  In (s, unchecked) subTesterBlocks -> In s uncheckedSubTesters.
Proof.
  simpl. intros Hin.
  repeat (destruct Hin as [Hin|Hin];
          [first [discriminate Hin|inversion Hin; subst; simpl; tauto]|]).
  destruct Hin.
Qed.

(** X7.  [createSubTesters] ends in one of two ways: with the error of a
    constructor whose block checks it, right after that constructor, or
    with the closing [cfg.Sync], whose result it returns.  The error of a
    constructor that failed earlier in the run is never returned, and can
    only come from one of the six blocks without a check (Conformance,
    CSIEBS, AppMesh, KubernetesDashboard, PrometheusGrafana, JupyterHub):
    after such a failure the later constructors are still called. *)
Theorem createSubTesters_returns_checked_errors_only (t : Tester W) :
  exists pre last,
    snd (createSubTesters env construct t) = pre ++ [last]
    /\ (last = Synced (fst (fst (createSubTesters env construct t)))
        \/ exists s h e,
             last = Constructed s h (Some e)
             /\ fst (fst (createSubTesters env construct t)) = Some e
             /\ ~ In s uncheckedSubTesters)
    /\ forall s h e,
         In (Constructed s h (Some e)) pre -> In s uncheckedSubTesters.
Proof.
  rewrite createSubTesters_eq.
  destruct (buildFrom_trace subTesterBlocks None t)
    as (pre & last & Htr & Hlast & Hpre).
  exists pre, last. split; [exact Htr|]. split.
  - destruct Hlast as [->|(s & h & e & -> & He & Hin)]; [left; reflexivity|].
    right. exists s, h, e. split; [reflexivity|]. split; [exact He|].
    apply checked_not_unchecked, Hin.
  - intros s h e Hin. apply unchecked_listed. eapply Hpre, Hin.
Qed.

(** The handle [createSubTesters] assigns in the block of [s]. *)
Definition handleOf (s : SubTester) (t : Tester W) : bool :=
  match s with
  | sub a => tester t a
  | gpu => gpuTester t
  end.

(** The constructors return a handle whenever they return no error, and
    neither they nor [cfg.Sync] touch the [Enable] flags or the handles. *)
Definition constructorsBehave : Prop :=
  (forall s t,
     (snd (fst (construct s t)) = None -> fst (fst (construct s t)) = true)
     /\ (forall a, Enabled (cfg (snd (construct s t))) a = Enabled (cfg t) a)
     /\ (forall s', handleOf s' (snd (construct s t)) = handleOf s' t))
  /\ (forall t,
        (forall a, Enabled (cfg (snd (run env (direct Sync) t))) a
                   = Enabled (cfg t) a)
        /\ (forall s', handleOf s' (snd (run env (direct Sync) t))
                       = handleOf s' t)).

Definition SubTester_eq_dec (s s' : SubTester) : {s = s'} + {s <> s'}.
Proof. decide equality. apply AddOn_eq_dec. Defined.

Lemma handleOf_setHandle s' s h (t : Tester W) :
  handleOf s' (setHandle s h t)
  = if SubTester_eq_dec s' s then h else handleOf s' t.
Proof.
  destruct (SubTester_eq_dec s' s) as [->|Hne].
  - destruct s; simpl; rewrite ?AddOn_eqb_refl; reflexivity.
  - destruct s' as [a'|], s as [a|]; simpl; try reflexivity;
      try congruence.
    destruct (AddOn_eqb a a') eqn:E; [|reflexivity].
    apply AddOn_eqb_eq in E. congruence.
Qed.

Lemma wanted_ext s (c c' : Config) :
  (forall a, Enabled c' a = Enabled c a) -> wanted s c' = wanted s c.
Proof. intros H. destruct s; simpl; rewrite ?H; reflexivity. Qed.

Lemma buildFrom_handles l : forall err t,
  constructorsBehave ->
  NoDup (map fst l) ->
  fst (fst (buildFrom env construct l err t)) = None ->
  (forall a, Enabled (cfg (snd (fst (buildFrom env construct l err t)))) a
             = Enabled (cfg t) a)
  /\ (forall s, In (s, checked) l -> wanted s (cfg t) = true ->
        handleOf s (snd (fst (buildFrom env construct l err t))) = true)
  /\ (forall s, ~ In s (map fst l) \/ wanted s (cfg t) = false ->
        handleOf s (snd (fst (buildFrom env construct l err t)))
        = handleOf s t).
Proof.
  induction l as [|[s k] l IH]; intros err t Hb Hn Hr; cbn [buildFrom] in *.
  - destruct Hb as [_ Hsync]. destruct (Hsync t) as [He Hh].
    cbv zeta. simpl. split; [exact He|]. split; [intros s []|].
    intros s _. apply Hh.
  - inversion Hn as [|? ? Hs Hl]; subst. simpl in Hs.
    destruct (wanted s (cfg t)) eqn:Hw.
    + cbv zeta in *.
      destruct (proj1 Hb s t) as (Hok & Hen & Hh).
      set (ht := construct s t) in *.
      set (t' := setHandle s (fst (fst ht)) (snd ht)) in *.
      assert (Hen' : forall a, Enabled (cfg t') a = Enabled (cfg t) a).
      { intros a. unfold t'. destruct s; simpl; apply Hen. }
      assert (Hrest : forall err',
                fst (fst (buildFrom env construct l err' t')) = None ->
                (k = checked -> fst (fst ht) = true) ->
                (forall a,
                   Enabled (cfg (snd (fst (buildFrom env construct l err' t')))) a
                   = Enabled (cfg t) a)
                /\ (forall s0, In (s0, checked) ((s, k) :: l) ->
                      wanted s0 (cfg t) = true ->
                      handleOf s0 (snd (fst (buildFrom env construct l err' t')))
                      = true)
                /\ (forall s0, ~ In s0 (s :: map fst l)
                               \/ wanted s0 (cfg t) = false ->
                      handleOf s0 (snd (fst (buildFrom env construct l err' t')))
                      = handleOf s0 t)).
      { intros err' Hr' Hk.
        destruct (IH err' t' Hb Hl Hr') as (H1 & H2 & H3).
        split; [intros a; rewrite H1; apply Hen'|]. split.
        - intros s0 [Hin|Hin] Hw0.
          + injection Hin as <- ->.
            rewrite H3 by (left; exact Hs).
            unfold t'. rewrite handleOf_setHandle.
            destruct (SubTester_eq_dec s s); [|congruence].
            apply Hk. reflexivity.
          + apply H2; [exact Hin|].
            rewrite (wanted_ext _ _ _ Hen'). exact Hw0.
        - intros s0 Hs0.
          assert (Hne : s0 <> s).
          { intros ->. destruct Hs0 as [Hs0|Hs0].
            - apply Hs0. left. reflexivity.
            - congruence. }
          rewrite H3.
          + unfold t'. rewrite handleOf_setHandle.
            destruct (SubTester_eq_dec s0 s); [congruence|]. apply Hh.
          + destruct Hs0 as [Hs0|Hs0].
            * left. intros Hin. apply Hs0. right. exact Hin.
            * right. rewrite (wanted_ext _ _ _ Hen'). exact Hs0. }
      destruct k.
      * destruct (snd (fst ht)) as [e|] eqn:He; [discriminate Hr|].
        specialize (Hrest None).
        destruct (buildFrom env construct l None t') as [[r t''] tr].
        simpl in *. apply Hrest; [exact Hr|]. intros _. apply Hok. reflexivity.
      * specialize (Hrest (snd (fst ht))).
        destruct (buildFrom env construct l (snd (fst ht)) t') as [[r t''] tr].
        simpl in *. apply Hrest; [exact Hr|]. discriminate.
      * specialize (Hrest err).
        destruct (buildFrom env construct l err t') as [[r t''] tr].
        simpl in *. apply Hrest; [exact Hr|]. discriminate.
    + destruct (IH err t Hb Hl Hr) as (H1 & H2 & H3).
      split; [exact H1|]. split.
      * intros s0 [Hin|Hin] Hw0.
        -- injection Hin as <- _. congruence.
        -- apply H2; assumption.
      * intros s0 Hs0. apply H3.
        destruct Hs0 as [Hs0|Hs0]; [|right; exact Hs0].
        destruct (SubTester_eq_dec s0 s) as [->|Hne]; [right; exact Hw|].
        left. intros Hin. apply Hs0. right. exact Hin.
Qed.

Lemma needGPU_enabled (c : Config) :
  needGPU env c = true ->
  Enabled c NodeGroups || Enabled c ManagedNodeGroups = true.
Proof.
  unfold needGPU.
  destruct (Enabled c NodeGroups), (Enabled c ManagedNodeGroups); simpl;
    try reflexivity; discriminate.
Qed.

Lemma subTesterBlocks_NoDup : NoDup (map fst subTesterBlocks).
Proof.
  simpl.
  repeat (apply NoDup_cons;
          [simpl; intros H;
           repeat (destruct H as [H|H]; [discriminate H|]); exact H|]).
  apply NoDup_nil.
Qed.

Lemma createSubTesters_handles (t : Tester W) :
  constructorsBehave ->
  fst (fst (createSubTesters env construct t)) = None ->
  (forall a, Enabled (cfg (snd (fst (createSubTesters env construct t)))) a
             = Enabled (cfg t) a)
  /\ (forall s, In (s, checked) subTesterBlocks -> wanted s (cfg t) = true ->
        handleOf s (snd (fst (createSubTesters env construct t))) = true)
  /\ (forall s, ~ In s (map fst subTesterBlocks) \/ wanted s (cfg t) = false ->
        handleOf s (snd (fst (createSubTesters env construct t)))
        = handleOf s t).
Proof.
  intros Hb. rewrite createSubTesters_eq. intros Hr.
  apply buildFrom_handles; [exact Hb|apply subTesterBlocks_NoDup|exact Hr].
Qed.

Lemma checked_blocks a :
  ~ In (sub a) uncheckedSubTesters -> a <> ClusterLoaderLocal ->
  In (sub a, checked) subTesterBlocks.
Proof.
  intros Hu Hc.
  destruct a; simpl; try tauto; exfalso;
    first [apply Hc; reflexivity | apply Hu; simpl; tauto].
Qed.

Lemma handles_read (t t' : Tester W) :
  (forall a, Enabled (cfg t') a = Enabled (cfg t) a)
  /\ (forall s, In (s, checked) subTesterBlocks -> wanted s (cfg t) = true ->
        handleOf s t' = true)
  /\ (forall s, ~ In s (map fst subTesterBlocks) \/ wanted s (cfg t) = false ->
        handleOf s t' = handleOf s t) ->
  (forall a, ~ In (sub a) uncheckedSubTesters -> a <> ClusterLoaderLocal ->
     Enabled (cfg t) a = true -> tester t' a = true)
  /\ (needGPU env (cfg t) = true -> gpuTester t' = true)
  /\ (forall a, Enabled (cfg t) a = false -> tester t' a = tester t a).
Proof.
  intros (_ & H2 & H3). split; [|split].
  - intros a Hu Hc He.
    apply (H2 (sub a) (checked_blocks a Hu Hc) He).
  - intros Hg. apply (H2 gpu); [simpl; tauto|].
    apply needGPU_enabled, Hg.
  - intros a He. apply (H3 (sub a)). right. exact He.
Qed.

(** X8.  When [createSubTesters] returns nil, with constructors that hand
    out a handle whenever they return no error and leave flags and handles
    alone, every enabled add-on whose block checks the constructor's error
    has its handle set, the GPU tester is set whenever one of the two
    node-group families is enabled, which covers every configuration in
    which [Up] installs the GPU driver, and the handle of an add-on that
    is not enabled is left as it was. *)
Theorem createSubTesters_sets_checked_handles (t : Tester W) :
  constructorsBehave ->
  fst (fst (createSubTesters env construct t)) = None ->
  (forall a, ~ In (sub a) uncheckedSubTesters -> a <> ClusterLoaderLocal ->
     Enabled (cfg t) a = true ->
     tester (snd (fst (createSubTesters env construct t))) a = true)
  /\ (needGPU env (cfg t) = true ->
      gpuTester (snd (fst (createSubTesters env construct t))) = true)
  /\ (forall a, Enabled (cfg t) a = false ->
        tester (snd (fst (createSubTesters env construct t))) a = tester t a).
Proof.
  intros Hb Hr.
  apply handles_read, (createSubTesters_handles t Hb Hr).
Qed.

(** ** Logs and questions *)

Variable download : AddOn -> string -> Tester W -> option error * Tester W.

Lemma orReturn_bind_gets {A} (f : Tester W -> A)
    (k : A -> M W (option error)) (k2 : M W (option error)) t :
  ((gets f >>= k) >>! k2) t = (k (f t) >>! k2) t.
Proof.
  unfold orReturn. rewrite bind_assoc, bind_gets. reflexivity.
Qed.



Lemma logs_read (t t' : Tester W) (artifactDir : string) :
  (forall a, Enabled (cfg t') a = Enabled (cfg t) a)
  /\ (forall s, In (s, checked) subTesterBlocks -> wanted s (cfg t) = true ->
        handleOf s t' = true)
  /\ (forall s, ~ In s (map fst subTesterBlocks) \/ wanted s (cfg t) = false ->
        handleOf s t' = handleOf s t) ->
  (forall a, tester t a = false) ->
  Enabled (cfg t) NodeGroups = true ->
  Enabled (cfg t) ManagedNodeGroups = false ->
  (exists r rest,
     events (DumpClusterLogs env t')
     = Ev (direct (FetchLogs NodeGroups)) r :: rest)
  /\ DownloadClusterLogs download artifactDir t' = mkResult Panic t' [].
Proof.
  intros (He & H2 & H3) Hfresh Hng Hmng.
  assert (Hh1 : tester t' NodeGroups = true).
  { apply (H2 (sub NodeGroups)); [simpl; tauto|exact Hng]. }
  assert (Hh2 : tester t' ManagedNodeGroups = false).
  { rewrite <- (Hfresh ManagedNodeGroups).
    apply (H3 (sub ManagedNodeGroups)). right. exact Hmng. }
  split.
  - unfold DumpClusterLogs.
    rewrite bind_gets, He, Hng, orReturn_bind_gets, Hh1.
    rewrite orReturn_events. cbn [app]. eexists _, _. reflexivity.
  - unfold DownloadClusterLogs.
    rewrite bind_gets, He, Hng, orReturn_bind_gets, Hh2.
    reflexivity.
Qed.

(** X10.  The two log functions after [createSubTesters]: on a tester that
    had no handles, with the node groups enabled and the managed node
    groups not, and with [createSubTesters] returning nil, [DumpClusterLogs]
    calls [FetchLogs] of the node-group tester, whereas
    [DownloadClusterLogs], whose node-group block calls the tester of the
    managed node groups, panics on that nil handle before it has done
    anything. *)
Theorem logs_after_createSubTesters (t : Tester W) (artifactDir : string) :
  constructorsBehave ->
  (forall a, tester t a = false) ->
  Enabled (cfg t) NodeGroups = true ->
  Enabled (cfg t) ManagedNodeGroups = false ->
  fst (fst (createSubTesters env construct t)) = None ->
  (exists r rest,
     events (DumpClusterLogs env
               (snd (fst (createSubTesters env construct t))))
     = Ev (direct (FetchLogs NodeGroups)) r :: rest)
  /\ DownloadClusterLogs download artifactDir
       (snd (fst (createSubTesters env construct t)))
     = mkResult Panic (snd (fst (createSubTesters env construct t))) [].
Proof.
  intros Hb Hfresh Hng Hmng Hr.
  apply (logs_read t _ artifactDir (createSubTesters_handles t Hb Hr)
           Hfresh Hng Hmng).
Qed.

(** X11.  What kubetest2 is told agrees with [IsUp]: whenever [IsUp]
    reports the cluster up, [ShouldDown] and [ShouldTest] say yes and
    [ShouldUp] says no; whenever [ShouldUp] says yes, [IsUp] answers
    [(false, nil)] without a health check.  With no configuration all
    three say no.  With a configuration whose [Status] is nil, [IsUp]
    answers [(false, nil)], but the three dereference the nil pointer. *)
Theorem Should_questions_agree_with_IsUp (ts : Tester0 W) :
  (forall e, outcome (IsUp env ts) = Ret (true, e) ->
     ShouldUp ts = Ret false /\ ShouldDown ts = Ret true
     /\ ShouldTest ts = Ret true)
  /\ (ShouldUp ts = Ret true ->
      ShouldDown ts = Ret false /\ ShouldTest ts = Ret false
      /\ IsUp env ts = mkResult (Ret (false, None)) ts [])
  /\ (cfg ts = None ->
      ShouldUp ts = Ret false /\ ShouldDown ts = Ret false
      /\ ShouldTest ts = Ret false)
  /\ (forall c, cfg ts = Some c -> Status c = None ->
      ShouldUp ts = Panic /\ ShouldDown ts = Panic /\ ShouldTest ts = Panic
      /\ IsUp env ts = mkResult (Ret (false, None)) ts []).
Proof.
  unfold ShouldUp, ShouldDown, ShouldTest, IsUp.
  destruct (cfg ts) as [c|]; [destruct (Status c) as [st|] eqn:Hs|].
  - assert (Hnil : forall c', Some c = Some c' -> Status c' = None -> False).
    { intros c' H Hn. injection H as <-. congruence. }
    destruct (Up_ st); simpl.
    + split; [intros; auto|]. split; [discriminate|].
      split; [discriminate|]. intros c' H Hn. destruct (Hnil c' H Hn).
    + split; [discriminate|]. split; [intros; auto|].
      split; [discriminate|]. intros c' H Hn. destruct (Hnil c' H Hn).
  - split; [discriminate|]. split; [discriminate|]. split; [discriminate|].
    intros c' _ _. auto.
  - split; [discriminate|]. split; [discriminate|]. split; [auto|].
    intros c' H. discriminate H.
Qed.

End Facts.

Arguments frame {W} env.
Arguments noRevival {W} env.
Arguments clears {W} env.
Arguments deferredSees {W} env t.
Arguments sweepBefore {W} env n t.
Arguments sweepEvents {W} env l t.

(** ** The theorems on concrete runs *)



Lemma down_aggregates_every_failure_witness :
  exists u closing s,
    events (down Sim.env Sim.threeUp)
    = Banner "DOWN START" :: Ev (direct uploadToS3) u
        :: sweepEvents Sim.env down_steps
             (snd (run Sim.env (direct uploadToS3) Sim.threeUp))
        ++ closing ++ [Ev (direct Sync) s]
    /\ infraDeletions
         (sweepEvents Sim.env down_steps
            (snd (run Sim.env (direct uploadToS3) Sim.threeUp)))
       = fixedDeletions
    /\ match failed
               (sweepEvents Sim.env down_steps
                  (snd (run Sim.env (direct uploadToS3) Sim.threeUp)))
       with
       | [] =>
           closing
           = [Ev (direct Sync)
                 (Some "alb2048: delete failed, cluster: delete failed, vpc: dependency violation"%string)]
       | l =>
           closing = []
           /\ Some "alb2048: delete failed, cluster: delete failed, vpc: dependency violation"%string
              = Some (Join l ", ")
       end
    /\ forall m,
         In m (failed
                 (sweepEvents Sim.env down_steps
                    (snd (run Sim.env (direct uploadToS3) Sim.threeUp)))) ->
         exists e,
           Some "alb2048: delete failed, cluster: delete failed, vpc: dependency violation"%string
           = Some e /\ contains e m.
Proof.
  apply (down_aggregates_every_failure Sim.Script Sim.env Sim.threeUp).
  vm_compute. reflexivity.
Defined.

(** On C2 as stated: no step of the teardown fails, and yet [down] returns
    an error, that of the closing [cfg.Sync]. *)
Lemma down_returns_sync_error_without_failed_step :
  events (down Sim.env More.syncFails)
  = [ Banner "DOWN START"; Ev (direct uploadToS3) None;
      Ev (direct deleteKeyPair) None; Ev (direct deleteCluster) None;
      Ev (direct deleteEncryption) None; Ev (direct deleteClusterRole) None;
      Ev (direct deleteVPC) None; Ev (direct deleteS3) None;
      Ev (direct Sync) (Some "sync: disk full"%string);
      Ev (direct Sync) (Some "sync: disk full"%string) ]
  /\ outcome (down Sim.env More.syncFails)
     = Ret (Some "sync: disk full"%string).
Proof. vm_compute. split; reflexivity. Qed.

Lemma Sim_frame : frame Sim.env.
Proof.
  intros o t a Ho. unfold flagsOf. simpl. unfold Sim.respond.
  destruct (ext t (direct o)); [reflexivity|].
  destruct o; try reflexivity. simpl.
  assert (Hne : a0 <> a) by congruence.
  apply AddOn_eqb_neq in Hne. rewrite Hne. reflexivity.
Qed.

Lemma Sim_noRevival : noRevival Sim.env.
Proof.
  intros o t a. unfold guardOf. simpl. unfold Sim.respond.
  destruct (ext t (direct o)); [trivial|].
  destruct o; try trivial. simpl.
  destruct (AddOn_eqb a0 a); [|trivial].
  intros _. apply andb_false_r.
Qed.

Lemma Sim_clears : clears Sim.env.
Proof.
  intros a t. simpl. unfold Sim.respond.
  destruct (ext t (direct (Delete a))); [discriminate|].
  intros _. simpl. rewrite AddOn_eqb_refl. reflexivity.
Qed.

Lemma down_deletes_by_flags_witness :
  deletions NodeGroups (events (down Sim.env Sim.threeUp)) = 1
  /\ deletions JobsEcho (events (down Sim.env Sim.threeUp)) = 1.
Proof.
  split.
  - refine (proj1 (down_deletes_by_flags Sim.Script Sim.env Sim.threeUp
                     (Some "alb2048: delete failed, cluster: delete failed, vpc: dependency violation"%string)
                     NodeGroups Sim_frame _) _).
    + vm_compute. reflexivity.
    + simpl. tauto.
  - refine (proj2 (down_deletes_by_flags Sim.Script Sim.env Sim.threeUp
                     (Some "alb2048: delete failed, cluster: delete failed, vpc: dependency violation"%string)
                     JobsEcho Sim_frame _) _).
    + vm_compute. reflexivity.
    + intros H. simpl in H.
      repeat (destruct H as [H|H]; [discriminate H|]). exact H.
Defined.

(** The block guarded by the flags of ClusterLoaderLocal (line 1895) calls
    the [Delete] of the remote cluster loader: the local one is never
    deleted and stays [Created]. *)
Example clusterLoaderLocal_block_deletes_remote :
  let t := Sim.mkTester
             (Sim.config [ClusterLoaderLocal] [ClusterLoaderLocal])
             [ClusterLoaderLocal; ClusterLoaderRemote] Sim.noFailure in
  outcome (down Sim.env t) = Ret None
  /\ deletions ClusterLoaderLocal (events (down Sim.env t)) = 0
  /\ deletions ClusterLoaderRemote (events (down Sim.env t)) = 1
  /\ Created (cfg (final (down Sim.env t))) ClusterLoaderLocal = true.
Proof. vm_compute. repeat split; reflexivity. Qed.

(** On C1 as stated: node groups that are enabled with a handle have their
    [Delete] invoked although [Created] is false. *)
Lemma down_deletes_uncreated_node_groups :
  ~ (deleteInvoked NodeGroups (events (down Sim.env Sim.nodeGroupsNotCreated))
     <-> Created (cfg Sim.nodeGroupsNotCreated) NodeGroups = true).
Proof.
  intros [H _].
  assert (Hinv : deleteInvoked NodeGroups
                   (events (down Sim.env Sim.nodeGroupsNotCreated))).
  { apply deletions_invoked. vm_compute. lia. }
  apply H in Hinv. vm_compute in Hinv. discriminate Hinv.
Qed.


Lemma second_down_deletes_no_addon_witness :
  deletions JobsEcho
    (events (down Sim.env (final (down Sim.env Sim.echoUp)))) = 0.
Proof.
  apply (second_down_deletes_no_addon Sim.Script Sim.env Sim.echoUp JobsEcho
           Sim_noRevival Sim_clears).
  - vm_compute. reflexivity.
  - intros H. simpl in H.
      repeat (destruct H as [H|H]; [discriminate H|]). exact H.
Defined.

(** On C5 as stated: after a [down] that returned success, a second [down]
    deletes the node groups once more; and after a [down] that completed
    with a failed deletion, the add-on is still [Created] and the second
    [down] deletes it again. *)
Lemma second_down_deletes_again :
  (outcome (down Sim.env Sim.echoUp) = Ret None
   /\ deletions NodeGroups
        (events (down Sim.env (final (down Sim.env Sim.echoUp)))) = 1)
  /\ (outcome (down Sim.env Sim.echoDeleteFails)
      = Ret (Some "jobs-echo: delete failed"%string)
      /\ Created (cfg (final (down Sim.env Sim.echoDeleteFails))) JobsEcho = true
      /\ deletions JobsEcho
           (events (down Sim.env (final (down Sim.env Sim.echoDeleteFails)))) = 1).
Proof. vm_compute. repeat split; reflexivity. Qed.



Lemma down_settles_after_load_balancer_witness :
  loadBalancerWaitDue (cfg (final (sweepBefore Sim.env 27 Sim.threeUp))) = true
  /\ exists before between rv after,
       events (down Sim.env Sim.threeUp)
       = before
           ++ Ev (direct (Delete ALB2048)) (Some "alb2048: delete failed"%string)
           :: between ++ Ev (direct deleteVPC) rv :: after
       /\ (forall rv', ~ In (Ev (direct deleteVPC) rv') before)
       /\ In (Slept (2 * Minute)%Z) between.
Proof.
  split; [vm_compute; reflexivity|].
  destruct (down_settles_after_load_balancer Sim.Script Sim.env Sim.threeUp
              (Some "alb2048: delete failed, cluster: delete failed, vpc: dependency violation"%string)
              ALB2048 (Some "alb2048: delete failed"%string))
    as (before & between & rv & after & Hev & Hbefore & _ & Hlb & _).
  - simpl. tauto.
  - vm_compute. reflexivity.
  - vm_compute. tauto.
  - exists before, between, rv, after.
    split; [exact Hev|]. split; [exact Hbefore|].
    apply Hlb. vm_compute. reflexivity.
Defined.

(** On C8 as stated: with the ALB add-on created and its deletion failing,
    on a tester without node groups and with an imported network, no sleep
    at all lies between the deletion of the add-on and that of the
    network. *)
Lemma down_without_settle_delay :
  Enabled (cfg Sim.albDeleteFails) ALB2048 = true
  /\ Created (cfg Sim.albDeleteFails) ALB2048 = true
  /\ outcome (down Sim.env Sim.albDeleteFails)
     = Ret (Some "alb2048: delete failed"%string)
  /\ In (Ev (direct (Delete ALB2048)) (Some "alb2048: delete failed"%string))
        (events (down Sim.env Sim.albDeleteFails))
  /\ In (Ev (direct deleteVPC) None) (events (down Sim.env Sim.albDeleteFails))
  /\ forall d, ~ In (Slept d) (events (down Sim.env Sim.albDeleteFails)).
Proof.
  vm_compute. repeat split; try reflexivity; try tauto.
  intros d H. repeat (destruct H as [H|H]; [discriminate H|]). exact H.
Qed.

Lemma stop_signal_fires_once_surfaces_once_witness :
  StopSignal.fires 2 StopSignal.new
  = Ret {| StopSignal.closed := true; StopSignal.done := true |}
  /\ StopSignal.fire {| StopSignal.closed := true; StopSignal.done := true |}
     = Ret {| StopSignal.closed := true; StopSignal.done := true |}
  /\ StopSignal.fired {| StopSignal.closed := true; StopSignal.done := true |}
     = true
  /\ gatedErrors (events (Up Sim.env Sim.vpcFails)) <= 1.
Proof.
  destruct (stop_signal_fires_once_surfaces_once Sim.Script Sim.env)
    as (H1 & H2 & H3 & H4).
  split; [apply (H1 1)|].
  split; [apply H2; reflexivity|].
  split; [|apply H4].
  apply (H3 StopSignal.new); reflexivity.
Defined.

Lemma IsUp_checks_health_only_when_up_witness :
  IsUp Sim.env Sim.withoutConfig
  = mkResult (Ret (false, None)) Sim.withoutConfig []
  /\ exists health,
       health = Some "health: unreachable"%string
       /\ outcome (IsUp Sim.env Sim.up) = Ret (true, health)
       /\ events (IsUp Sim.env Sim.up) = [Ev (direct checkHealth) health].
Proof.
  split.
  - apply (proj1 (IsUp_checks_health_only_when_up Sim.Script Sim.env
                    Sim.withoutConfig)).
    left. reflexivity.
  - destruct (proj2 (IsUp_checks_health_only_when_up Sim.Script Sim.env Sim.up)
                _ _ eq_refl eq_refl eq_refl) as (h & Hh & Ho & He).
    exists h. split; [rewrite Hh; reflexivity|]. split; assumption.
Defined.

(** * The further properties on concrete runs *)

Lemma Up_without_compensation_witness :
  outcome (Up Sim.env More.vpcFailsNoCleanup) = Ret (Some "vpc: limit exceeded"%string)
  /\ downStarts (events (Up Sim.env More.vpcFailsNoCleanup)) = 0.
Proof.
  destruct (Up_without_compensation Sim.Script Sim.env More.vpcFailsNoCleanup)
    as (H1 & H2 & _).
  - right. right. vm_compute. reflexivity.
  - split; [rewrite H1; vm_compute; reflexivity|exact H2].
Defined.

Lemma Up_waits_before_compensation_witness :
  exists before,
    events (Up Sim.env Sim.vpcFails)
    = before ++ Waited (5 * Second)%Z
        :: events (down Sim.env (deferredSees Sim.env Sim.vpcFails)).
Proof.
  destruct (Up_waits_before_compensation Sim.Script Sim.env Sim.vpcFails
              "vpc: limit exceeded"%string)
    as (s & u & H & _).
  - vm_compute. reflexivity.
  - vm_compute. reflexivity.
  - cbv zeta in H. eexists. apply H. vm_compute. split; [reflexivity|discriminate].
Defined.

Lemma Sim_keepsHandles : keepsHandles Sim.Script Sim.env.
Proof.
  intros c t [Ht Hg]. simpl. unfold Sim.respond.
  destruct (ext t c); [split; assumption|].
  destruct c as [o|o]; destruct o; simpl; split; assumption.
Qed.

Lemma sagas_return_when_handles_are_set_witness :
  (exists r, outcome (down Sim.env More.allHandles) = Ret r)
  /\ (exists r, outcome (Up Sim.env More.allHandles) = Ret r).
Proof.
  apply (sagas_return_when_handles_are_set Sim.Script Sim.env More.allHandles
           Sim_keepsHandles).
  split; [intros a|]; reflexivity.
Defined.

Lemma More_constructorsBehave :
  constructorsBehave Sim.Script Sim.env More.construct.
Proof.
  split.
  - intros s t. split; [|split].
    + destruct s as [a|]; [destruct a|]; simpl; try reflexivity; discriminate.
    + intros a. destruct s as [b|]; [destruct b|]; reflexivity.
    + intros s'. destruct s as [b|]; [destruct b|]; reflexivity.
  - intros t. simpl. unfold Sim.respond.
    destruct (ext t (direct Sync)); split; intros; reflexivity.
Qed.

Lemma createSubTesters_sets_checked_handles_witness :
  tester (snd (fst (createSubTesters Sim.env More.construct
                      (More.fresh [NodeGroups; Conformance; JobsEcho]))))
         JobsEcho = true
  /\ tester (snd (fst (createSubTesters Sim.env More.construct
                         (More.fresh [NodeGroups; Conformance; JobsEcho]))))
            ALB2048 = false.
Proof.
  destruct (createSubTesters_sets_checked_handles Sim.Script Sim.env
              More.construct (More.fresh [NodeGroups; Conformance; JobsEcho])
              More_constructorsBehave)
    as (H1 & _ & H3).
  - vm_compute. reflexivity.
  - split.
    + apply H1; [|discriminate|reflexivity].
      simpl. intros H.
      repeat (destruct H as [H|H]; [discriminate H|]). exact H.
    + rewrite H3; reflexivity.
Defined.


Lemma logs_after_createSubTesters_witness :
  (exists r rest,
     events (DumpClusterLogs Sim.env
               (snd (fst (createSubTesters Sim.env More.construct
                            (More.fresh [NodeGroups])))))
     = Ev (direct (FetchLogs NodeGroups)) r :: rest)
  /\ DownloadClusterLogs More.download "artifacts"
       (snd (fst (createSubTesters Sim.env More.construct
                    (More.fresh [NodeGroups]))))
     = mkResult Panic
         (snd (fst (createSubTesters Sim.env More.construct
                      (More.fresh [NodeGroups])))) [].
Proof.
  apply (logs_after_createSubTesters Sim.Script Sim.env More.construct
           More.download (More.fresh [NodeGroups]) "artifacts"%string
           More_constructorsBehave).
  - intros a. reflexivity.
  - reflexivity.
  - reflexivity.
  - vm_compute. reflexivity.
Defined.

(** * The eksctl deployer: properties *)

Module EksctlFacts.

Import Eksctl.

Section DeployerFacts.

Variable World : Type.
Variable sys : Sys World.

(** ** What is read off a run of a method *)

Definition result {A} (x : A * (deployer * World) * list Effect) : A :=
  fst (fst x).

Definition after {A} (x : A * (deployer * World) * list Effect) : deployer :=
  fst (snd (fst x)).

Definition world {A} (x : A * (deployer * World) * list Effect) : World :=
  snd (snd (fst x)).

Definition effects {A} (x : A * (deployer * World) * list Effect)
  : list Effect :=
  snd x.

(** The commands executed, in order. *)
Definition executions (effs : list Effect)
  : list (string * list string * option error) :=
  flat_map (fun e => match e with
                     | Executed cmd args r => [(cmd, args, r)]
                     | _ => []
                     end) effs.

(** What was done to temporary files, in order. *)
Definition isFileEffect (e : Effect) : bool :=
  match e with
  | TempCreated _ _ _ _ | Written _ _ _ | Closed _ => true
  | _ => false
  end.

Definition fileEffects (effs : list Effect) : list Effect :=
  filter isFileEffect effs.

Lemma executions_app e1 e2 :
  executions (e1 ++ e2) = executions e1 ++ executions e2.
Proof. apply flat_map_app. Qed.

Lemma fileEffects_app e1 e2 :
  fileEffects (e1 ++ e2) = fileEffects e1 ++ fileEffects e2.
Proof. apply filter_app. Qed.

Lemma result_tuple {A} (a : A) (ds : deployer * World) (e : list Effect) :
  result (a, ds, e) = a.
Proof. reflexivity. Qed.

Lemma after_tuple {A} (a : A) (d : deployer) (w : World) (e : list Effect) :
  after (a, (d, w), e) = d.
Proof. reflexivity. Qed.

Lemma effects_tuple {A} (a : A) (ds : deployer * World) (e : list Effect) :
  effects (a, ds, e) = e.
Proof. reflexivity. Qed.

(** The cluster name [initClusterName] settles on. *)
Definition effectiveName (d : deployer) : string :=
  if String.eqb (ClusterName (options d)) "" then RunID d
  else ClusterName (options d).

(** The path [Kubeconfig] answers. *)
Definition kubeconfigOf (d : deployer) : string :=
  if String.eqb (KubeconfigPath d) "" then Join sys (RunDir d) "kubeconfig"
  else KubeconfigPath d.

Ltac run_method :=
  cbv beta iota zeta delta
    [verifyUpFlags orFail bindE self update retE outside
     detectKubernetesVersion initClusterName Kubeconfig
     result after world effects fst snd].

Ltac cases :=
  repeat match goal with
  | |- context [match ?x with _ => _ end] =>
      lazymatch x with
      | context [match _ with _ => _ end] => fail
      | _ => destruct x eqn:?
      end
  end.

Lemma initClusterName_eq (d : deployer) (w : World) :
  initClusterName (d, w) = (tt, (setClusterName d (effectiveName d), w), []).
Proof.
  unfold initClusterName, effectiveName, bindE, self, update. simpl.
  destruct (String.eqb (ClusterName (options d)) ""); reflexivity.
Qed.

Lemma Kubeconfig_eq (d : deployer) (w : World) :
  Kubeconfig sys (d, w) = ((kubeconfigOf d, None), (d, w), []).
Proof.
  unfold Kubeconfig, kubeconfigOf, bindE, self, retE. simpl.
  destruct (String.eqb (KubeconfigPath d) ""); reflexivity.
Qed.

(** ** [verifyUpFlags] *)

(** [verifyUpFlags] touches nothing but the options, and outside only
    detects the version. *)
Lemma verifyUpFlags_frame (d : deployer) (w : World) :
  after (verifyUpFlags sys (d, w))
  = setOptions d (options (after (verifyUpFlags sys (d, w))))
  /\ executions (effects (verifyUpFlags sys (d, w))) = []
  /\ fileEffects (effects (verifyUpFlags sys (d, w))) = []
  /\ ConfigFile (options (after (verifyUpFlags sys (d, w))))
     = ConfigFile (options d)
  /\ SkipClusterCreation (options (after (verifyUpFlags sys (d, w))))
     = SkipClusterCreation (options d)
  /\ Region (options (after (verifyUpFlags sys (d, w))))
     = Region (options d)
  /\ ClusterName (options (after (verifyUpFlags sys (d, w))))
     = ClusterName (options d)
  /\ Nodes (options (after (verifyUpFlags sys (d, w))))
     = Nodes (options d).
Proof.
  destruct d as [rid rdir o reg kp cn]. destruct o.
  run_method. simpl. cases; simpl; repeat split; reflexivity.
Qed.

Lemma verifyUpFlags_post (d : deployer) (w : World) :
  result (verifyUpFlags sys (d, w)) = None ->
  (0 < Nodes (options (after (verifyUpFlags sys (d, w)))))%Z
  /\ (UseUnmanagedNodegroup (options (after (verifyUpFlags sys (d, w)))) = true ->
      exists x,
        InstanceTypes (options (after (verifyUpFlags sys (d, w)))) = [x])
  /\ (AMIFamily (options d) = "Bottlerocket"%string ->
      AMI (options d) <> EmptyString ->
      UseUnmanagedNodegroup (options (after (verifyUpFlags sys (d, w)))) = true)
  /\ (UseUnmanagedNodegroup (options d) = true ->
      UseUnmanagedNodegroup (options (after (verifyUpFlags sys (d, w)))) = true)
  /\ (KubernetesVersion (options d) <> EmptyString ->
      KubernetesVersion (options (after (verifyUpFlags sys (d, w))))
      = KubernetesVersion (options d))
  /\ after (verifyUpFlags sys (d, w))
     = setOptions d
         (setUseUnmanagedNodegroup
            (setKubernetesVersion (options d)
               (KubernetesVersion (options (after (verifyUpFlags sys (d, w))))))
            (UseUnmanagedNodegroup (options (after (verifyUpFlags sys (d, w)))))).
Proof.
  destruct d as [rid rdir o reg kp cn]. destruct o.
  run_method. simpl. cases; simpl; intros H; try discriminate H;
    repeat match goal with
    | E : String.eqb _ _ = true |- _ => apply String.eqb_eq in E
    | E : String.eqb _ _ = false |- _ => apply String.eqb_neq in E
    | E : (_ <=? _)%Z = false |- _ => apply Z.leb_gt in E
    | E : andb _ _ = false |- _ => apply andb_false_iff in E
    | E : andb _ _ = true |- _ => apply andb_true_iff in E; destruct E
    | E : negb _ = true |- _ => apply negb_true_iff in E
    | E : negb _ = false |- _ => apply negb_false_iff in E
    end;
    subst; simpl in *;
    repeat split; try reflexivity; try assumption; try discriminate;
    try congruence; try (eexists; reflexivity);
    try solve [intros; eauto];
    try solve
      [ intros;
        repeat match goal with
        | H : _ \/ _ |- _ => destruct H
        | H : andb _ _ = false |- _ => apply andb_false_iff in H
        | H : negb _ = false |- _ => apply negb_false_iff in H
        | H : String.eqb _ _ = false |- _ => apply String.eqb_neq in H
        | H : String.eqb _ _ = true |- _ => apply String.eqb_eq in H
        end;
        subst; try congruence; eauto ].
Qed.

(** X12.  What [verifyUpFlags] has checked when it returns nil: the node
    count is positive; an unmanaged node group has exactly one instance
    type; Bottlerocket with a custom AMI runs on an unmanaged node group
    (the flag is switched on for it, never off); a Kubernetes version that
    was given is kept, an empty one is replaced by the detected one; and
    nothing else of the deployer has changed. *)
Theorem verifyUpFlags_accepts (d : deployer) (w : World) :
  result (verifyUpFlags sys (d, w)) = None ->
  (0 < Nodes (options (after (verifyUpFlags sys (d, w)))))%Z
  /\ (UseUnmanagedNodegroup (options (after (verifyUpFlags sys (d, w)))) = true ->
      exists x,
        InstanceTypes (options (after (verifyUpFlags sys (d, w)))) = [x])
  /\ (AMIFamily (options d) = "Bottlerocket"%string ->
      AMI (options d) <> EmptyString ->
      UseUnmanagedNodegroup (options (after (verifyUpFlags sys (d, w)))) = true)
  /\ (UseUnmanagedNodegroup (options d) = true ->
      UseUnmanagedNodegroup (options (after (verifyUpFlags sys (d, w)))) = true)
  /\ (KubernetesVersion (options d) <> EmptyString ->
      KubernetesVersion (options (after (verifyUpFlags sys (d, w))))
      = KubernetesVersion (options d))
  /\ after (verifyUpFlags sys (d, w))
     = setOptions d
         (setUseUnmanagedNodegroup
            (setKubernetesVersion (options d)
               (KubernetesVersion (options (after (verifyUpFlags sys (d, w))))))
            (UseUnmanagedNodegroup (options (after (verifyUpFlags sys (d, w)))))).
Proof. apply verifyUpFlags_post. Qed.

(** A deployer that passes every check is let through as it is, without
    a look outside. *)
Lemma verifyUpFlags_pass (d : deployer) (w : World) :
  KubernetesVersion (options d) <> EmptyString ->
  (0 < Nodes (options d))%Z ->
  (AMIFamily (options d) = "Bottlerocket"%string ->
   AMI (options d) <> EmptyString ->
   UseUnmanagedNodegroup (options d) = true) ->
  (UseUnmanagedNodegroup (options d) = true ->
   exists x, InstanceTypes (options d) = [x]) ->
  verifyUpFlags sys (d, w) = (None, (d, w), []).
Proof.
  destruct d as [rid rdir o reg kp cn]. destruct o. simpl.
  intros Hv Hn Hb Hu. run_method. simpl.
  apply String.eqb_neq in Hv. rewrite Hv. simpl.
  assert (En : (Nodes0 <=? 0)%Z = false) by (apply Z.leb_gt; exact Hn).
  rewrite En. simpl.
  destruct UseUnmanagedNodegroup0.
  - rewrite andb_false_r. simpl.
    destruct (Hu eq_refl) as [x ->]. reflexivity.
  - destruct (String.eqb AMIFamily0 "Bottlerocket") eqn:E1;
      [|reflexivity].
    destruct (String.eqb AMI0 "") eqn:E2; [reflexivity|].
    apply String.eqb_eq in E1. apply String.eqb_neq in E2.
    specialize (Hb E1 E2). discriminate Hb.
Qed.

(** X13.  An unmanaged node group without an instance type is given the
    default [m5.xlarge], and [verifyUpFlags] returns an error all the
    same: the flags are rejected although the deployer it leaves behind is
    a valid one, which the next call lets through unchanged. *)
Theorem verifyUpFlags_rejects_after_setting_default (d : deployer) (w : World) :
  KubernetesVersion (options d) <> EmptyString ->
  (0 < Nodes (options d))%Z ->
  InstanceTypes (options d) = [] ->
  UseUnmanagedNodegroup (options d) = true
  \/ (AMIFamily (options d) = "Bottlerocket"%string
      /\ AMI (options d) <> EmptyString) ->
  result (verifyUpFlags sys (d, w))
  = Some "No instance type specified for unmanaged nodegroup. Using default: m5.xlarge"%string
  /\ InstanceTypes (options (after (verifyUpFlags sys (d, w))))
     = ["m5.xlarge"%string]
  /\ UseUnmanagedNodegroup (options (after (verifyUpFlags sys (d, w)))) = true
  /\ effects (verifyUpFlags sys (d, w)) = []
  /\ forall w',
       verifyUpFlags sys (after (verifyUpFlags sys (d, w)), w')
       = (None, (after (verifyUpFlags sys (d, w)), w'), []).
Proof.
  intros Hv Hn Hi Hu.
  assert (Hrun : verifyUpFlags sys (d, w)
                 = (Some "No instance type specified for unmanaged nodegroup. Using default: m5.xlarge"%string,
                    (setOptions d
                       (setInstanceTypes
                          (setUseUnmanagedNodegroup (options d) true)
                          ["m5.xlarge"%string]), w),
                    [])).
  { destruct d as [rid rdir o reg kp cn]. destruct o. simpl in *.
    run_method. simpl.
    apply String.eqb_neq in Hv. rewrite Hv. simpl.
    assert (En : (Nodes0 <=? 0)%Z = false) by (apply Z.leb_gt; exact Hn).
    rewrite En. simpl. subst InstanceTypes0.
    destruct UseUnmanagedNodegroup0.
    - rewrite andb_false_r. reflexivity.
    - destruct Hu as [Hu|[Hb Ha]]; [discriminate Hu|].
      apply String.eqb_eq in Hb. apply String.eqb_neq in Ha.
      rewrite Hb, Ha. reflexivity. }
  rewrite Hrun. unfold result, after, effects. simpl.
  split; [reflexivity|]. split; [reflexivity|]. split; [reflexivity|].
  split; [reflexivity|].
  intros w'. apply verifyUpFlags_pass; simpl; auto.
  intros _. eexists. reflexivity.
Qed.

Lemma verifyUpFlags_checked (d : deployer) (w : World) :
  result (verifyUpFlags sys (d, w)) = None ->
  (0 < Nodes (options (after (verifyUpFlags sys (d, w)))))%Z
  /\ (UseUnmanagedNodegroup (options (after (verifyUpFlags sys (d, w)))) = true ->
      exists x,
        InstanceTypes (options (after (verifyUpFlags sys (d, w)))) = [x])
  /\ (AMIFamily (options (after (verifyUpFlags sys (d, w))))
      = "Bottlerocket"%string ->
      AMI (options (after (verifyUpFlags sys (d, w)))) <> EmptyString ->
      UseUnmanagedNodegroup (options (after (verifyUpFlags sys (d, w)))) = true).
Proof.
  intros H. destruct (verifyUpFlags_post d w H) as (H1 & H2 & H3 & _ & _ & H6).
  split; [exact H1|]. split; [exact H2|].
  rewrite H6 at 1 2. simpl. exact H3.
Qed.

(** X14.  [verifyUpFlags] is idempotent on what it accepts: called again on
    the deployer it returned nil for, with a Kubernetes version in place,
    it returns nil again, changes nothing and does not look outside,
    whatever has happened outside in between. *)
Theorem verifyUpFlags_idempotent (d : deployer) (w w' : World) :
  result (verifyUpFlags sys (d, w)) = None ->
  KubernetesVersion (options (after (verifyUpFlags sys (d, w)))) <> EmptyString ->
  verifyUpFlags sys (after (verifyUpFlags sys (d, w)), w')
  = (None, (after (verifyUpFlags sys (d, w)), w'), []).
Proof.
  intros H Hv.
  destruct (verifyUpFlags_checked d w H) as (H1 & H2 & H3).
  apply verifyUpFlags_pass; assumption.
Qed.

(** ** [Up] *)

(** The arguments of [eksctl utils write-kubeconfig]. *)
Definition writeKubeconfigArgs (d : deployer) : list string :=
  [ "utils"; "write-kubeconfig";
    "--cluster"; clusterName d;
    "--region"; Region (options d);
    "--kubeconfig"; kubeconfigOf d ]%string.

Lemma createAndWrite_spec (args : list string) (d : deployer) (w : World) :
  fileEffects (effects (createAndWriteKubeconfig sys args (d, w))) = []
  /\ (result (createAndWriteKubeconfig sys args (d, w)) = None ->
      executions (effects (createAndWriteKubeconfig sys args (d, w)))
      = [ ("eksctl"%string, args, None);
          ("eksctl"%string, writeKubeconfigArgs d, None) ]
      /\ after (createAndWriteKubeconfig sys args (d, w))
         = setKubeconfigPath d (kubeconfigOf d))
  /\ (forall e,
        result (createAndWriteKubeconfig sys args (d, w)) = Some e ->
        after (createAndWriteKubeconfig sys args (d, w)) = d
        /\ ((exists e',
               e = ("failed to create cluster: " ++ e')%string
               /\ executions
                    (effects (createAndWriteKubeconfig sys args (d, w)))
                  = [("eksctl"%string, args, Some e')])
            \/ (exists e',
                  e = ("error creating directory for kubeconfig: " ++ e')%string
                  /\ executions
                       (effects (createAndWriteKubeconfig sys args (d, w)))
                     = [("eksctl"%string, args, None)])
            \/ (exists e',
                  e = ("failed to write kubeconfig: " ++ e')%string
                  /\ executions
                       (effects (createAndWriteKubeconfig sys args (d, w)))
                     = [ ("eksctl"%string, args, None);
                         ("eksctl"%string, writeKubeconfigArgs d, Some e') ]))).
Proof.
  unfold createAndWriteKubeconfig, writeKubeconfigArgs.
  cbv beta iota zeta delta [bindE outside self update retE]. simpl.
  destruct (ExecuteCommand sys "eksctl" args w) as [r1 w1] eqn:E1. simpl.
  destruct r1 as [e1|]; simpl.
  { split; [reflexivity|]. split; [discriminate|].
    intros e H. injection H as <-. split; [reflexivity|].
    left. eexists. split; reflexivity. }
  rewrite Kubeconfig_eq. simpl.
  destruct (MkdirAll sys (Dir sys (kubeconfigOf d)) w1) as [r2 w2] eqn:E2.
  simpl. destruct r2 as [e2|]; simpl.
  { split; [reflexivity|]. split; [discriminate|].
    intros e H. injection H as <-. split; [reflexivity|].
    right. left. eexists. split; reflexivity. }
  destruct (ExecuteCommand sys "eksctl" _ w2) as [r3 w3] eqn:E3. simpl.
  destruct r3 as [e3|]; simpl.
  - split; [reflexivity|]. split; [discriminate|].
    intros e H. injection H as <-. split; [reflexivity|].
    right. right. eexists. split; reflexivity.
  - split; [reflexivity|]. split; [|discriminate].
    intros _. split; reflexivity.
Qed.

(** [Up], step by step. *)
Lemma deployer_Up_eq (d : deployer) (w : World) :
  Up sys (d, w)
  = let v := verifyUpFlags sys (setClusterName d (effectiveName d), w) in
    match result v with
    | Some e =>
        (Some ("up flags are invalid: " ++ e)%string, (after v, world v),
         effects v)
    | None =>
        let d2 := after v in
        if negb (String.eqb (ConfigFile (options d2)) "") then
          let x := createAndWriteKubeconfig sys
                     (createArgs (SkipClusterCreation (options d2))
                                 (ConfigFile (options d2)))
                     (d2, world v) in
          (result x, (after x, world x), effects v ++ effects x)
        else
          let d3 := setClusterName d2 (effectiveName d2) in
          let yaml := configYAML {| paramOptions := options d3;
                                    paramClusterName := clusterName d3;
                                    paramRegion := awsRegion d3 |} in
          let tmp := CreateTemp sys "" "kubetest2-eksctl-cluster-config"
                       (world v) in
          let file := fst (fst tmp) in
          match snd (fst tmp) with
          | Some e =>
              (Some e, (d3, snd tmp),
               effects v
                 ++ [TempCreated "" "kubetest2-eksctl-cluster-config" file
                       (Some e)])
          | None =>
              let wr := Write sys file yaml (snd tmp) in
              match fst wr with
              | Some e =>
                  (Some e, (d3, Close sys file (snd wr)),
                   effects v
                     ++ [TempCreated "" "kubetest2-eksctl-cluster-config" file
                           None;
                         Written file yaml (Some e); Closed file])
              | None =>
                  let x := createAndWriteKubeconfig sys
                             (createArgs (SkipClusterCreation (options d3))
                                         file)
                             (d3, snd wr) in
                  (result x, (after x, Close sys file (world x)),
                   effects v
                     ++ TempCreated "" "kubetest2-eksctl-cluster-config" file
                          None
                     :: Written file yaml None
                     :: effects x ++ [Closed file])
              end
          end
    end.
Proof.
  unfold Up. unfold bindE at 1. rewrite initClusterName_eq.
  unfold bindE at 1. cbv zeta.
  destruct (verifyUpFlags sys (setClusterName d (effectiveName d), w))
    as [[verr [d2 w2]] ev].
  unfold result, after, world, effects. cbn [fst snd].
  destruct verr as [e|].
  { unfold retE. cbn [app]. rewrite app_nil_r. reflexivity. }
  unfold bindE at 1. unfold self at 1. cbn [fst snd app].
  destruct (negb (String.eqb (ConfigFile (options d2)) "")).
  - destruct (createAndWriteKubeconfig sys _ (d2, w2)) as [[r [d3 w3]] ex].
    cbn [fst snd app]. reflexivity.
  - unfold RenderClusterConfig.
    unfold bindE at 1. unfold bindE at 1. rewrite initClusterName_eq.
    unfold bindE at 1. unfold self at 1. unfold retE at 1.
    cbn [fst snd app].
    unfold bindE at 1. unfold outside at 1. cbv zeta. cbn [fst snd app].
    destruct (CreateTemp sys "" "kubetest2-eksctl-cluster-config" w2)
      as [[file terr] w3]. cbn [fst snd].
    destruct terr as [e|].
    { unfold retE. cbn [app]. reflexivity. }
    unfold bindE at 1. unfold orFail at 1. unfold bindE at 1.
    unfold outside at 1. cbv zeta. cbn [fst snd app].
    destruct (Write sys file _ w3) as [werr w4]. cbn [fst snd].
    destruct werr as [e|].
    { unfold retE at 1. unfold bindE at 1. unfold outside at 1.
      unfold retE. cbv zeta. cbn [fst snd app]. reflexivity. }
    unfold bindE at 1. unfold self at 1. cbn [fst snd app].
    destruct (createAndWriteKubeconfig sys _ (_, w4)) as [[r [d4 w5]] ex].
    unfold bindE at 1. unfold outside at 1. unfold retE.
    cbv zeta. cbn [fst snd app].
    reflexivity.
Qed.

Lemma verifyUpFlags_keeps (d : deployer) (w : World) :
  clusterName (after (verifyUpFlags sys (d, w))) = clusterName d
  /\ KubeconfigPath (after (verifyUpFlags sys (d, w))) = KubeconfigPath d
  /\ RunDir (after (verifyUpFlags sys (d, w))) = RunDir d
  /\ RunID (after (verifyUpFlags sys (d, w))) = RunID d
  /\ awsRegion (after (verifyUpFlags sys (d, w))) = awsRegion d.
Proof.
  destruct (verifyUpFlags_frame d w) as (H & _). rewrite H.
  repeat split; reflexivity.
Qed.

(** The deployer [Up] hands to [verifyUpFlags]. *)
Definition named (d : deployer) : deployer :=
  setClusterName d (effectiveName d).

Lemma named_after (d : deployer) (w : World) :
  effectiveName (after (verifyUpFlags sys (named d, w))) = effectiveName d
  /\ kubeconfigOf (after (verifyUpFlags sys (named d, w))) = kubeconfigOf d
  /\ clusterName (after (verifyUpFlags sys (named d, w))) = effectiveName d
  /\ awsRegion (after (verifyUpFlags sys (named d, w))) = awsRegion d.
Proof.
  destruct (verifyUpFlags_frame (named d) w) as (_ & _ & _ & _ & _ & _ & Hc & _).
  destruct (verifyUpFlags_keeps (named d) w) as (Hn & Hk & Hr & Hi & Ha).
  unfold effectiveName, kubeconfigOf.
  rewrite Hc, Hk, Hr, Hi, Hn, Ha. repeat split; reflexivity.
Qed.

Lemma createAndWrite_effects (args : list string) (d : deployer) (w : World) :
  result (createAndWriteKubeconfig sys args (d, w)) = None ->
  effects (createAndWriteKubeconfig sys args (d, w))
  = [ Executed "eksctl" args None;
      MadeDir (Dir sys (kubeconfigOf d)) None;
      Executed "eksctl" (writeKubeconfigArgs d) None ].
Proof.
  unfold createAndWriteKubeconfig, writeKubeconfigArgs.
  cbv beta iota zeta delta [bindE outside self update retE]. simpl.
  destruct (ExecuteCommand sys "eksctl" args w) as [r1 w1] eqn:E1. simpl.
  destruct r1 as [e1|]; simpl; [discriminate|].
  rewrite Kubeconfig_eq. simpl.
  destruct (MkdirAll sys (Dir sys (kubeconfigOf d)) w1) as [r2 w2] eqn:E2.
  simpl. destruct r2 as [e2|]; simpl; [discriminate|].
  destruct (ExecuteCommand sys "eksctl" _ w2) as [r3 w3] eqn:E3. simpl.
  destruct r3 as [e3|]; simpl; [discriminate|].
  reflexivity.
Qed.

(** X15.  A successful [Up] has done the following outside, in this order
    and nothing else.  First what [verifyUpFlags] does, which runs no
    command and touches no file.  Then, when no config file is given by
    flag, it creates one temporary file and writes to it the template
    rendered for the verified options, the cluster name (the flag, or else
    the run id) and the region of the AWS configuration.  Then it runs
    [eksctl create cluster] (or [create nodegroup] under
    [--skip-cluster-creation]) with [--config-file] and that file (or the
    one of the flag), makes the directory of the kubeconfig path (the
    deployer's, or else [kubeconfig] in the run directory), and runs
    [eksctl utils write-kubeconfig] for the cluster name, the region of the
    flags and that path, which is then stored in the deployer.  Last, it
    closes the temporary file if it made one.  So exactly two commands are
    run, and the temporary file is written before the first and closed
    after the second. *)
Theorem Up_success_runs_create_then_write_kubeconfig (d : deployer) (w : World) :
  result (Up sys (d, w)) = None ->
  exists file,
    executions (effects (Up sys (d, w)))
    = [ ("eksctl"%string,
         createArgs (SkipClusterCreation (options d)) file, None);
        ("eksctl"%string,
         [ "utils"; "write-kubeconfig";
           "--cluster"; effectiveName d;
           "--region"; Region (options d);
           "--kubeconfig"; kubeconfigOf d ]%string, None) ]
    /\ clusterName (after (Up sys (d, w))) = effectiveName d
    /\ KubeconfigPath (after (Up sys (d, w))) = kubeconfigOf d
    /\ executions (effects (verifyUpFlags sys (named d, w))) = []
    /\ fileEffects (effects (verifyUpFlags sys (named d, w))) = []
    /\ (ConfigFile (options d) <> EmptyString ->
        file = ConfigFile (options d)
        /\ effects (Up sys (d, w))
           = effects (verifyUpFlags sys (named d, w))
             ++ [ Executed "eksctl"
                    (createArgs (SkipClusterCreation (options d)) file) None;
                  MadeDir (Dir sys (kubeconfigOf d)) None;
                  Executed "eksctl"
                    [ "utils"; "write-kubeconfig";
                      "--cluster"; effectiveName d;
                      "--region"; Region (options d);
                      "--kubeconfig"; kubeconfigOf d ]%string None ])
    /\ (ConfigFile (options d) = EmptyString ->
        effects (Up sys (d, w))
        = effects (verifyUpFlags sys (named d, w))
          ++ [ TempCreated "" "kubetest2-eksctl-cluster-config" file None;
               Written file
                 (configYAML
                    {| paramOptions := options (after (Up sys (d, w)));
                       paramClusterName := effectiveName d;
                       paramRegion := awsRegion d |})
                 None;
               Executed "eksctl"
                 (createArgs (SkipClusterCreation (options d)) file) None;
               MadeDir (Dir sys (kubeconfigOf d)) None;
               Executed "eksctl"
                 [ "utils"; "write-kubeconfig";
                   "--cluster"; effectiveName d;
                   "--region"; Region (options d);
                   "--kubeconfig"; kubeconfigOf d ]%string None;
               Closed file ]).
Proof.
  rewrite deployer_Up_eq. cbv zeta. fold (named d).
  destruct (verifyUpFlags_frame (named d) w)
    as (_ & Hex & Hfe & Hcf & Hsk & Hrg & _ & _).
  destruct (named_after d w) as (Hen & Hkc & Hcn & Har).
  set (v := verifyUpFlags sys (named d, w)) in *.
  destruct (result v) as [e|]; [discriminate|].
  assert (Hcf' : ConfigFile (options (after v)) = ConfigFile (options d))
    by exact Hcf.
  assert (Hsk' : SkipClusterCreation (options (after v))
                 = SkipClusterCreation (options d)) by exact Hsk.
  assert (Hrg' : Region (options (after v)) = Region (options d)) by exact Hrg.
  destruct (String.eqb (ConfigFile (options (after v))) "") eqn:Ecf;
    cbn [negb].
  - (* the rendered config *)
    apply String.eqb_eq in Ecf.
    set (d3 := setClusterName (after v) (effectiveName (after v))) in *.
    assert (Hk3 : kubeconfigOf d3 = kubeconfigOf d)
      by (rewrite <- Hkc; reflexivity).
    assert (Hw3 : writeKubeconfigArgs d3
                  = [ "utils"; "write-kubeconfig";
                      "--cluster"; effectiveName d;
                      "--region"; Region (options d);
                      "--kubeconfig"; kubeconfigOf d ]%string).
    { unfold writeKubeconfigArgs. rewrite Hk3. unfold d3.
      cbn [options clusterName setClusterName]. rewrite Hrg', Hen.
      reflexivity. }
    destruct (CreateTemp sys "" "kubetest2-eksctl-cluster-config" (world v))
      as [[file terr] w3]. cbn [fst snd].
    destruct terr as [e|]; [discriminate|].
    destruct (Write sys file _ w3) as [werr w4]. cbn [fst snd].
    destruct werr as [e|]; [discriminate|].
    destruct (createAndWrite_spec
                (createArgs (SkipClusterCreation (options d3)) file) d3 w4)
      as (_ & Hok & _).
    pose proof (createAndWrite_effects
                  (createArgs (SkipClusterCreation (options d3)) file) d3 w4)
      as Heff.
    set (x := createAndWriteKubeconfig sys _ (d3, w4)) in *.
    unfold result at 1. cbn [fst snd]. intros Hr.
    destruct (Hok Hr) as (_ & Ha). specialize (Heff Hr).
    rewrite Hw3, Hk3 in Heff.
    change (SkipClusterCreation (options d3))
      with (SkipClusterCreation (options (after v))) in Heff.
    rewrite Hsk' in Heff.
    exists file. unfold effects at 1 4, after. cbn [fst snd].
    change (after x) with (fst (snd (fst x))) in Ha. rewrite Ha.
    rewrite Heff. cbn [app].
    split.
    + rewrite executions_app, Hex. reflexivity.
    + split; [unfold d3; cbn; exact Hen|].
      split; [cbn; rewrite <- Hkc; reflexivity|].
      split; [exact Hex|]. split; [exact Hfe|].
      split; [intros Hne; rewrite <- Hcf', Ecf in Hne; contradiction|].
      intros _.
      unfold d3.
      cbn [options clusterName awsRegion setClusterName setKubeconfigPath].
      rewrite Hen, Har. reflexivity.
  - (* the config file of the flags *)
    apply String.eqb_neq in Ecf.
    destruct (createAndWrite_spec
                (createArgs (SkipClusterCreation (options (after v)))
                            (ConfigFile (options (after v))))
                (after v) (world v))
      as (_ & Hok & _).
    pose proof (createAndWrite_effects
                  (createArgs (SkipClusterCreation (options (after v)))
                              (ConfigFile (options (after v))))
                  (after v) (world v)) as Heff.
    set (x := createAndWriteKubeconfig sys _ (after v, world v)) in *.
    unfold result at 1. cbn [fst snd]. intros Hr.
    destruct (Hok Hr) as (_ & Ha). specialize (Heff Hr).
    unfold writeKubeconfigArgs in Heff.
    rewrite Hsk', Hcf', Hrg', Hcn, Hkc in Heff.
    exists (ConfigFile (options d)). unfold effects at 1 4, after at 1 2.
    cbn [fst snd].
    change (fst (snd (fst x))) with (after x). rewrite Ha.
    rewrite Heff.
    split.
    + rewrite executions_app, Hex. reflexivity.
    + split; [exact Hcn|]. split; [exact Hkc|].
      split; [exact Hex|]. split; [exact Hfe|].
      split.
      * intros _. split; reflexivity.
      * intros He. rewrite <- Hcf' in He. contradiction.
Qed.

(** X16.  A failed [Up] leaves the kubeconfig path of the deployer as it
    was, and the only command that can have succeeded in it is [eksctl
    create].  When it is the flags that are rejected, the error is that of
    [verifyUpFlags] behind the words "up flags are invalid: ", no command
    has been executed and no file touched: the flags are verified also
    when a config file is given, although the others are then said to be
    ignored. *)
Theorem Up_failure_leaves_kubeconfig (d : deployer) (w : World) (e : error) :
  result (Up sys (d, w)) = Some e ->
  KubeconfigPath (after (Up sys (d, w))) = KubeconfigPath d
  /\ (forall cmd args,
        In (cmd, args, None) (executions (effects (Up sys (d, w)))) ->
        exists file,
          args = createArgs (SkipClusterCreation (options d)) file)
  /\ (forall v,
        result (verifyUpFlags sys (named d, w)) = Some v ->
        e = ("up flags are invalid: " ++ v)%string
        /\ executions (effects (Up sys (d, w))) = []
        /\ fileEffects (effects (Up sys (d, w))) = []).
Proof.
  rewrite deployer_Up_eq. cbv zeta. fold (named d).
  destruct (verifyUpFlags_frame (named d) w)
    as (_ & Hex & Hfe & _ & Hsk & _ & _ & _).
  destruct (verifyUpFlags_keeps (named d) w) as (_ & Hk & _).
  set (v := verifyUpFlags sys (named d, w)) in *.
  assert (Hk' : KubeconfigPath (after v) = KubeconfigPath d) by exact Hk.
  assert (Hsk' : SkipClusterCreation (options (after v))
                 = SkipClusterCreation (options d)) by exact Hsk.
  assert (Hshape : forall args d0 w0 e0 cmd args0,
            result (createAndWriteKubeconfig sys args (d0, w0)) = Some e0 ->
            In (cmd, args0, None)
               (executions (effects (createAndWriteKubeconfig sys args (d0, w0)))) ->
            args0 = args).
  { intros args d0 w0 e0 cmd args0 Hr Hin.
    destruct (createAndWrite_spec args d0 w0) as (_ & _ & Hfail).
    destruct (Hfail e0 Hr) as (_ & [(e' & _ & Hx)|[(e' & _ & Hx)|(e' & _ & Hx)]]);
      rewrite Hx in Hin; simpl in Hin.
    - destruct Hin as [Hin|[]]. discriminate Hin.
    - destruct Hin as [Hin|[]]. injection Hin as _ <-. reflexivity.
    - destruct Hin as [Hin|[Hin|[]]]; [|discriminate Hin].
      injection Hin as _ <-. reflexivity. }
  destruct (result v) as [ev|] eqn:Hv.
  - rewrite ?result_tuple, ?after_tuple, ?effects_tuple. intros H. injection H as <-.
    split; [exact Hk'|]. split.
    + intros cmd args Hin. rewrite Hex in Hin. destruct Hin.
    + intros v0 H0. injection H0 as <-.
      split; [reflexivity|]. split; assumption.
  - destruct (negb (String.eqb (ConfigFile (options (after v))) "")).
    + destruct (createAndWrite_spec
                  (createArgs (SkipClusterCreation (options (after v)))
                              (ConfigFile (options (after v))))
                  (after v) (world v))
        as (_ & _ & Hfail).
      pose proof (Hshape (createArgs (SkipClusterCreation (options (after v)))
                                     (ConfigFile (options (after v))))
                         (after v) (world v)) as Hs.
      set (x := createAndWriteKubeconfig sys _ (after v, world v)) in *.
      rewrite ?result_tuple, ?after_tuple, ?effects_tuple.
      intros Hr. destruct (Hfail e Hr) as (Ha & _).
      rewrite Ha.
      split; [exact Hk'|]. split; [|intros v0 H0; discriminate H0].
      intros cmd args Hin.
      rewrite executions_app, Hex in Hin. cbn [app] in Hin.
      rewrite (Hs e cmd args Hr Hin), Hsk'. eexists. reflexivity.
    + set (d3 := setClusterName (after v) (effectiveName (after v))) in *.
      destruct (CreateTemp sys "" "kubetest2-eksctl-cluster-config" (world v))
        as [[file terr] w3]. cbn [fst snd].
      destruct terr as [e1|].
      { rewrite ?result_tuple, ?after_tuple, ?effects_tuple. intros _.
        split; [exact Hk'|]. split; [|intros v0 H0; discriminate H0].
        intros cmd args Hin.
        rewrite executions_app, Hex in Hin. destruct Hin. }
      destruct (Write sys file _ w3) as [werr w4]. cbn [fst snd].
      destruct werr as [e1|].
      { rewrite ?result_tuple, ?after_tuple, ?effects_tuple. intros _.
        split; [exact Hk'|]. split; [|intros v0 H0; discriminate H0].
        intros cmd args Hin.
        rewrite executions_app, Hex in Hin. destruct Hin. }
      destruct (createAndWrite_spec
                  (createArgs (SkipClusterCreation (options d3)) file) d3 w4)
        as (_ & _ & Hfail).
      pose proof (Hshape (createArgs (SkipClusterCreation (options d3)) file)
                         d3 w4) as Hs.
      set (x := createAndWriteKubeconfig sys _ (d3, w4)) in *.
      rewrite ?result_tuple, ?after_tuple, ?effects_tuple.
      intros Hr. destruct (Hfail e Hr) as (Ha & _).
      rewrite Ha.
      split; [exact Hk'|]. split; [|intros v0 H0; discriminate H0].
      intros cmd args Hin.
      change (TempCreated "" "kubetest2-eksctl-cluster-config" file None
                :: Written file ?y None :: ?z)
        with ([TempCreated "" "kubetest2-eksctl-cluster-config" file None;
               Written file y None] ++ z) in Hin.
      rewrite !executions_app, Hex in Hin.
      cbn [app executions flat_map] in Hin. rewrite app_nil_r in Hin.
      rewrite (Hs e cmd args Hr Hin). unfold d3. cbn [options setClusterName].
      rewrite Hsk'. eexists. reflexivity.
Qed.

(** X17.  [Up] creates at most one temporary file and never leaves it
    open: either it touches no file, or the creation of the temporary
    file failed, or the file was written once and closed once, the close
    being the last thing [Up] does outside, whatever it returns. *)
Theorem Up_closes_its_temporary_file (d : deployer) (w : World) :
  fileEffects (effects (Up sys (d, w))) = []
  \/ (exists file e,
        fileEffects (effects (Up sys (d, w)))
        = [TempCreated "" "kubetest2-eksctl-cluster-config" file (Some e)])
  \/ (exists file yaml r pre,
        fileEffects (effects (Up sys (d, w)))
        = [ TempCreated "" "kubetest2-eksctl-cluster-config" file None;
            Written file yaml r; Closed file ]
        /\ effects (Up sys (d, w)) = pre ++ [Closed file]).
Proof.
  rewrite deployer_Up_eq. cbv zeta. fold (named d).
  destruct (verifyUpFlags_frame (named d) w) as (_ & _ & Hfe & _).
  set (v := verifyUpFlags sys (named d, w)) in *.
  destruct (result v) as [ev|].
  { left. exact Hfe. }
  destruct (negb (String.eqb (ConfigFile (options (after v))) "")).
  - left.
    destruct (createAndWrite_spec
                (createArgs (SkipClusterCreation (options (after v)))
                            (ConfigFile (options (after v))))
                (after v) (world v)) as (Hf & _).
    rewrite ?effects_tuple.
    rewrite fileEffects_app, Hfe, Hf. reflexivity.
  - set (d3 := setClusterName (after v) (effectiveName (after v))) in *.
    destruct (CreateTemp sys "" "kubetest2-eksctl-cluster-config" (world v))
      as [[file terr] w3]. cbn [fst snd].
    destruct terr as [e1|].
    { right. left. exists file, e1. rewrite ?effects_tuple.
      rewrite fileEffects_app, Hfe. reflexivity. }
    right. right.
    destruct (Write sys file _ w3) as [werr w4]. cbn [fst snd].
    destruct werr as [e1|].
    + eexists file, _, (Some e1), _. rewrite ?effects_tuple.
      split.
      * rewrite fileEffects_app, Hfe. reflexivity.
      * change [TempCreated "" "kubetest2-eksctl-cluster-config" file None;
                Written file ?y (Some e1); Closed file]
          with ([TempCreated "" "kubetest2-eksctl-cluster-config" file None;
                 Written file y (Some e1)] ++ [Closed file]).
        rewrite app_assoc. reflexivity.
    + destruct (createAndWrite_spec
                  (createArgs (SkipClusterCreation (options d3)) file) d3 w4)
        as (Hf & _).
      set (x := createAndWriteKubeconfig sys _ (d3, w4)) in *.
      eexists file, _, None, _. rewrite ?effects_tuple.
      split.
      * change (TempCreated "" "kubetest2-eksctl-cluster-config" file None
                  :: Written file ?y None :: ?z)
          with ([TempCreated "" "kubetest2-eksctl-cluster-config" file None;
                 Written file y None] ++ z).
        rewrite !fileEffects_app, Hfe, Hf. reflexivity.
      * change (TempCreated "" "kubetest2-eksctl-cluster-config" file None
                  :: Written file ?y None :: effects x ++ [Closed file])
          with (([TempCreated "" "kubetest2-eksctl-cluster-config" file None;
                  Written file y None] ++ effects x) ++ [Closed file]).
        rewrite app_assoc. reflexivity.
Qed.

(** ** The rendered cluster config *)

Definition setEFAEnabled (o : UpOptions) (b : bool) : UpOptions :=
  {| Region := Region o; KubernetesVersion := KubernetesVersion o;
     Nodes := Nodes o; AMI := AMI o; InstanceTypes := InstanceTypes o;
     ConfigFile := ConfigFile o; AvailabilityZones := AvailabilityZones o;
     AMIFamily := AMIFamily o; EFAEnabled := b;
     VolumeSize := VolumeSize o; PrivateNetworking := PrivateNetworking o;
     WithOIDC := WithOIDC o; SkipClusterCreation := SkipClusterCreation o;
     ClusterName := ClusterName o;
     UseUnmanagedNodegroup := UseUnmanagedNodegroup o;
     NodegroupName := NodegroupName o |}.

(** X18.  For an unmanaged node group the rendered cluster config does not
    depend on [--efa-enabled], nor on any instance type after the first:
    the flag is dropped without a word, and of several instance types only
    the first is written. *)
Theorem unmanaged_config_ignores_efa_and_extra_instance_types
    (o : UpOptions) (name region first : string) (others : list string)
    (efa : bool) :
  UseUnmanagedNodegroup o = true ->
  configYAML {| paramOptions :=
                  setEFAEnabled (setInstanceTypes o (first :: others)) efa;
                paramClusterName := name;
                paramRegion := region |}
  = configYAML {| paramOptions :=
                    setEFAEnabled (setInstanceTypes o [first]) false;
                  paramClusterName := name;
                  paramRegion := region |}.
Proof.
  intros Hu. unfold configYAML. cbv zeta.
  cbn [paramOptions setEFAEnabled setInstanceTypes UseUnmanagedNodegroup
       InstanceTypes].
  rewrite Hu. reflexivity.
Qed.

Lemma contains_here (m q : string) : contains (m ++ q)%string m.
Proof. exists EmptyString, q. reflexivity. Qed.

Lemma contains_skip (a s m : string) :
  contains s m -> contains (a ++ s)%string m.
Proof.
  intros (p & q & ->). exists (a ++ p)%string, q.
  rewrite string_app_assoc. reflexivity.
Qed.

Lemma contains_before (s b m : string) :
  contains s m -> contains (s ++ b)%string m.
Proof.
  intros (p & q & ->). exists p, (q ++ b)%string.
  rewrite !string_app_assoc. reflexivity.
Qed.

(** ** Whole lines of the rendered config *)

(** A piece of the template that renders to nothing or to lines of its
    own, each led by its newline. *)
Definition linesOrNothing (s : string) : Prop :=
  s = EmptyString \/ exists q, s = (nl ++ q)%string.

Lemma linesOrNothing_app (s r : string) :
  linesOrNothing s ->
  (exists q, r = (nl ++ q)%string) ->
  exists q, (s ++ r)%string = (nl ++ q)%string.
Proof.
  intros [->|[q0 ->]] [q ->].
  - exists q. reflexivity.
  - exists (q0 ++ nl ++ q)%string. apply string_app_assoc.
Qed.

Lemma volumeSizeLine_lines o : linesOrNothing (volumeSizeLine o).
Proof.
  unfold volumeSizeLine. destruct (VolumeSize o =? 0)%Z;
    [left; reflexivity|right; eexists; reflexivity].
Qed.

Lemma privateNetworkingLine_lines o : linesOrNothing (privateNetworkingLine o).
Proof.
  unfold privateNetworkingLine. destruct (PrivateNetworking o);
    [right; eexists; reflexivity|left; reflexivity].
Qed.

Lemma availabilityZoneLines_lines o : linesOrNothing (availabilityZoneLines o).
Proof.
  unfold availabilityZoneLines. destruct (AvailabilityZones o);
    [left; reflexivity|right; eexists; reflexivity].
Qed.

Lemma bootstrapLines_lines p : linesOrNothing (bootstrapLines p).
Proof.
  unfold bootstrapLines. destruct (_ && _);
    [right; eexists; reflexivity|left; reflexivity].
Qed.

(** [m] followed by the end of its line is in [m ++ r] when [r] starts a new
    line. *)
Lemma contains_line (m r : string) :
  (exists q, r = (nl ++ q)%string) -> contains (m ++ r)%string (m ++ nl)%string.
Proof.
  intros [q ->]. exists EmptyString, q.
  cbn [append]. rewrite string_app_assoc. reflexivity.
Qed.

(** X19.  The config rendered for options that [verifyUpFlags] has let
    through always fixes the size of the node group: it holds the three
    whole lines [minSize], [maxSize] and [desiredCapacity], one after the
    other, each from its newline to the next and each with the node count
    of the flags and nothing after it; and for an unmanaged node group it
    holds the whole line [instanceType] with the one instance type there
    is, in double quotes. *)
Theorem verified_config_fixes_the_node_group (d : deployer) (w : World)
    (name region : string) :
  result (verifyUpFlags sys (d, w)) = None ->
  contains
    (configYAML {| paramOptions := options (after (verifyUpFlags sys (d, w)));
                   paramClusterName := name;
                   paramRegion := region |})
    ((nl ++ "    minSize: " ++ itoa (Nodes (options d))
      ++ nl ++ "    maxSize: " ++ itoa (Nodes (options d))
      ++ nl ++ "    desiredCapacity: " ++ itoa (Nodes (options d)))
     ++ nl)%string
  /\ (UseUnmanagedNodegroup (options (after (verifyUpFlags sys (d, w)))) = true ->
      exists x,
        InstanceTypes (options (after (verifyUpFlags sys (d, w)))) = [x]
        /\ contains
             (configYAML
                {| paramOptions := options (after (verifyUpFlags sys (d, w)));
                   paramClusterName := name;
                   paramRegion := region |})
             ((nl ++ "    instanceType: " ++ dq ++ x ++ dq) ++ nl)%string).
Proof.
  intros H.
  destruct (verifyUpFlags_post d w H) as (Hn & Hu & _).
  destruct (verifyUpFlags_frame d w) as (_ & _ & _ & _ & _ & _ & _ & Hnodes).
  set (o := options (after (verifyUpFlags sys (d, w)))) in *.
  set (p := {| paramOptions := o; paramClusterName := name;
               paramRegion := region |}).
  assert (Hsize : sizeLines o
                  = (nl ++ "    minSize: " ++ itoa (Nodes (options d))
                     ++ nl ++ "    maxSize: " ++ itoa (Nodes (options d))
                     ++ nl ++ "    desiredCapacity: "
                     ++ itoa (Nodes (options d)))%string).
  { unfold sizeLines. apply Z.ltb_lt in Hn. rewrite Hn, Hnodes.
    reflexivity. }
  assert (Hend : exists q, (bootstrapLines p ++ nl)%string = (nl ++ q)%string).
  { apply linesOrNothing_app; [apply bootstrapLines_lines|].
    exists EmptyString. reflexivity. }
  assert (Hzones : exists q,
             (availabilityZoneLines o ++ bootstrapLines p ++ nl)%string
             = (nl ++ q)%string)
    by (apply linesOrNothing_app; [apply availabilityZoneLines_lines|exact Hend]).
  split.
  - rewrite <- Hsize. unfold configYAML. cbv zeta.
    change (paramOptions p) with o.
    do 20 apply contains_skip.
    destruct (UseUnmanagedNodegroup o).
    + rewrite !string_app_assoc.
      do 8 apply contains_skip. apply contains_line.
      apply linesOrNothing_app; [apply volumeSizeLine_lines|].
      apply linesOrNothing_app; [apply privateNetworkingLine_lines|].
      exact Hzones.
    + rewrite !string_app_assoc.
      do 8 apply contains_skip. apply contains_line.
      apply linesOrNothing_app; [apply volumeSizeLine_lines|].
      apply linesOrNothing_app; [apply privateNetworkingLine_lines|].
      apply linesOrNothing_app;
        [destruct (EFAEnabled o);
         [right; eexists; reflexivity|left; reflexivity]|].
      exact Hzones.
  - intros Hun. destruct (Hu Hun) as [x Hx]. exists x. split; [exact Hx|].
    unfold configYAML. cbv zeta. change (paramOptions p) with o.
    rewrite Hun, Hx.
    do 20 apply contains_skip.
    rewrite !string_app_assoc.
    do 7 apply contains_skip.
    assert (HR : exists q,
              (sizeLines o ++ volumeSizeLine o ++ privateNetworkingLine o
                 ++ availabilityZoneLines o ++ bootstrapLines p ++ nl)%string
              = (nl ++ q)%string).
    { rewrite Hsize, !string_app_assoc. eexists. reflexivity. }
    destruct HR as [q HR]. rewrite HR.
    exists EmptyString, q. rewrite !string_app_assoc. reflexivity.
Qed.

(** ** [IsUp] *)

Lemma IsUp_eq (d : deployer) (w : World) :
  IsUp sys (d, w)
  = let r := DescribeCluster sys (effectiveName d) w in
    (match snd (fst r) with
     | Some e => (false, Some e)
     | None =>
         if String.eqb (fst (fst r)) (ClusterStatusActive sys)
         then (true, None)
         else if String.eqb (fst (fst r)) (ClusterStatusCreating sys)
              then (false, None)
              else (false, Some ("cluster status is: " ++ fst (fst r))%string)
     end,
     (named d, snd r),
     [Described (effectiveName d) (fst (fst r)) (snd (fst r))]).
Proof.
  unfold IsUp. unfold bindE at 1. rewrite initClusterName_eq.
  cbv beta iota zeta delta [bindE self outside retE].
  cbn [fst snd app clusterName setClusterName].
  destruct (DescribeCluster sys (effectiveName d) w) as [[status derr] w1].
  cbn [fst snd].
  destruct derr as [e|]; [reflexivity|].
  destruct (String.eqb status (ClusterStatusActive sys)); [reflexivity|].
  destruct (String.eqb status (ClusterStatusCreating sys)); reflexivity.
Qed.

(** X20.  The eksctl deployer's [IsUp] describes the cluster under its
    effective name, once.  It reports the cluster up exactly when the
    description succeeded with status ACTIVE, and then without an error;
    while the cluster is CREATING it reports not up and no error; a failed
    description, or any other status, is an error. *)
Theorem eksctl_IsUp_reports_active_only (d : deployer) (w : World) :
  exists status derr,
    effects (IsUp sys (d, w)) = [Described (effectiveName d) status derr]
    /\ (fst (result (IsUp sys (d, w))) = true <->
        derr = None /\ status = ClusterStatusActive sys)
    /\ (fst (result (IsUp sys (d, w))) = true ->
        snd (result (IsUp sys (d, w))) = None)
    /\ (derr = None -> status = ClusterStatusCreating sys ->
        status <> ClusterStatusActive sys ->
        result (IsUp sys (d, w)) = (false, None))
    /\ (forall e, derr = Some e ->
          result (IsUp sys (d, w)) = (false, Some e))
    /\ (derr = None -> status <> ClusterStatusActive sys ->
        status <> ClusterStatusCreating sys ->
        result (IsUp sys (d, w))
        = (false, Some ("cluster status is: " ++ status)%string)).
Proof.
  rewrite IsUp_eq. cbv zeta. unfold result, effects.
  destruct (DescribeCluster sys (effectiveName d) w) as [[status derr] w1].
  cbn [fst snd]. exists status, derr.
  destruct derr as [e|];
    [|destruct (String.eqb status (ClusterStatusActive sys)) eqn:Ea;
      [|destruct (String.eqb status (ClusterStatusCreating sys)) eqn:Ec]];
    repeat match goal with
    | E : String.eqb _ _ = true |- _ => apply String.eqb_eq in E
    | E : String.eqb _ _ = false |- _ => apply String.eqb_neq in E
    end;
    cbn [fst snd app];
    (split; [reflexivity|]);
    repeat split; intros; try reflexivity; try discriminate;
    try congruence; intuition congruence.
Qed.

End DeployerFacts.

Arguments result {World A} x.
Arguments after {World A} x.
Arguments world {World A} x.
Arguments effects {World A} x.

(** ** The deployer's properties on scripted runs *)

Lemma verifyUpFlags_accepts_witness :
  (0 < Nodes (options (after
                         (verifyUpFlags EksctlSim.sys
                            (EksctlSim.deployerOf EksctlSim.flags,
                             EksctlSim.allGood)))))%Z.
Proof.
  destruct (verifyUpFlags_accepts EksctlSim.World EksctlSim.sys
              (EksctlSim.deployerOf EksctlSim.flags) EksctlSim.allGood)
    as [H _].
  - vm_compute. reflexivity.
  - exact H.
Defined.

Lemma verifyUpFlags_rejects_after_setting_default_witness :
  InstanceTypes (options (after
                            (verifyUpFlags EksctlSim.sys
                               (EksctlSim.deployerOf EksctlSim.bottlerocketFlags,
                                EksctlSim.allGood))))
  = ["m5.xlarge"%string].
Proof.
  destruct (verifyUpFlags_rejects_after_setting_default
              EksctlSim.World EksctlSim.sys
              (EksctlSim.deployerOf EksctlSim.bottlerocketFlags)
              EksctlSim.allGood)
    as (_ & H & _).
  - discriminate.
  - reflexivity.
  - reflexivity.
  - right. split; [reflexivity|discriminate].
  - exact H.
Defined.

Lemma verifyUpFlags_idempotent_witness :
  verifyUpFlags EksctlSim.sys
    (after
       (verifyUpFlags EksctlSim.sys
          (EksctlSim.deployerOf EksctlSim.flags, EksctlSim.allGood)),
     EksctlSim.createFails)
  = (None,
     (after
        (verifyUpFlags EksctlSim.sys
           (EksctlSim.deployerOf EksctlSim.flags, EksctlSim.allGood)),
      EksctlSim.createFails),
     []).
Proof.
  apply (verifyUpFlags_idempotent EksctlSim.World EksctlSim.sys
           (EksctlSim.deployerOf EksctlSim.flags)
           EksctlSim.allGood EksctlSim.createFails).
  - vm_compute. reflexivity.
  - vm_compute. discriminate.
Defined.

Lemma Up_success_runs_create_then_write_kubeconfig_witness :
  KubeconfigPath (after
                    (Up EksctlSim.sys
                       (EksctlSim.deployerOf EksctlSim.flags,
                        EksctlSim.allGood)))
  = "/run/kubeconfig"%string.
Proof.
  destruct (Up_success_runs_create_then_write_kubeconfig
              EksctlSim.World EksctlSim.sys
              (EksctlSim.deployerOf EksctlSim.flags) EksctlSim.allGood)
    as (file & _ & _ & H & _).
  - vm_compute. reflexivity.
  - rewrite H. reflexivity.
Defined.

Lemma Up_failure_leaves_kubeconfig_witness :
  KubeconfigPath (after
                    (Up EksctlSim.sys
                       (EksctlSim.deployerOf EksctlSim.flags,
                        EksctlSim.createFails)))
  = EmptyString.
Proof.
  destruct (Up_failure_leaves_kubeconfig
              EksctlSim.World EksctlSim.sys
              (EksctlSim.deployerOf EksctlSim.flags) EksctlSim.createFails
              "failed to create cluster: exit status 1"%string)
    as (H & _).
  - vm_compute. reflexivity.
  - rewrite H. reflexivity.
Defined.

Lemma unmanaged_config_ignores_efa_and_extra_instance_types_witness :
  configYAML
    {| paramOptions :=
         setEFAEnabled
           (setInstanceTypes
              (setUseUnmanagedNodegroup EksctlSim.flags true)
              ["p4d.24xlarge"; "m5.large"]%string)
           true;
       paramClusterName := "run-1";
       paramRegion := "us-west-2" |}
  = configYAML
      {| paramOptions :=
           setEFAEnabled
             (setInstanceTypes
                (setUseUnmanagedNodegroup EksctlSim.flags true)
                ["p4d.24xlarge"%string])
             false;
         paramClusterName := "run-1";
         paramRegion := "us-west-2" |}.
Proof.
  apply (unmanaged_config_ignores_efa_and_extra_instance_types
           (setUseUnmanagedNodegroup EksctlSim.flags true)).
  reflexivity.
Defined.

Lemma verified_config_fixes_the_node_group_witness :
  contains
    (configYAML
       {| paramOptions :=
            options (after
                       (verifyUpFlags EksctlSim.sys
                          (EksctlSim.deployerOf EksctlSim.flags,
                           EksctlSim.allGood)));
          paramClusterName := "run-1";
          paramRegion := "us-west-2" |})
    ((nl ++ "    minSize: "
         ++ itoa (Nodes (options (EksctlSim.deployerOf EksctlSim.flags)))
      ++ nl ++ "    maxSize: "
         ++ itoa (Nodes (options (EksctlSim.deployerOf EksctlSim.flags)))
      ++ nl ++ "    desiredCapacity: "
         ++ itoa (Nodes (options (EksctlSim.deployerOf EksctlSim.flags))))
     ++ nl)%string.
Proof.
  destruct (verified_config_fixes_the_node_group
              EksctlSim.World EksctlSim.sys
              (EksctlSim.deployerOf EksctlSim.flags) EksctlSim.allGood
              "run-1"%string "us-west-2"%string)
    as [H _].
  - vm_compute. reflexivity.
  - exact H.
Defined.

End EksctlFacts.
